(** * pytorch2timeloop-converter: layer descriptions and their translation

    A shallow embedding of [pytorch2timeloop/utils/layer_descriptions.py]
    and of the shape classifiers of [pytorch2timeloop/utils/converter.py].

    Python integers are [Z], tuples and lists of integers are [list Z],
    strings are [string].  A call that can raise returns a [Py.result];
    a method that assigns to a field of [self] is a computation in the
    state-and-exception monad [Py.M], whose state is the description.  The
    parsed workload documents are values of [Yaml.yaml]; a Python [dict] is
    an association list in insertion order. *)

From Stdlib Require Import QArith Qround.
From Stdlib Require Import ZArith List String Ascii Lia Bool DecimalString.
Import ListNotations.

Local Open Scope string_scope.
Local Open Scope list_scope.
Local Open Scope Z_scope.

(* ================================================================== *)
(** * The fragment of Python the two source files use *)
(* ================================================================== *)

Module Py.

(** The exceptions the modelled code can raise.  [ResourceError] stands for
    whatever the loading of a packaged template raises. *)
Inductive exn : Type :=
| ZeroDivisionError
| OverflowError
| TypeError
| KeyError
| IndexError
| AssertionError
| NotImplementedError
| AttributeError
| ResourceError.

Inductive result (A : Type) : Type :=
| Ok (a : A)
| Raise (e : exn).
Arguments Ok {A} a.
Arguments Raise {A} e.

Definition rbind {A B} (r : result A) (k : A -> result B) : result B :=
  match r with
  | Ok a => k a
  | Raise e => Raise e
  end.

Definition succeeds {A} (r : result A) : bool :=
  match r with Ok _ => true | Raise _ => false end.

(** Sequencing a fallible step over a list, left to right, stopping at the
    first exception (a [for] loop whose body may raise). *)
Fixpoint mapM {A B} (f : A -> result B) (l : list A) : result (list B) :=
  match l with
  | [] => Ok []
  | x :: xs =>
      rbind (f x) (fun y => rbind (mapM f xs) (fun ys => Ok (y :: ys)))
  end.

(** A [for] loop that threads an accumulator and may raise. *)
Fixpoint foldM {A B} (f : A -> B -> result A) (a : A) (l : list B)
  : result A :=
  match l with
  | [] => Ok a
  | x :: xs => rbind (f a x) (fun a' => foldM f a' xs)
  end.

(** ** Methods that assign to [self]

    The description is the state; an exception leaves the assignments made
    before it in place, as in Python. *)
Definition M (S A : Type) : Type := S -> S * result A.

Definition ret {S A} (a : A) : M S A := fun s => (s, Ok a).
Definition raise {S A} (e : exn) : M S A := fun s => (s, Raise e).
Definition bind {S A B} (m : M S A) (k : A -> M S B) : M S B :=
  fun s =>
    match m s with
    | (s', Ok a) => k a s'
    | (s', Raise e) => (s', Raise e)
    end.
Definition get {S} : M S S := fun s => (s, Ok s).
Definition modify {S} (f : S -> S) : M S unit := fun s => (f s, Ok tt).
Definition lift {S A} (r : result A) : M S A := fun s => (s, r).
Definition when {S} (b : bool) (m : M S unit) : M S unit :=
  if b then m else ret tt.
(** [assert(b)] *)
Definition assert {S} (b : bool) : M S unit :=
  if b then ret tt else raise AssertionError.

(** ** Integers *)

(** [a // b] on integers: floor division. *)
Definition floordiv (a b : Z) : result Z :=
  if b =? 0 then Raise ZeroDivisionError else Ok (a / b).

(** A finite binary64 value, [mant * 2 ^ expo]. *)
Record float : Type := mkfloat { mant : Z; expo : Z }.

(** The integer nearest to [num / den], ties to even ([0 <= num], [0 < den]). *)
Definition round_half_even (num den : Z) : Z :=
  let q := num / den in
  let r := num mod den in
  if 2 * r <? den then q
  else if den <? 2 * r then q + 1
  else if Z.even q then q else q + 1.

(** The exponent of the last place of the binary64 value nearest to
    [a / b] for [0 < a], [0 < b]: the quotient scaled by it has 53 bits,
    unless the value is subnormal, where the exponent stays at -1074. *)
Definition ulp_exponent (a b : Z) : Z :=
  let la := Z.log2 a in
  let lb := Z.log2 b in
  let e := if b * 2 ^ la <=? a * 2 ^ lb then la - lb - 52 else la - lb - 53 in
  Z.max e (-1074).

(** [a / b] on integers ("true division"): the correctly rounded binary64
    quotient, [OverflowError] when it is too large for a float. *)
Definition truediv_pos (a b : Z) : result float :=
  let e := ulp_exponent a b in
  let num := if 0 <=? e then a else a * 2 ^ (- e) in
  let den := if 0 <=? e then b * 2 ^ e else b in
  let m := round_half_even num den in
  if (if 0 <=? e then 2 ^ 1024 <=? m * 2 ^ e else 2 ^ (1024 - e) <=? m)
  then Raise OverflowError
  else Ok (mkfloat m e).

Definition truediv (a b : Z) : result float :=
  if b =? 0 then Raise ZeroDivisionError
  else if a =? 0 then Ok (mkfloat 0 0)
  else
    rbind (truediv_pos (Z.abs a) (Z.abs b))
          (fun x => Ok (mkfloat (Z.sgn a * Z.sgn b * mant x) (expo x))).

(** [int(x)] on a finite float: truncation towards zero. *)
Definition int_of_float (x : float) : Z :=
  if 0 <=? expo x then mant x * 2 ^ expo x
  else Z.quot (mant x) (2 ^ (- expo x)).

(** [str(n)], as an f-string formats an integer. *)
Definition str (n : Z) : string := NilZero.string_of_int (Z.to_int n).

(** ** Sequences *)

Definition len {A} (l : list A) : Z := Z.of_nat (List.length l).

(** [l[i]], negative indices counting from the end. *)
Definition index {A} (l : list A) (i : Z) : result A :=
  let j := if i <? 0 then len l + i else i in
  if j <? 0 then Raise IndexError
  else match nth_error l (Z.to_nat j) with
       | Some x => Ok x
       | None => Raise IndexError
       end.

(** [l[:stop]] *)
Definition slice_to {A} (l : list A) (stop : Z) : list A :=
  firstn (Z.to_nat (if stop <? 0 then Z.max 0 (len l + stop) else stop)) l.

(** [l[i] = v] on a list. *)
Fixpoint set_nth {A} (l : list A) (n : nat) (v : A) : list A :=
  match l, n with
  | [], _ => []
  | _ :: xs, O => v :: xs
  | x :: xs, S n' => x :: set_nth xs n' v
  end.

Definition setitem {A} (l : list A) (i : Z) (v : A) : result (list A) :=
  let j := if i <? 0 then len l + i else i in
  if (j <? 0) || (len l <=? j) then Raise IndexError
  else Ok (set_nth l (Z.to_nat j) v).

(** [reduce(lambda x, y: x*y, l)], without an initial value. *)
Definition product (l : list Z) : result Z :=
  match l with
  | [] => Raise TypeError
  | x :: xs => Ok (fold_left Z.mul xs x)
  end.

(** [sep.join(l)] *)
Fixpoint join (sep : string) (l : list string) : string :=
  match l with
  | [] => EmptyString
  | [x] => x
  | x :: xs => (x ++ sep ++ join sep xs)%string
  end.

(** [list(s)] for a string [s]: its characters, as one-character strings. *)
Fixpoint chars (s : string) : list string :=
  match s with
  | EmptyString => []
  | String c s' => String c EmptyString :: chars s'
  end.

(** [string.ascii_uppercase] *)
Definition ascii_uppercase : string := "ABCDEFGHIJKLMNOPQRSTUVWXYZ".

(** [string.ascii_uppercase[:n]], as a sequence of names. *)
Definition uppercase_prefix (n : Z) : list string :=
  slice_to (chars ascii_uppercase) n.

End Py.

Import Py.

Declare Scope py_scope.
Delimit Scope py_scope with py.
Notation "x <- r ;; k" := (Py.rbind r (fun x => k))
  (at level 61, r at next level, right associativity) : py_scope.

Declare Scope pym_scope.
Delimit Scope pym_scope with pym.
Notation "x <- m ;; k" := (Py.bind m (fun x => k))
  (at level 61, m at next level, right associativity) : pym_scope.
Notation "m ;; k" := (Py.bind m (fun _ => k))
  (at level 61, right associativity) : pym_scope.

(* ================================================================== *)
(** * Workload documents *)
(* ================================================================== *)

Module Yaml.

(** What [yaml.load] returns and what the translations build: scalars,
    lists, and dictionaries with string keys, in insertion order. *)
#[local] Set Warnings "-register-all".
Inductive yaml : Type :=
| YNone
| YBool (b : bool)
| YInt (n : Z)
| YStr (s : string)
| YList (l : list yaml)
| YDict (d : list (string * yaml)).

(** ** Dictionaries as association lists *)

Fixpoint dict_get (d : list (string * yaml)) (k : string) : option yaml :=
  match d with
  | [] => None
  | (k', v) :: d' => if String.eqb k' k then Some v else dict_get d' k
  end.

(** [d[k] = v]: an existing key keeps its position, a new one goes last. *)
Fixpoint dict_set (d : list (string * yaml)) (k : string) (v : yaml)
  : list (string * yaml) :=
  match d with
  | [] => [(k, v)]
  | (k', v') :: d' =>
      if String.eqb k' k then (k', v) :: d' else (k', v') :: dict_set d' k v
  end.

(** [y[k]] for a string [k]. *)
Definition getitem (y : yaml) (k : string) : result yaml :=
  match y with
  | YDict d =>
      match dict_get d k with
      | Some v => Ok v
      | None => Raise KeyError
      end
  | _ => Raise TypeError
  end.

(** [y[k] = v] for a string [k]. *)
Definition setitem (y : yaml) (k : string) (v : yaml) : result yaml :=
  match y with
  | YDict d => Ok (YDict (dict_set d k v))
  | _ => Raise TypeError
  end.

(** [y[p1]...[pn][k] = v]: the objects on the path are looked up, the last
    one is assigned to. *)
Fixpoint set_path (y : yaml) (path : list string) (k : string) (v : yaml)
  : result yaml :=
  match path with
  | [] => setitem y k v
  | p :: ps =>
      (sub <- getitem y p ;;
       sub' <- set_path sub ps k v ;;
       setitem y p sub')%py
  end.

Fixpoint get_path (y : yaml) (path : list string) : result yaml :=
  match path with
  | [] => Ok y
  | p :: ps => (sub <- getitem y p ;; get_path sub ps)%py
  end.

(** [y == s] for a string literal [s]. *)
Definition eq_str (y : yaml) (s : string) : bool :=
  match y with
  | YStr t => String.eqb t s
  | _ => false
  end.

(** What [for x in y] iterates over: the elements of a list, the keys of a
    dictionary, the characters of a string. *)
Definition iter (y : yaml) : result (list yaml) :=
  match y with
  | YList l => Ok l
  | YDict d => Ok (map (fun kv => YStr (fst kv)) d)
  | YStr s => Ok (map YStr (chars s))
  | _ => Raise TypeError
  end.

(** [for x in y[p1]...[pn]: body(x)], where the body updates [x] in place:
    the updated elements replace the old ones in the list. *)
Definition for_each_at (y : yaml) (path : list string) (last : string)
    (body : yaml -> result yaml) : result yaml :=
  (parent <- get_path y path ;;
   seq <- getitem parent last ;;
   items <- iter seq ;;
   items' <- mapM body items ;;
   match seq with
   | YList _ => set_path y path last (YList items')
   | _ => Ok y
   end)%py.

(** [prefix + y] for a list [prefix]. *)
Definition list_add (prefix : list yaml) (y : yaml) : result yaml :=
  match y with
  | YList l => Ok (YList (prefix ++ l))
  | _ => Raise TypeError
  end.

(** The projection [[[d]]] of one dimension. *)
Definition proj (d : string) : yaml := YList [YList [YStr d]].

(** A dimension with its coefficient, [[d, c]]. *)
Definition term (d c : string) : yaml := YList [YStr d; YStr c].

(** A dictionary built by assigning [d[k] = v] for the pairs in order. *)
Definition dict_of (kvs : list (string * yaml)) : list (string * yaml) :=
  fold_left (fun d kv => dict_set d (fst kv) (snd kv)) kvs [].

End Yaml.

Import Yaml.

(* ================================================================== *)
(** * layer_descriptions.py *)
(* ================================================================== *)

(** The output extent [int((extent - kernel + 2 * pad) / stride) + 1] that
    the convolution and the pooling descriptions share. *)
Definition out_extent (extent kernel pad stride : Z) : result Z :=
  (x <- truediv (extent - kernel + 2 * pad) stride ;;
   Ok (int_of_float x + 1))%py.

Module LayerDescription.
Section Templates.

(** [pkgutil.get_data("pytorch2timeloop", path)] followed by [yaml.load]:
    the parsed template stored under [path], or the exception raised.  The
    templates are package data, not code. *)
Variable load : string -> result yaml.

Definition get_workload (problem_template : string) : result yaml :=
  load ("utils/" ++ problem_template ++ ".yaml")%string.

(** [to_yaml] of the base class; [name] is the value of [self.name]. *)
Definition to_yaml (problem_template : string) (name : yaml)
  : result yaml :=
  (config <- get_workload problem_template ;;
   set_path config ["problem"; "shape"] "name" name)%py.

End Templates.
End LayerDescription.

Module ConvLayerDescription.

Record t : Type := mk {
  name : string;
  g : Z; m : Z; w : Z; h : Z; c : Z; n : Z; s : Z; r : Z;
  w_pad : Z; h_pad : Z; w_stride : Z; h_stride : Z;
  ifmap_name : string; filter_name : string; ofmap_name : string
}.

Definition q (self : t) : result Z :=
  out_extent (w self) (s self) (w_pad self) (w_stride self).

Definition p (self : t) : result Z :=
  out_extent (h self) (r self) (h_pad self) (h_stride self).

Definition to_yaml (self : t) : result yaml :=
  let dims := chars "GCMRSNPQ" in
  (in_channels_per_group <- floordiv (c self) (g self) ;;
   out_channels_per_group <- floordiv (m self) (g self) ;;
   p_ <- p self ;;
   q_ <- q self ;;
   Ok (YDict [
     ("shape", YDict [
        ("name", YStr (name self));
        ("dimensions", YList (map YStr dims));
        ("coefficients", YList [
           YDict [("name", YStr "Cgroup");
                  ("default", YInt in_channels_per_group)];
           YDict [("name", YStr "Mgroup");
                  ("default", YInt out_channels_per_group)];
           YDict [("name", YStr "Hstride"); ("default", YInt (h_stride self))];
           YDict [("name", YStr "Wstride"); ("default", YInt (w_stride self))];
           YDict [("name", YStr "Nop"); ("default", YInt 1)]]);
        ("data-spaces", YList [
           YDict [("name", YStr "Weights");
                  ("projection", YList [
                     YList [YList [YStr "G"]];
                     YList [YList [YStr "C"]];
                     YList [YList [YStr "M"]];
                     YList [YList [YStr "R"]];
                     YList [YList [YStr "S"]]])];
           YDict [("name", YStr "Inputs");
                  ("projection", YList [
                     YList [YList [YStr "N"]];
                     YList [term "G" "Cgroup"; term "C" "Nop"];
                     YList [term "R" "Nop"; term "P" "Hstride"];
                     YList [term "S" "Nop"; term "Q" "Wstride"]])];
           YDict [("name", YStr "Outputs");
                  ("projection", YList [
                     YList [YList [YStr "N"]];
                     YList [term "G" "Mgroup"; term "M" "Nop"];
                     YList [YList [YStr "P"]];
                     YList [YList [YStr "Q"]]]);
                  ("read-write", YBool true)]])]);
     ("instance", YDict [
        ("G", YInt (g self));
        ("C", YInt in_channels_per_group);
        ("M", YInt out_channels_per_group);
        ("N", YInt (n self));
        ("R", YInt (r self));
        ("S", YInt (s self));
        ("P", YInt p_);
        ("Q", YInt q_)])]))%py.

Definition to_fused_yaml (self : t) : result yaml :=
  let dims := chars "GCMRSNPQ" in
  (in_channels_per_group <- floordiv (c self) (g self) ;;
   out_channels_per_group <- floordiv (m self) (g self) ;;
   p_ <- p self ;;
   q_ <- q self ;;
   Ok (YDict [
     ("shape", YDict [
        ("name", YStr (name self));
        ("dimensions", YList (map YStr dims));
        ("coefficients", YList [
           YDict [("name", YStr "Cgroup");
                  ("default", YInt in_channels_per_group)];
           YDict [("name", YStr "Mgroup");
                  ("default", YInt out_channels_per_group)];
           YDict [("name", YStr "Hstride"); ("default", YInt (h_stride self))];
           YDict [("name", YStr "Wstride"); ("default", YInt (w_stride self))];
           YDict [("name", YStr "Nop"); ("default", YInt 1)]]);
        ("data-spaces", YList [
           YDict [("name", YStr "Weights");
                  ("projection", YList [
                     YList [YList [YStr "G"]];
                     YList [YList [YStr "C"]];
                     YList [YList [YStr "M"]];
                     YList [YList [YStr "R"]];
                     YList [YList [YStr "S"]]])];
           YDict [("name", YStr "Inputs");
                  ("projection", YList [
                     YList [YList [YStr "N"]];
                     YList [term "G" "Cgroup"; term "C" "Nop"];
                     YList [term "R" "Nop"; term "P" "Hstride"];
                     YList [term "S" "Nop"; term "Q" "Wstride"]])];
           YDict [("name", YStr "Outputs");
                  ("projection", YList [
                     YList [YList [YStr "N"]];
                     YList [term "G" "Mgroup"; term "M" "Nop"];
                     YList [YList [YStr "P"]];
                     YList [YList [YStr "Q"]]]);
                  ("read-write", YBool true)]])]);
     ("instance", YDict [
        ("G", YInt (g self));
        ("C", YInt in_channels_per_group);
        ("M", YInt out_channels_per_group);
        ("N", YInt (n self));
        ("R", YInt (r self));
        ("S", YInt (s self));
        ("P", YInt p_);
        ("Q", YInt q_)])]))%py.

End ConvLayerDescription.

Module ConvTransposeLayerDescription.

Record t : Type := mk {
  name : string;
  g : Z; m : Z; w : Z; h : Z; c : Z; n : Z; s : Z; r : Z;
  w_pad : Z; h_pad : Z; w_stride : Z; h_stride : Z;
  ifmap_name : string; filter_name : string; ofmap_name : string
}.

Definition with_name (self : t) (v : string) : t :=
  mk v (g self) (m self) (w self) (h self) (c self) (n self) (s self)
     (r self) (w_pad self) (h_pad self) (w_stride self) (h_stride self)
     (ifmap_name self) (filter_name self) (ofmap_name self).

(** [int] of an integer is that integer. *)
Definition q (self : t) : Z :=
  (w self - 1) * w_stride self - 2 * w_pad self + 1 * (s self - 1) + 0 + 1.

Definition p (self : t) : Z :=
  (h self - 1) * h_stride self - 2 * h_pad self + 1 * (r self - 1) + 0 + 1.

(** The document both translations of this class build, from the stored
    fields and the two channel counts. *)
Definition config (self : t) (in_channels_per_group out_channels_per_group : Z)
  : yaml :=
  let dims := chars "GCMRSNPQ" in
  YDict [
    ("shape", YDict [
       ("name", YStr (name self));
       ("dimensions", YList (map YStr dims));
       ("coefficients", YList [
          YDict [("name", YStr "Cgroup");
                 ("default", YInt in_channels_per_group)];
          YDict [("name", YStr "Mgroup");
                 ("default", YInt out_channels_per_group)];
          YDict [("name", YStr "Hstride"); ("default", YInt (h_stride self))];
          YDict [("name", YStr "Wstride"); ("default", YInt (w_stride self))];
          YDict [("name", YStr "Nop"); ("default", YInt 1)]]);
       ("data-spaces", YList [
          YDict [("name", YStr "Weights");
                 ("projection", YList [
                    YList [YList [YStr "G"]];
                    YList [YList [YStr "C"]];
                    YList [YList [YStr "M"]];
                    YList [YList [YStr "R"]];
                    YList [YList [YStr "S"]]])];
          YDict [("name", YStr "Inputs");
                 ("projection", YList [
                    YList [YList [YStr "N"]];
                    YList [term "G" "Cgroup"; term "C" "Nop"];
                    YList [YList [YStr "P"]];
                    YList [YList [YStr "Q"]]])];
          YDict [("name", YStr "Outputs");
                 ("projection", YList [
                    YList [YList [YStr "N"]];
                    YList [term "G" "Mgroup"; term "M" "Nop"];
                    YList [term "R" "Nop"; term "P" "Hstride"];
                    YList [term "S" "Nop"; term "Q" "Wstride"]]);
                 ("read-write", YBool true)]])]);
    ("instance", YDict [
       ("G", YInt (g self));
       ("C", YInt in_channels_per_group);
       ("M", YInt out_channels_per_group);
       ("N", YInt (n self));
       ("R", YInt (r self));
       ("S", YInt (s self));
       ("P", YInt (h self));
       ("Q", YInt (w self))])].

Definition to_yaml : M t yaml :=
  (self <- get ;;
   in_channels_per_group <- lift (floordiv (c self) (g self)) ;;
   out_channels_per_group <- lift (floordiv (m self) (g self)) ;;
   modify (fun d => with_name d (name d ++ "_transpose")%string) ;;
   self <- get ;;
   ret (config self in_channels_per_group out_channels_per_group))%pym.

Definition to_fused_yaml : M t yaml :=
  (self <- get ;;
   in_channels_per_group <- lift (floordiv (c self) (g self)) ;;
   out_channels_per_group <- lift (floordiv (m self) (g self)) ;;
   modify (fun d => with_name d (name d ++ "_transpose")%string) ;;
   self <- get ;;
   ret (config self in_channels_per_group out_channels_per_group))%pym.

End ConvTransposeLayerDescription.

Module MaxPoolLayerDescription.

Definition problem_template : string := "pool".

Record t : Type := mk {
  name : string;
  w : Z; h : Z; c : Z; n : Z; s : Z; r : Z;
  w_pad : Z; h_pad : Z; w_stride : Z; h_stride : Z;
  ifmap_name : string; ofmap_name : string
}.

Definition q (self : t) : result Z :=
  out_extent (w self) (s self) (w_pad self) (w_stride self).

Definition p (self : t) : result Z :=
  out_extent (h self) (r self) (h_pad self) (h_stride self).

Section Templates.
Variable load : string -> result yaml.

(** The right-hand side of each assignment is evaluated before the
    dictionary it is stored in is looked up. *)
Definition to_yaml (self : t) : result yaml :=
  let inst := ["problem"; "instance"] in
  (config <- LayerDescription.to_yaml load problem_template
               (YStr (name self)) ;;
   config <- set_path config inst "R" (YInt (r self)) ;;
   config <- set_path config inst "S" (YInt (s self)) ;;
   p_ <- p self ;;
   config <- set_path config inst "P" (YInt p_) ;;
   q_ <- q self ;;
   config <- set_path config inst "Q" (YInt q_) ;;
   config <- set_path config inst "C" (YInt (c self)) ;;
   config <- set_path config inst "N" (YInt (n self)) ;;
   config <- set_path config inst "Wstride" (YInt (w_stride self)) ;;
   set_path config inst "Hstride" (YInt (h_stride self)))%py.

(** [super().to_fused_yaml()]: the base class has no such method. *)
Definition to_fused_yaml (self : t) : result yaml :=
  Raise AttributeError.

End Templates.
End MaxPoolLayerDescription.

Module MatrixMatrixMultiplyLayerDescription.

Definition problem_template : string := "convolution".

Record t : Type := mk {
  name : option string;
  m : Z; n : Z; k : Z; batch_size : Z
}.

Definition name_value (self : t) : yaml :=
  match name self with
  | Some s => YStr s
  | None => YNone
  end.

Section Templates.
Variable load : string -> result yaml.

Definition to_yaml (self : t) : result yaml :=
  let inst := ["problem"; "instance"] in
  (config <- LayerDescription.to_yaml load problem_template
               (name_value self) ;;
   config <- set_path config inst "R" (YInt 1) ;;
   config <- set_path config inst "S" (YInt (k self)) ;;
   config <- set_path config inst "P" (YInt (m self)) ;;
   config <- set_path config inst "Q" (YInt 1) ;;
   config <- set_path config inst "C" (YInt 1) ;;
   config <- set_path config inst "M" (YInt (n self)) ;;
   config <- set_path config inst "N" (YInt (batch_size self)) ;;
   config <- set_path config inst "Wstride" (YInt 1) ;;
   config <- set_path config inst "Hstride" (YInt 1) ;;
   set_path config ["problem"; "shape"] "name" (name_value self))%py.

End Templates.
End MatrixMatrixMultiplyLayerDescription.

Module BinaryElementwiseFuncDescription.

Definition problem_template : string := "binary_elementwise".

Record t : Type := mk {
  name : string;
  ifmap1_shape : list Z;
  ifmap2_shape : list Z;
  ofmap_shape : list Z;
  ifmap1_name : string;
  ifmap2_name : string;
  ofmap_name : string
}.

Definition with_name (self : t) (v : string) : t :=
  mk v (ifmap1_shape self) (ifmap2_shape self) (ofmap_shape self)
     (ifmap1_name self) (ifmap2_name self) (ofmap_name self).

Definition with_ifmap1_shape (self : t) (v : list Z) : t :=
  mk (name self) v (ifmap2_shape self) (ofmap_shape self)
     (ifmap1_name self) (ifmap2_name self) (ofmap_name self).

Definition with_ifmap2_shape (self : t) (v : list Z) : t :=
  mk (name self) (ifmap1_shape self) v (ofmap_shape self)
     (ifmap1_name self) (ifmap2_name self) (ofmap_name self).

(** [tuple([1]*n_missing_dims + list(shape))] with
    [n_missing_dims = len(ofmap_shape) - len(shape)]. *)
Definition padded (ofmap_shape shape : list Z) : list Z :=
  repeat 1 (Z.to_nat (len ofmap_shape - len shape)) ++ shape.

(** The two padding assignments and the two rank assertions that open
    both translations. *)
Definition pad_and_check : M t unit :=
  (self <- get ;;
   when (len (ifmap1_shape self) <? len (ofmap_shape self))
     (modify (fun d =>
        with_ifmap1_shape d (padded (ofmap_shape d) (ifmap1_shape d)))) ;;
   self <- get ;;
   when (len (ifmap2_shape self) <? len (ofmap_shape self))
     (modify (fun d =>
        with_ifmap2_shape d (padded (ofmap_shape d) (ifmap2_shape d)))) ;;
   self <- get ;;
   assert (len (ifmap1_shape self) =? len (ofmap_shape self)) ;;
   assert (len (ifmap2_shape self) =? len (ofmap_shape self)))%pym.

(** [bounds[dim_name] = dim_size] over [zip(dims, ifmap1_shape)], then the
    document. *)
Definition config (self : t) : yaml :=
  let dims := uppercase_prefix (len (ofmap_shape self)) in
  let bounds := dict_of (combine dims (map YInt (ifmap1_shape self))) in
  YDict [
    ("shape", YDict [
       ("name", YStr (name self));
       ("dimensions", YList (map YStr dims));
       ("data-spaces", YList [
          YDict [("name", YStr "Weights");
                 ("projection", YList (map proj dims))];
          YDict [("name", YStr "Inputs");
                 ("projection", YList (map proj dims))];
          YDict [("name", YStr "Outputs");
                 ("projection", YList (map proj dims));
                 ("read-write", YBool true)]])]);
    ("instance", YDict bounds)].

Definition to_yaml : M t yaml :=
  (pad_and_check ;;
   self <- get ;;
   ifmap_prod <- lift (product (ifmap1_shape self)) ;;
   when (ifmap_prod =? 1)
     (modify (fun d => with_name d (name d ++ "_exhaustive")%string)) ;;
   self <- get ;;
   ret (config self))%pym.

Definition to_fused_yaml : M t yaml :=
  (pad_and_check ;;
   self <- get ;;
   ret (config self))%pym.

End BinaryElementwiseFuncDescription.

Module MatmulFuncDescription.

Definition problem_template : string := "matmul".

Record t : Type := mk {
  name : string;
  m : Z; n : Z; k : Z;
  ifmap1_name : string;
  ifmap2_name : string;
  ofmap_name : string;
  extra_dims : option (list Z)
}.

Definition with_extra_dims (self : t) (v : option (list Z)) : t :=
  mk (name self) (m self) (n self) (k self)
     (ifmap1_name self) (ifmap2_name self) (ofmap_name self) v.

Section Templates.
Variable load : string -> result yaml.

(** The body of the loop over the data-spaces of the template. *)
Definition rename_and_extend (self : t) (dims : list string)
    (dspace : yaml) : result yaml :=
  (nm <- getitem dspace "name" ;;
   dspace <-
     (if eq_str nm "Input1" then
        setitem dspace "name" (YStr (ifmap1_name self))
      else if eq_str nm "Input2" then
        setitem dspace "name" (YStr (ifmap2_name self))
      else if eq_str nm "Outputs" then
        setitem dspace "name" (YStr (ofmap_name self))
      else Ok dspace) ;;
   let proj_dims := map proj dims in
   old <- getitem dspace "projection" ;;
   new <- list_add proj_dims old ;;
   setitem dspace "projection" new)%py.

Definition to_yaml : M t yaml :=
  let inst := ["problem"; "instance"] in
  (self <- get ;;
   config <- lift (LayerDescription.to_yaml load problem_template
                     (YStr (name self))) ;;
   dims <- match extra_dims self with
           | Some ed => ret (uppercase_prefix (len ed))
           | None =>
               modify (fun d => with_extra_dims d (Some [])) ;;
               ret []
           end ;;
   self <- get ;;
   config <- lift (for_each_at config ["problem"; "shape"] "data-spaces"
                     (rename_and_extend self dims)) ;;
   config <- lift (set_path config inst "K" (YInt (k self))) ;;
   config <- lift (set_path config inst "M" (YInt (m self))) ;;
   config <- lift (set_path config inst "N" (YInt (n self))) ;;
   config <- lift (set_path config ["problem"; "shape"] "name"
                     (YStr (name self))) ;;
   lift (foldM (fun cfg ds => set_path cfg inst (fst ds) (YInt (snd ds)))
               config
               (combine dims (match extra_dims self with
                              | Some ed => ed
                              | None => []
                              end))))%pym.

End Templates.
End MatmulFuncDescription.

Module SoftmaxFuncDescription.

Definition problem_template : string := "softmax".

Record t : Type := mk {
  name : string;
  ifmap_shape : list Z;
  ofmap_shape : list Z;
  ifmap_name : string;
  ofmap_name : string;
  softmax_dim : Z
}.

Section Templates.
Variable load : string -> result yaml.

(** The body of the loop over the data-spaces of the template. *)
Definition rename_and_project (self : t) (dims : list string)
    (dspace : yaml) : result yaml :=
  (nm <- getitem dspace "name" ;;
   if eq_str nm "Input" then
     dspace <- setitem dspace "name" (YStr (ifmap_name self)) ;;
     setitem dspace "projection" (YList (map proj (slice_to dims (-1))))
   else if eq_str nm "Output" then
     dspace <- setitem dspace "name" (YStr (ofmap_name self)) ;;
     dspace <- setitem dspace "projection"
                 (YList (map proj (slice_to dims (-1)))) ;;
     last <- index dims (-1) ;;
     projection <- getitem dspace "projection" ;;
     match projection with
     | YList l =>
         l' <- Py.setitem l (softmax_dim self) (proj last) ;;
         setitem dspace "projection" (YList l')
     | _ => Raise TypeError
     end
   else Ok dspace)%py.

Definition to_yaml (self : t) : result yaml :=
  (config <- LayerDescription.to_yaml load problem_template
               (YStr (name self)) ;;
   let dims := uppercase_prefix (len (ifmap_shape self) + 1) in
   config <- for_each_at config ["problem"; "shape"] "data-spaces"
               (rename_and_project self dims) ;;
   let instance :=
     dict_of (combine (slice_to dims (-1)) (map YInt (ifmap_shape self))) in
   size <- index (ofmap_shape self) (softmax_dim self) ;;
   last <- index dims (-1) ;;
   let instance := dict_set instance last (YInt size) in
   set_path config ["problem"] "instance" (YDict instance))%py.

End Templates.
End SoftmaxFuncDescription.

Module ViewFuncDescription.

Definition problem_template : string := "view".

Record t : Type := mk {
  name : string;
  ifmap_shape : list Z;
  ofmap_shape : list Z;
  ifmap_name : string;
  ofmap_name : string
}.

Definition to_yaml (self : t) : result yaml :=
  Raise NotImplementedError.

(** [f'0 <= {dim_name} < {dim_size}'] *)
Definition bound (ds : string * Z) : string :=
  ("0 <= " ++ fst ds ++ " < " ++ str (snd ds))%string.

(** One round of the loop that linearizes the output index: the term
    [f'{dim}*{cur_size}'] is appended, then [cur_size *= dim_size]. *)
Definition linearize_step (acc : list string * Z) (ds : string * Z)
  : list string * Z :=
  (fst acc ++ [(fst ds ++ "*" ++ str (snd acc))%string], snd acc * snd ds).

(** One round of the loop over the reversed input shape. *)
Definition ifmap_step (linearized_ofmaps : string) (acc : list string * Z)
    (dim_size : Z) : list string * Z :=
  (fst acc ++
     [("floor(" ++ linearized_ofmaps ++ "/" ++ str (snd acc) ++ ")%"
        ++ str dim_size)%string],
   snd acc * dim_size).

Definition to_fused_yaml (self : t) : result yaml :=
  (pi <- product (ifmap_shape self) ;;
   po <- product (ofmap_shape self) ;;
   if negb (pi =? po) then Raise AssertionError else
   let n_ofmap_dims := len (ofmap_shape self) in
   let ofmap_dims := uppercase_prefix n_ofmap_dims in
   let bounds := map bound (combine ofmap_dims (ofmap_shape self)) in
   let terms :=
     fst (fold_left linearize_step
            (rev (combine ofmap_dims (ofmap_shape self))) ([], 1)) in
   let linearized_ofmaps := join " + " terms in
   let ifmap_terms :=
     rev (fst (fold_left (ifmap_step linearized_ofmaps)
                 (rev (ifmap_shape self)) ([], 1))) in
   Ok (YDict [
     ("shape", YDict [
        ("name", YStr (name self));
        ("dimensions", YList (map YStr ofmap_dims));
        ("data-spaces", YList [
           YDict [("name", YStr (ifmap_name self));
                  ("projection",
                   YStr ("[ " ++ join ", " ifmap_terms ++ " ]")%string)];
           YDict [("name", YStr (ofmap_name self));
                  ("projection",
                   YStr ("[ " ++ join ", " ofmap_dims ++ " ]")%string);
                  ("read-write", YBool true)]])]);
     ("instance", YStr (join " and " bounds))]))%py.

End ViewFuncDescription.

(* ================================================================== *)
(** * converter.py *)
(* ================================================================== *)

Module Converter.

(** A tensor is seen through its [shape] only. *)
Record Tensor : Type := mkTensor { shape : list Z }.

(** The handler registered for [nn.AdaptiveAvgPool2d]; the module itself is
    not inspected. *)
Definition generate_description_AdaptiveAvgPool2d
    (input output : Tensor) (name ifmap_name : string)
  : result MaxPoolLayerDescription.t :=
  (in_w <- index (shape input) (-1) ;;
   out_w <- index (shape output) (-1) ;;
   stride_w <- floordiv in_w out_w ;;
   in_h <- index (shape input) (-2) ;;
   out_h <- index (shape output) (-2) ;;
   stride_h <- floordiv in_h out_h ;;
   in_w' <- index (shape input) (-1) ;;
   out_w' <- index (shape output) (-1) ;;
   let kernel_w := in_w' - (out_w' - 1) * stride_w in
   in_h' <- index (shape input) (-2) ;;
   out_h' <- index (shape output) (-2) ;;
   let kernel_h := in_h' - (out_h' - 1) * stride_h in
   w <- index (shape input) 3 ;;
   h <- index (shape input) 2 ;;
   c <- index (shape input) 1 ;;
   n <- index (shape input) 0 ;;
   Ok {| MaxPoolLayerDescription.name := name;
         MaxPoolLayerDescription.w := w;
         MaxPoolLayerDescription.h := h;
         MaxPoolLayerDescription.c := c;
         MaxPoolLayerDescription.n := n;
         MaxPoolLayerDescription.s := kernel_w;
         MaxPoolLayerDescription.r := kernel_h;
         MaxPoolLayerDescription.w_pad := 0;
         MaxPoolLayerDescription.h_pad := 0;
         MaxPoolLayerDescription.w_stride := stride_w;
         MaxPoolLayerDescription.h_stride := stride_h;
         MaxPoolLayerDescription.ifmap_name := ifmap_name;
         MaxPoolLayerDescription.ofmap_name := (name ++ "_out")%string |})%py.

Definition generate_matmul_func
    (input1 input2 output : Tensor) (name input1_name input2_name : string)
  : result MatmulFuncDescription.t :=
  if (len (shape input1) =? 2) && (len (shape input2) =? 2) then
    (m <- index (shape input1) 0 ;;
     n <- index (shape input2) 1 ;;
     k <- index (shape input1) 1 ;;
     Ok {| MatmulFuncDescription.name := name;
           MatmulFuncDescription.m := m;
           MatmulFuncDescription.n := n;
           MatmulFuncDescription.k := k;
           MatmulFuncDescription.ifmap1_name := input1_name;
           MatmulFuncDescription.ifmap2_name := input2_name;
           MatmulFuncDescription.ofmap_name := (name ++ "_out")%string;
           MatmulFuncDescription.extra_dims := Some [] |})%py
  else if (2 <? len (shape input1))
          && (if list_eq_dec Z.eq_dec (slice_to (shape input1) (-2))
                                      (slice_to (shape input2) (-2))
              then true else false) then
    (m <- index (shape input1) 0 ;;
     n <- index (shape input2) 1 ;;
     k <- index (shape input1) 1 ;;
     Ok {| MatmulFuncDescription.name := name;
           MatmulFuncDescription.m := m;
           MatmulFuncDescription.n := n;
           MatmulFuncDescription.k := k;
           MatmulFuncDescription.ifmap1_name := input1_name;
           MatmulFuncDescription.ifmap2_name := input2_name;
           MatmulFuncDescription.ofmap_name := (name ++ "_out")%string;
           MatmulFuncDescription.extra_dims :=
             Some (slice_to (shape input1) (-2)) |})%py
  else Raise NotImplementedError.

(** ** The modules the forward hooks receive

    A module is seen through the attributes its handler reads. *)

(** [nn.ConvTranspose2d]: [groups] and the pairs [kernel_size],
    [padding] and [stride]. *)
Module ConvTranspose2d.
Record t : Type := mk {
  groups : Z;
  kernel_size : list Z;
  padding : list Z;
  stride : list Z
}.
End ConvTranspose2d.

(** An attribute of [nn.MaxPool2d]: an [int] or a pair. *)
Inductive int_or_tuple : Type :=
| IntArg (n : Z)
| TupleArg (t : list Z).

Module MaxPool2d.
Record t : Type := mk {
  kernel_size : int_or_tuple;
  stride : int_or_tuple;
  padding : int_or_tuple
}.
End MaxPool2d.

Module Linear.
Record t : Type := mk {
  in_features : Z;
  out_features : Z
}.
End Linear.

(** [(x, x)] if [isinstance(x, int)], else [x]. *)
Definition as_pair (x : int_or_tuple) : list Z :=
  match x with
  | IntArg n => [n; n]
  | TupleArg t => t
  end.

(** The handler registered for [nn.ConvTranspose2d]: the layer is
    described as a convolution over the extents [new_h], [new_w]. *)
Definition generate_description_ConvTranspose2d
    (module : ConvTranspose2d.t) (input output : Tensor)
    (name ifmap_name : string)
  : result ConvLayerDescription.t :=
  (in_h <- index (shape input) 2 ;;
   stride_h <- index (ConvTranspose2d.stride module) 0 ;;
   pad_h <- index (ConvTranspose2d.padding module) 0 ;;
   kernel_h <- index (ConvTranspose2d.kernel_size module) 0 ;;
   let new_h := (in_h - 1) * stride_h - 2 * pad_h + 1 * (kernel_h - 1)
                + 0 + 1 in
   in_w <- index (shape input) 3 ;;
   stride_w <- index (ConvTranspose2d.stride module) 1 ;;
   pad_w <- index (ConvTranspose2d.padding module) 1 ;;
   kernel_w <- index (ConvTranspose2d.kernel_size module) 1 ;;
   let new_w := (in_w - 1) * stride_w - 2 * pad_w + 1 * (kernel_w - 1)
                + 0 + 1 in
   m <- index (shape output) 1 ;;
   c <- index (shape input) 1 ;;
   n <- index (shape input) 0 ;;
   s <- index (ConvTranspose2d.kernel_size module) 1 ;;
   r <- index (ConvTranspose2d.kernel_size module) 0 ;;
   w_pad <- index (ConvTranspose2d.padding module) 1 ;;
   h_pad <- index (ConvTranspose2d.padding module) 0 ;;
   w_stride <- index (ConvTranspose2d.stride module) 1 ;;
   h_stride <- index (ConvTranspose2d.stride module) 0 ;;
   Ok (ConvLayerDescription.mk name (ConvTranspose2d.groups module) m
         new_w new_h c n s r w_pad h_pad w_stride h_stride ifmap_name
         (name ++ "_filter")%string (name ++ "_out")%string))%py.

(** The handler registered for [nn.MaxPool2d]. *)
Definition generate_description_MaxPool2d
    (module : MaxPool2d.t) (input output : Tensor) (name ifmap_name : string)
  : result MaxPoolLayerDescription.t :=
  let kernel_size := as_pair (MaxPool2d.kernel_size module) in
  let stride := as_pair (MaxPool2d.stride module) in
  let padding := as_pair (MaxPool2d.padding module) in
  (w <- index (shape input) 3 ;;
   h <- index (shape input) 2 ;;
   c <- index (shape input) 1 ;;
   s <- index kernel_size 1 ;;
   r <- index kernel_size 0 ;;
   w_stride <- index stride 1 ;;
   h_stride <- index stride 0 ;;
   w_pad <- index padding 1 ;;
   h_pad <- index padding 0 ;;
   n <- index (shape input) 0 ;;
   Ok {| MaxPoolLayerDescription.name := name;
         MaxPoolLayerDescription.w := w;
         MaxPoolLayerDescription.h := h;
         MaxPoolLayerDescription.c := c;
         MaxPoolLayerDescription.n := n;
         MaxPoolLayerDescription.s := s;
         MaxPoolLayerDescription.r := r;
         MaxPoolLayerDescription.w_pad := w_pad;
         MaxPoolLayerDescription.h_pad := h_pad;
         MaxPoolLayerDescription.w_stride := w_stride;
         MaxPoolLayerDescription.h_stride := h_stride;
         MaxPoolLayerDescription.ifmap_name := ifmap_name;
         MaxPoolLayerDescription.ofmap_name := (name ++ "_out")%string |})%py.

(** The handler registered for [nn.Linear]. *)
Definition generate_description_Linear
    (module : Linear.t) (input output : Tensor) (name ifmap_name : string)
  : result ConvLayerDescription.t :=
  (n <- index (shape input) 0 ;;
   Ok (ConvLayerDescription.mk name 1 (Linear.out_features module) 1 1
         (Linear.in_features module) n 1 1 0 0 1 1 ifmap_name
         (name ++ "_filter")%string (name ++ "_out")%string))%py.

End Converter.

(* ================================================================== *)
(** * The translation call over all kinds of description *)
(* ================================================================== *)

Inductive description : Type :=
| Conv (d : ConvLayerDescription.t)
| ConvTranspose (d : ConvTransposeLayerDescription.t)
| MaxPool (d : MaxPoolLayerDescription.t)
| MatrixMatrixMultiply (d : MatrixMatrixMultiplyLayerDescription.t)
| BinaryElementwise (d : BinaryElementwiseFuncDescription.t)
| Matmul (d : MatmulFuncDescription.t)
| Softmax (d : SoftmaxFuncDescription.t)
| View (d : ViewFuncDescription.t).

Inductive mode : Type := Legacy | Fused.

(** A method that assigns to no field of [self]. *)
Definition pure_method {S A} (f : S -> result A) : M S A :=
  fun s => (s, f s).

(** Running a method of one class on a description of that class. *)
Definition on {S} (inj : S -> description) (m : M S yaml) (d : S)
  : description * result yaml :=
  let (d', r) := m d in (inj d', r).

Section Translate.
Variable load : string -> result yaml.

(** [d.to_yaml()] or [d.to_fused_yaml()]; a class that does not define
    the method and inherits none raises [AttributeError]. *)
Definition translate (md : mode) (d : description)
  : description * result yaml :=
  match md, d with
  | Legacy, Conv c =>
      on Conv (pure_method ConvLayerDescription.to_yaml) c
  | Fused, Conv c =>
      on Conv (pure_method ConvLayerDescription.to_fused_yaml) c
  | Legacy, ConvTranspose c =>
      on ConvTranspose ConvTransposeLayerDescription.to_yaml c
  | Fused, ConvTranspose c =>
      on ConvTranspose ConvTransposeLayerDescription.to_fused_yaml c
  | Legacy, MaxPool c =>
      on MaxPool (pure_method (MaxPoolLayerDescription.to_yaml load)) c
  | Fused, MaxPool c =>
      on MaxPool (pure_method MaxPoolLayerDescription.to_fused_yaml) c
  | Legacy, MatrixMatrixMultiply c =>
      on MatrixMatrixMultiply
         (pure_method (MatrixMatrixMultiplyLayerDescription.to_yaml load)) c
  | Fused, MatrixMatrixMultiply c =>
      on MatrixMatrixMultiply (raise AttributeError) c
  | Legacy, BinaryElementwise c =>
      on BinaryElementwise BinaryElementwiseFuncDescription.to_yaml c
  | Fused, BinaryElementwise c =>
      on BinaryElementwise BinaryElementwiseFuncDescription.to_fused_yaml c
  | Legacy, Matmul c =>
      on Matmul (MatmulFuncDescription.to_yaml load) c
  | Fused, Matmul c =>
      on Matmul (raise AttributeError) c
  | Legacy, Softmax c =>
      on Softmax (pure_method (SoftmaxFuncDescription.to_yaml load)) c
  | Fused, Softmax c =>
      on Softmax (raise AttributeError) c
  | Legacy, View c =>
      on View (pure_method ViewFuncDescription.to_yaml) c
  | Fused, View c =>
      on View (pure_method ViewFuncDescription.to_fused_yaml) c
  end.

End Translate.

(* ================================================================== *)
(** * Notions the properties are stated with *)
(* ================================================================== *)

(** The number of elements of a tensor of the given shape. *)
Definition element_count (shape : list Z) : Z := fold_right Z.mul 1 shape.

(** The leading ("batch") dimensions of an operand: all but the last two. *)
Definition leading_dims (shape : list Z) : list Z :=
  firstn (List.length shape - 2) shape.

(** The row-major stride of every axis of a shape: the number of elements
    of the axes after it. *)
Fixpoint row_major_strides (shape : list Z) : list Z :=
  match shape with
  | [] => []
  | _ :: rest => element_count rest :: row_major_strides rest
  end.

(** ** Paths in documents *)

(** Two paths part ways: at some position both have a key and the keys
    differ. *)
Fixpoint diverge (p q : list string) : bool :=
  match p, q with
  | a :: p', b :: q' => if String.eqb a b then diverge p' q' else true
  | _, _ => false
  end.

(** ** Documents built from a template *)

(** The bound a template-based document gives to a dimension. *)
Definition instance_bound (doc : yaml) (dim : string) : result yaml :=
  get_path doc ["problem"; "instance"; dim].

(** The name a template-based document carries. *)
Definition problem_name (doc : yaml) : result yaml :=
  get_path doc ["problem"; "shape"; "name"].

(** The resource a template name stands for. *)
Definition template_path (problem_template : string) : string :=
  ("utils/" ++ problem_template ++ ".yaml")%string.

(** Modelled from the spec: a packaged template, a data file that is not
    among the sources, reduced to the regions every translation looks up:
    a shape with a data-space for each operand, and an instance region. *)
Definition bare_template : yaml :=
  YDict [("problem", YDict [
    ("shape", YDict [
       ("name", YStr "template");
       ("data-spaces", YList [
          YDict [("name", YStr "Input"); ("projection", YList [])];
          YDict [("name", YStr "Output"); ("projection", YList []);
                 ("read-write", YBool true)]])]);
    ("instance", YDict [("Z", YInt 0)])])].

(** A package that holds this template under every name. *)
Definition bare_templates (path : string) : result yaml := Ok bare_template.

(** ** Convolution *)

(** A convolution description, the fields in the order of the class. *)
Definition conv (name : string)
    (g m w h c n s r w_pad h_pad w_stride h_stride : Z)
    (ifmap_name filter_name ofmap_name : string) : ConvLayerDescription.t :=
  ConvLayerDescription.mk name g m w h c n s r w_pad h_pad w_stride h_stride
    ifmap_name filter_name ofmap_name.

(** The [instance] region of a document. *)
Definition instance_of (doc : yaml) : result yaml := getitem doc "instance".

(** The [shape] region of a document. *)
Definition shape_of (doc : yaml) : result yaml := getitem doc "shape".

(** The output-extent formula as the specification words it, for a
    description with positive strides and non-negative numerators. *)
Definition floor_extent_formula (d : ConvLayerDescription.t) : Prop :=
  let (_, g, m, w, h, c, n, s, r, w_pad, h_pad, w_stride, h_stride, _, _, _)
    := d in
  0 < w_stride -> 0 < h_stride ->
  0 <= w - s + 2 * w_pad -> 0 <= h - r + 2 * h_pad ->
  ConvLayerDescription.q d = Ok ((w - s + 2 * w_pad) / w_stride + 1) /\
  ConvLayerDescription.p d = Ok ((h - r + 2 * h_pad) / h_stride + 1).

(** A convolution over an input [3 * 2 ^ 53] wide, with kernel 3, padding 1
    and stride 3: the quotient [(3 * 2 ^ 53 - 1) / 3] is not a binary64
    value and rounds up to [2 ^ 53]. *)
Definition wide_conv : ConvLayerDescription.t :=
  conv "conv" 1 8 27021597764222976 32 3 1 3 3 1 1 3 1 "in" "filter" "out".

(** ** Reshape *)

(** The text the fused translation emits for the linearized output index:
    one term [dim*stride] for every output dimension, the last dimension
    first, joined by [" + "]. *)
Definition emitted_linearization (dims : list string) (shape : list Z)
  : string :=
  join " + "
    (rev (map (fun ds => (fst ds ++ "*" ++ str (snd ds))%string)
              (combine dims (row_major_strides shape)))).

(** The text emitted for one input axis: [L] between ["floor("] and
    ["/stride)%size"], as it is, with nothing around it. *)
Definition emitted_coordinate (L : string) (stride size : Z) : string :=
  ("floor(" ++ L ++ "/" ++ str stride ++ ")%" ++ str size)%string.

(** The texts emitted for the input axes, with the row-major stride and
    the size of every axis. *)
Definition emitted_coordinates (dims : list string)
    (ifmap_shape ofmap_shape : list Z) : list string :=
  map (fun ss => emitted_coordinate (emitted_linearization dims ofmap_shape)
                                    (fst ss) (snd ss))
      (combine (row_major_strides ifmap_shape) ifmap_shape).

(** The [dimensions] of a document. *)
Definition dimensions_of (doc : yaml) : result yaml :=
  get_path doc ["shape"; "dimensions"].

(** The projection of the first data-space of a document. *)
Definition input_projection_of (doc : yaml) : result yaml :=
  (spaces <- get_path doc ["shape"; "data-spaces"] ;;
   items <- iter spaces ;;
   first <- index items 0 ;;
   getitem first "projection")%py.

(** *** What a projection denotes *)

Module Projection.

(** The expressions a projection of the fused translation is written
    with: dimension names, integers, [+], [*], [/], [%] and [floor]. *)

Inductive expr : Type :=
| Var (x : string)
| Const (n : Z)
| Add (a b : expr)
| Mul (a b : expr)
| Div (a b : expr)
| Mod (a b : expr)
| Floor (a : expr).

(** The lexical units of a projection. *)
Inductive token : Type :=
| TNum (n : Z)
| TName (x : string)
| TPlus | TMinus | TStar | TSlash | TPercent
| TOpen | TClose | TComma | TOpenBracket | TCloseBracket.

(** The token being read: nothing, a number or a name. *)
Inductive pending : Type :=
| Nothing
| Digits (n : Z)
| Letters (x : string).

(** The tokens a pending number or name ends as. *)
Definition flush (p : pending) : list token :=
  match p with
  | Nothing => []
  | Digits n => [TNum n]
  | Letters x => [TName x]
  end.

Definition digit_of (c : ascii) : option Z :=
  let n := Z.of_nat (nat_of_ascii c) in
  if (48 <=? n) && (n <=? 57) then Some (n - 48) else None.

Definition is_letter (c : ascii) : bool :=
  let n := Z.of_nat (nat_of_ascii c) in
  ((65 <=? n) && (n <=? 90)) || ((97 <=? n) && (n <=? 122)) || (n =? 95).

Definition symbol_of (c : ascii) : option token :=
  match c with
  | "+"%char => Some TPlus
  | "-"%char => Some TMinus
  | "*"%char => Some TStar
  | "/"%char => Some TSlash
  | "%"%char => Some TPercent
  | "("%char => Some TOpen
  | ")"%char => Some TClose
  | ","%char => Some TComma
  | "["%char => Some TOpenBracket
  | "]"%char => Some TCloseBracket
  | _ => None
  end.

(** The tokens of a text, read left to right; blanks separate tokens. *)
Fixpoint tokens_from (p : pending) (s : string) : option (list token) :=
  match s with
  | EmptyString => Some (flush p)
  | String c s' =>
      match digit_of c, p with
      | Some d, Nothing => tokens_from (Digits d) s'
      | Some d, Digits n => tokens_from (Digits (10 * n + d)) s'
      | Some d, Letters x =>
          tokens_from (Letters (x ++ String c EmptyString)) s'
      | None, _ =>
          if is_letter c then
            match p with
            | Nothing => tokens_from (Letters (String c EmptyString)) s'
            | Letters x =>
                tokens_from (Letters (x ++ String c EmptyString)) s'
            | Digits _ => None
            end
          else if Ascii.eqb c " " then
            option_map (app (flush p)) (tokens_from Nothing s')
          else
            match symbol_of c with
            | Some t =>
                option_map (fun ts => flush p ++ t :: ts)
                           (tokens_from Nothing s')
            | None => None
            end
      end
  end.

Definition tokens (s : string) : option (list token) := tokens_from Nothing s.

(** Reading with the usual precedence: [*], [/] and [%] bind tighter than
    [+], operators of one level group to the left, [floor(e)] is an
    application and parentheses group.  [fuel] bounds the depth of the
    calls. *)
Fixpoint sum (fuel : nat) (ts : list token) {struct fuel}
  : option (expr * list token) :=
  match fuel with
  | O => None
  | S fuel =>
      match product fuel ts with
      | Some (a, rest) => more_terms fuel a rest
      | None => None
      end
  end
with more_terms (fuel : nat) (a : expr) (ts : list token) {struct fuel}
  : option (expr * list token) :=
  match fuel with
  | O => None
  | S fuel =>
      match ts with
      | TPlus :: ts' =>
          match product fuel ts' with
          | Some (b, rest) => more_terms fuel (Add a b) rest
          | None => None
          end
      | _ => Some (a, ts)
      end
  end
with product (fuel : nat) (ts : list token) {struct fuel}
  : option (expr * list token) :=
  match fuel with
  | O => None
  | S fuel =>
      match atom fuel ts with
      | Some (a, rest) => more_factors fuel a rest
      | None => None
      end
  end
with more_factors (fuel : nat) (a : expr) (ts : list token) {struct fuel}
  : option (expr * list token) :=
  match fuel with
  | O => None
  | S fuel =>
      match ts with
      | TStar :: ts' =>
          match atom fuel ts' with
          | Some (b, rest) => more_factors fuel (Mul a b) rest
          | None => None
          end
      | TSlash :: ts' =>
          match atom fuel ts' with
          | Some (b, rest) => more_factors fuel (Div a b) rest
          | None => None
          end
      | TPercent :: ts' =>
          match atom fuel ts' with
          | Some (b, rest) => more_factors fuel (Mod a b) rest
          | None => None
          end
      | _ => Some (a, ts)
      end
  end
with atom (fuel : nat) (ts : list token) {struct fuel}
  : option (expr * list token) :=
  match fuel with
  | O => None
  | S fuel =>
      match ts with
      | TNum n :: rest => Some (Const n, rest)
      | TMinus :: TNum n :: rest => Some (Const (- n), rest)
      | TName x :: TOpen :: ts' =>
          if String.eqb x "floor" then
            match sum fuel ts' with
            | Some (a, TClose :: rest) => Some (Floor a, rest)
            | _ => None
            end
          else None
      | TName x :: rest => Some (Var x, rest)
      | TOpen :: ts' =>
          match sum fuel ts' with
          | Some (a, TClose :: rest) => Some (a, rest)
          | _ => None
          end
      | _ => None
      end
  end.

(** The expressions after the first one, up to the closing bracket. *)
Fixpoint more_items (fuel : nat) (ts : list token) {struct fuel}
  : option (list expr) :=
  match fuel with
  | O => None
  | S fuel =>
      match ts with
      | [TCloseBracket] => Some []
      | TComma :: ts' =>
          match sum fuel ts' with
          | Some (a, rest) => option_map (cons a) (more_items fuel rest)
          | None => None
          end
      | _ => None
      end
  end.

(** The expressions of a projection [[ e1, ..., en ]]. *)
Definition read (text : string) : option (list expr) :=
  match tokens text with
  | Some [TOpenBracket; TCloseBracket] => Some []
  | Some (TOpenBracket :: ts) =>
      let fuel := (4 * List.length ts + 4)%nat in
      match sum fuel ts with
      | Some (a, rest) => option_map (cons a) (more_items fuel rest)
      | None => None
      end
  | _ => None
  end.

Definition lift2 (f : Q -> Q -> Q) (a b : option Q) : option Q :=
  match a, b with
  | Some x, Some y => Some (f x y)
  | _, _ => None
  end.

(** [x / y] over the rationals. *)
Definition quotient (a b : option Q) : option Q :=
  match a, b with
  | Some x, Some y => if Qeq_bool y 0 then None else Some (x / y)%Q
  | _, _ => None
  end.

(** [x % y]: what is left of [x] after [floor(x / y)] times [y]. *)
Definition remainder (a b : option Q) : option Q :=
  match a, b with
  | Some x, Some y =>
      if Qeq_bool y 0 then None
      else Some (x - y * inject_Z (Qfloor (x / y)))%Q
  | _, _ => None
  end.

(** The value of an expression where the dimensions have the values
    [env] gives them; a division by zero has none. *)
Fixpoint value (env : string -> option Z) (e : expr) : option Q :=
  match e with
  | Var x => option_map inject_Z (env x)
  | Const n => Some (inject_Z n)
  | Add a b => lift2 Qplus (value env a) (value env b)
  | Mul a b => lift2 Qmult (value env a) (value env b)
  | Div a b => quotient (value env a) (value env b)
  | Mod a b => remainder (value env a) (value env b)
  | Floor a => option_map (fun q => inject_Z (Qfloor q)) (value env a)
  end.

(** The expression has the integer value [z]. *)
Definition denotes (env : string -> option Z) (e : expr) (z : Z) : Prop :=
  exists q, value env e = Some q /\ (q == inject_Z z)%Q.

End Projection.

(** A point of the output index space: one coordinate for every axis,
    within the extent of the axis. *)
Definition in_bounds (shape point : list Z) : Prop :=
  Forall2 (fun x size => 0 <= x < size) point shape.

(** The row-major linear index of a point: the last axis varies fastest. *)
Definition linear_index (shape point : list Z) : Z :=
  fold_right Z.add 0
    (map (fun xs => fst xs * snd xs)
         (combine point (row_major_strides shape))).

(** The coordinate along an axis of the element with linear index [L]:
    [floor(L / stride) mod size]. *)
Definition coordinate (L stride size : Z) : Z := (L / stride) mod size.

(** The values of the dimensions at a point. *)
Fixpoint valuation (dims : list string) (point : list Z) (x : string)
  : option Z :=
  match dims, point with
  | d :: dims', v :: point' =>
      if String.eqb d x then Some v else valuation dims' point' x
  | _, _ => None
  end.

(** What the fused translation of a reshape is specified to emit: a name
    for every output axis, and one expression for every input axis, which
    at every point of the output has the value
    [floor(L / stride) mod size] for the linear index [L] of the point
    and the row-major stride and the size of the input axis. *)
Definition view_projection_as_specified (d : ViewFuncDescription.t) : Prop :=
  let (_, ifmap_shape, ofmap_shape, _, _) := d in
  element_count ifmap_shape = element_count ofmap_shape ->
  exists doc dims text exprs,
    ViewFuncDescription.to_fused_yaml d = Ok doc /\
    dims = uppercase_prefix (len ofmap_shape) /\
    List.length dims = List.length ofmap_shape /\
    dimensions_of doc = Ok (YList (map YStr dims)) /\
    input_projection_of doc = Ok (YStr text) /\
    Projection.read text = Some exprs /\
    List.length exprs = List.length ifmap_shape /\
    forall point,
      in_bounds ofmap_shape point ->
      Forall2
        (fun e ss =>
           Projection.denotes (valuation dims point) e
             (coordinate (linear_index ofmap_shape point) (fst ss) (snd ss)))
        exprs (combine (row_major_strides ifmap_shape) ifmap_shape).

(** What the two translations of a reshape are specified to do on
    failure: the legacy one always fails, the fused one exactly when the
    element counts differ. *)
Definition view_failure_as_specified (d : ViewFuncDescription.t) : Prop :=
  let (_, ifmap_shape, ofmap_shape, _, _) := d in
  succeeds (ViewFuncDescription.to_yaml d) = false /\
  (succeeds (ViewFuncDescription.to_fused_yaml d) = false <->
   element_count ifmap_shape <> element_count ofmap_shape).

(** The reshape of a 0-dimensional tensor to shape (1,). *)
Definition scalar_view : ViewFuncDescription.t :=
  ViewFuncDescription.mk "view" [] [1] "x" "view_out".

(** A reshape of shape (2,3) to a shape with 27 axes. *)
Definition wide_view : ViewFuncDescription.t :=
  ViewFuncDescription.mk "view" [2; 3] (repeat 1 25 ++ [2; 3]) "x" "view_out".

(** The reshape of shape (2,3,4) to shape (6,4). *)
Definition reshape_2x3x4 : ViewFuncDescription.t :=
  ViewFuncDescription.mk "view" [2; 3; 4] [6; 4] "x" "view_out".

(** ** What a translation call may change *)

(** [new] is [old] with a suffix appended. *)
Definition name_extended (old new : string) : Prop :=
  exists suffix, new = (old ++ suffix)%string.

(** An input shape after the padding assignment of the elementwise
    translations. *)
Definition normalized (ofmap_shape shape : list Z) : list Z :=
  if len shape <? len ofmap_shape
  then BinaryElementwiseFuncDescription.padded ofmap_shape shape
  else shape.

(** The fields of a description after a translation call, against the
    fields before it. *)
Definition frame (d d' : description) : Prop :=
  match d, d' with
  | Conv c, Conv c' => c' = c
  | ConvTranspose c, ConvTranspose c' =>
      exists nm,
        name_extended (ConvTransposeLayerDescription.name c) nm /\
        c' = ConvTransposeLayerDescription.with_name c nm
  | MaxPool c, MaxPool c' => c' = c
  | MatrixMatrixMultiply c, MatrixMatrixMultiply c' => c' = c
  | BinaryElementwise c, BinaryElementwise c' =>
      let (name, ifmap1_shape, ifmap2_shape, ofmap_shape,
           ifmap1_name, ifmap2_name, ofmap_name) := c in
      exists nm,
        name_extended name nm /\
        c' = BinaryElementwiseFuncDescription.mk nm
               (normalized ofmap_shape ifmap1_shape)
               (normalized ofmap_shape ifmap2_shape)
               ofmap_shape ifmap1_name ifmap2_name ofmap_name
  | Matmul c, Matmul c' =>
      c' = c \/
      (MatmulFuncDescription.extra_dims c = None /\
       c' = MatmulFuncDescription.with_extra_dims c (Some []))
  | Softmax c, Softmax c' => c' = c
  | View c, View c' => c' = c
  | _, _ => False
  end.

(** The state of an elementwise description after the two padding
    assignments. *)
Definition after_padding (d : BinaryElementwiseFuncDescription.t)
  : BinaryElementwiseFuncDescription.t :=
  let (name, ifmap1_shape, ifmap2_shape, ofmap_shape,
       ifmap1_name, ifmap2_name, ofmap_name) := d in
  BinaryElementwiseFuncDescription.mk name
    (normalized ofmap_shape ifmap1_shape)
    (normalized ofmap_shape ifmap2_shape) ofmap_shape
    ifmap1_name ifmap2_name ofmap_name.

(** The name a document carries. *)
Definition name_of (doc : yaml) : result yaml :=
  get_path doc ["shape"; "name"].

(** An elementwise addition of a vector of 3 to a 5 by 3 matrix. *)
Definition broadcast_add : BinaryElementwiseFuncDescription.t :=
  BinaryElementwiseFuncDescription.mk "add" [3] [5; 3] [5; 3] "bias" "x"
    "add_out".

(** A matrix product constructed without [extra_dims]. *)
Definition plain_matmul : MatmulFuncDescription.t :=
  MatmulFuncDescription.mk "matmul" 4 16 8 "a" "b" "matmul_out" None.

(** Modelled from the spec: the packaged template [utils/matmul.yaml],
    a data file that is not among the sources.  Its schema names the
    dimensions K, M and N and has one data-space for each operand, under
    the names the translation substitutes. *)
Definition sample_matmul_template : yaml :=
  YDict [("problem", YDict [
    ("shape", YDict [
       ("name", YStr "matmul");
       ("dimensions", YList [YStr "K"; YStr "M"; YStr "N"]);
       ("data-spaces", YList [
          YDict [("name", YStr "Input1");
                 ("projection", YList [proj "M"; proj "K"])];
          YDict [("name", YStr "Input2");
                 ("projection", YList [proj "K"; proj "N"])];
          YDict [("name", YStr "Outputs");
                 ("projection", YList [proj "M"; proj "N"]);
                 ("read-write", YBool true)]])]);
    ("instance", YDict [("K", YInt 1); ("M", YInt 1); ("N", YInt 1)])])].

(** A package that holds this one template. *)
Definition sample_templates (path : string) : result yaml :=
  if String.eqb path "utils/matmul.yaml" then Ok sample_matmul_template
  else Raise ResourceError.

(* ================================================================== *)
(** * Integer division through binary64 *)
(* ================================================================== *)

Section TrueDivision.

Lemma round_half_even_cases num den :
  round_half_even num den = num / den \/
  (round_half_even num den = num / den + 1 /\ den <= 2 * (num mod den)).
Proof.
  unfold round_half_even.
  destruct (Z.ltb_spec (2 * (num mod den)) den) as [H|H]; [now left|].
  destruct (Z.ltb_spec den (2 * (num mod den))) as [H'|H']; [right; lia|].
  destruct (Z.even (num / den)); [now left | right; lia].
Qed.

Lemma ulp_exponent_lower a b : -1074 <= ulp_exponent a b.
Proof. unfold ulp_exponent. lia. Qed.

(** Unless the exponent was clamped, the scaled quotient has at least 53
    bits. *)
Lemma ulp_exponent_normal a b :
  0 < a -> 0 < b ->
  let e := ulp_exponent a b in
  e = -1074 \/ (e < 0 -> 2 ^ 52 * b <= a * 2 ^ (- e)).
Proof.
  intros Ha Hb e. subst e. unfold ulp_exponent.
  set (la := Z.log2 a). set (lb := Z.log2 b).
  assert (Hla : 0 <= la) by apply Z.log2_nonneg.
  assert (Hlb : 0 <= lb) by apply Z.log2_nonneg.
  destruct (Z.log2_spec a Ha) as [Ha1 Ha2]. fold la in Ha1, Ha2.
  destruct (Z.log2_spec b Hb) as [Hb1 Hb2]. fold lb in Hb1, Hb2.
  rewrite Z.pow_succ_r in Ha2, Hb2 by assumption.
  assert (Hpa : 0 < 2 ^ la) by (apply Z.pow_pos_nonneg; lia).
  assert (Hpb : 0 < 2 ^ lb) by (apply Z.pow_pos_nonneg; lia).
  destruct (Z.leb_spec (b * 2 ^ la) (a * 2 ^ lb)) as [Hc|Hc].
  - destruct (Z.max_spec (la - lb - 52) (-1074)) as [[_ ->]|[_ ->]];
      [now left|].
    right. intros Hneg.
    replace (- (la - lb - 52)) with (52 + lb - la) by lia.
    apply Z.mul_le_mono_pos_r with (p := 2 ^ la); [assumption|].
    rewrite <- (Z.mul_assoc a), <- Z.pow_add_r by lia.
    replace (52 + lb - la + la) with (52 + lb) by lia.
    rewrite Z.pow_add_r by lia. nia.
  - destruct (Z.max_spec (la - lb - 53) (-1074)) as [[_ ->]|[_ ->]];
      [now left|].
    right. intros Hneg.
    replace (- (la - lb - 53)) with (53 + lb - la) by lia.
    apply Z.mul_le_mono_pos_r with (p := 2 ^ la); [assumption|].
    rewrite <- (Z.mul_assoc a), <- Z.pow_add_r by lia.
    replace (53 + lb - la + la) with (1 + 52 + lb) by lia.
    rewrite !Z.pow_add_r by lia. change (2 ^ 1) with 2. nia.
Qed.

Lemma ulp_exponent_small a b :
  0 < a < 2 ^ 53 -> 0 < b ->
  ulp_exponent a b < 0 \/ (ulp_exponent a b = 0 /\ b = 1).
Proof.
  intros [Ha Ha53] Hb. unfold ulp_exponent.
  set (la := Z.log2 a). set (lb := Z.log2 b).
  assert (Hla : 0 <= la) by apply Z.log2_nonneg.
  assert (Hlb : 0 <= lb) by apply Z.log2_nonneg.
  assert (la < 53) by (apply Z.log2_lt_pow2; assumption).
  destruct (Z.log2_spec b Hb) as [Hb1 Hb2]. fold lb in Hb1, Hb2.
  destruct (Z.leb_spec (b * 2 ^ la) (a * 2 ^ lb)) as [Hc|Hc]; [|left; lia].
  destruct (Z.eq_dec lb 0) as [E|E]; [|left; lia].
  rewrite E in Hb2. change (2 ^ Z.succ 0) with 2 in Hb2.
  destruct (Z.eq_dec la 52); [right; lia | left; lia].
Qed.

(** Rounding the scaled quotient up does not reach the next integer. *)
Lemma scaled_round_up_stays a b s q :
  0 < a < 2 ^ 53 -> 0 < b -> 0 < s ->
  q = (a * 2 ^ s) / b ->
  b <= 2 * ((a * 2 ^ s) mod b) ->
  (2 ^ 52 <= q \/ 53 <= s) ->
  (q + 1) / 2 ^ s = a / b.
Proof.
  intros [Ha Ha53] Hb Hs Hq Hr Hnorm.
  assert (Hp : 0 < 2 ^ s) by (apply Z.pow_pos_nonneg; lia).
  assert (Hqs : q / 2 ^ s = a / b).
  { subst q. rewrite Z.div_div by lia.
    apply Z.div_mul_cancel_r; lia. }
  pose proof (Z.div_mod (a * 2 ^ s) b ltac:(lia)) as Hdm.
  pose proof (Z.mod_pos_bound (a * 2 ^ s) b Hb) as Hmb.
  rewrite <- Hq in Hdm.
  pose proof (Z.div_mod q (2 ^ s) ltac:(lia)) as Hdq.
  pose proof (Z.mod_pos_bound q (2 ^ s) Hp) as Hmq.
  rewrite Hqs in Hdq.
  pose proof (Z.div_mod a b ltac:(lia)) as Hda.
  pose proof (Z.mod_pos_bound a b Hb) as Hma.
  set (Q := a / b) in *. set (r := (a * 2 ^ s) mod b) in *.
  set (t := q mod 2 ^ s) in *. set (u := a mod b) in *.
  symmetry. apply Z.div_unique with (r := t + 1); [|lia].
  left. split; [lia|].
  destruct (Z.eq_dec (t + 1) (2 ^ s)) as [E|E]; [exfalso|lia].
  (* q + 1 = (Q + 1) * 2 ^ s *)
  assert (Hq1 : q = (Q + 1) * 2 ^ s - 1) by lia.
  assert (Hg : 1 <= (Q + 1) * b - a) by lia.
  assert (Hr' : r = b - ((Q + 1) * b - a) * 2 ^ s) by nia.
  assert (Hb2 : 2 * 2 ^ s <= b) by nia.
  assert (HQ : 0 <= Q) by (apply Z.div_pos; lia).
  assert (Hqa : 2 * q * 2 ^ s <= a * 2 ^ s) by nia.
  assert (Hqa' : 2 * q <= a) by nia.
  destruct Hnorm as [Hn|Hn].
  - (* 2^52 <= q: then 2^52 * b <= a * 2^s, against b >= 2^(s+1) *)
    nia.
  - assert (2 ^ 53 <= 2 ^ s) by (apply Z.pow_le_mono_r; lia). nia.
Qed.

Lemma truediv_pos_small a b :
  0 < a < 2 ^ 53 -> 0 < b ->
  exists x, truediv_pos a b = Ok x /\ int_of_float x = a / b.
Proof.
  intros Ha Hb. unfold truediv_pos.
  pose proof (ulp_exponent_lower a b) as Hlow.
  pose proof (ulp_exponent_normal a b ltac:(lia) Hb) as Hnorm.
  cbv zeta in Hnorm.
  destruct (ulp_exponent_small a b Ha Hb) as [Hneg|[He0 Hb1]].
  - set (e := ulp_exponent a b) in *.
    destruct (Z.leb_spec 0 e) as [?|_]; [lia|].
    set (s := - e) in *.
    assert (Hs : 0 < s <= 1074) by lia.
    assert (Hp : 0 < 2 ^ s) by (apply Z.pow_pos_nonneg; lia).
    assert (Hq0 : 0 <= a * 2 ^ s / b) by (apply Z.div_pos; nia).
    assert (Hqa : a * 2 ^ s / b <= a * 2 ^ s)
      by (apply Z.div_le_upper_bound; nia).
    assert (Hbig : a * 2 ^ s + 1 < 2 ^ (1024 - e)).
    { replace (1024 - e) with (1024 + s) by lia.
      rewrite Z.pow_add_r by lia.
      assert (2 ^ 53 < 2 ^ 1024) by (apply Z.pow_lt_mono_r; lia). nia. }
    destruct (round_half_even_cases (a * 2 ^ s) b) as [Hm|[Hm Hr]];
      rewrite Hm.
    + destruct (Z.leb_spec (2 ^ (1024 - e)) (a * 2 ^ s / b)) as [?|_]; [lia|].
      eexists; split; [reflexivity|].
      unfold int_of_float; simpl.
      destruct (Z.leb_spec 0 e) as [?|_]; [lia|]. fold s.
      rewrite Z.quot_div_nonneg by lia.
      rewrite Z.div_div by lia. apply Z.div_mul_cancel_r; lia.
    + destruct (Z.leb_spec (2 ^ (1024 - e)) (a * 2 ^ s / b + 1)) as [?|_];
        [lia|].
      eexists; split; [reflexivity|].
      unfold int_of_float; simpl.
      destruct (Z.leb_spec 0 e) as [?|_]; [lia|]. fold s.
      rewrite Z.quot_div_nonneg by lia.
      apply scaled_round_up_stays; try lia; try reflexivity.
      destruct Hnorm as [Hc|Hn].
      * right. lia.
      * left. apply Z.div_le_lower_bound; [lia|]. rewrite Z.mul_comm.
        apply Hn. lia.
  - rewrite He0. subst b. change (0 <=? 0) with true. cbv iota.
    change (2 ^ 0) with 1. rewrite !Z.mul_1_l.
    assert (Hr : round_half_even a 1 = a).
    { unfold round_half_even. rewrite Z.mod_1_r, Z.div_1_r. reflexivity. }
    rewrite Hr, Z.mul_1_r.
    assert (2 ^ 53 < 2 ^ 1024) by (apply Z.pow_lt_mono_r; lia).
    destruct (Z.leb_spec (2 ^ 1024) a) as [?|_]; [lia|].
    eexists; split; [reflexivity|].
    unfold int_of_float; simpl. rewrite Z.div_1_r. lia.
Qed.

Lemma truediv_small a b :
  0 <= a < 2 ^ 53 -> 0 < b ->
  exists x, truediv a b = Ok x /\ int_of_float x = a / b.
Proof.
  intros Ha Hb. unfold truediv.
  destruct (Z.eqb_spec b 0) as [?|_]; [lia|].
  destruct (Z.eqb_spec a 0) as [->|Hne].
  - eexists; split; [reflexivity|]. reflexivity.
  - rewrite (Z.abs_eq a), (Z.abs_eq b) by lia.
    destruct (truediv_pos_small a b ltac:(lia) Hb) as (x & Hx & Hi).
    rewrite Hx. cbn [rbind]. eexists; split; [reflexivity|].
    rewrite (Z.sgn_pos a), (Z.sgn_pos b) by lia.
    destruct x as [mx ex]. cbn [mant expo].
    replace (1 * 1 * mx) with mx by lia. exact Hi.
Qed.

Lemma out_extent_small extent kernel pad stride :
  0 <= extent - kernel + 2 * pad < 2 ^ 53 -> 0 < stride ->
  out_extent extent kernel pad stride =
  Ok ((extent - kernel + 2 * pad) / stride + 1).
Proof.
  intros Hn Hs. unfold out_extent.
  destruct (truediv_small _ _ Hn Hs) as (x & -> & Hi). simpl.
  now rewrite Hi.
Qed.


Lemma truediv_succeeds a b :
  Z.abs a < 2 ^ 53 -> b <> 0 -> exists x, truediv a b = Ok x.
Proof.
  intros Ha Hb. unfold truediv.
  destruct (Z.eqb_spec b 0) as [?|_]; [contradiction|].
  destruct (Z.eqb_spec a 0) as [_|Hne]; [eexists; reflexivity|].
  destruct (truediv_pos_small (Z.abs a) (Z.abs b) ltac:(lia) ltac:(lia))
    as (x & -> & _).
  eexists; reflexivity.
Qed.

Lemma out_extent_succeeds extent kernel pad stride :
  Z.abs (extent - kernel + 2 * pad) < 2 ^ 53 -> stride <> 0 ->
  exists v, out_extent extent kernel pad stride = Ok v.
Proof.
  intros Hn Hs. unfold out_extent.
  destruct (truediv_succeeds _ _ Hn Hs) as (x & ->).
  eexists; reflexivity.
Qed.

End TrueDivision.

(* ================================================================== *)
(** * Convolution descriptions *)
(* ================================================================== *)

Section Convolution.

Import ConvLayerDescription.

(** C5, as stated, fails: at [wide_conv] the strides are positive and the
    numerators non-negative, yet [q] is [2 ^ 53 + 1] where the floor
    formula gives [2 ^ 53]. *)
Lemma conv_floor_extent_fails_beyond_binary64 :
  ~ floor_extent_formula wide_conv.
Proof.
  unfold floor_extent_formula. intros H.
  destruct H as [Hq _]; try (vm_compute; congruence).
  vm_compute in Hq. discriminate Hq.
Qed.

(** C5 (amended): for every convolution description with positive strides
    whose numerators [w - s + 2*w_pad] and [h - r + 2*h_pad] are
    non-negative and below [2 ^ 53], [q] and [p] return
    [floor(numerator / stride) + 1]; with stride 1, no padding and one
    group they return [w - s + 1] and [h - r + 1]. *)
Theorem conv_output_extents (d : t) :
  0 < w_stride d -> 0 < h_stride d ->
  0 <= w d - s d + 2 * w_pad d < 2 ^ 53 ->
  0 <= h d - r d + 2 * h_pad d < 2 ^ 53 ->
  (q d = Ok ((w d - s d + 2 * w_pad d) / w_stride d + 1) /\
   p d = Ok ((h d - r d + 2 * h_pad d) / h_stride d + 1)) /\
  (w_stride d = 1 -> h_stride d = 1 -> w_pad d = 0 -> h_pad d = 0 ->
   g d = 1 ->
   p d = Ok (h d - r d + 1) /\ q d = Ok (w d - s d + 1)).
Proof.
  intros Hws Hhs Hw Hh.
  assert (Hq : q d = Ok ((w d - s d + 2 * w_pad d) / w_stride d + 1))
    by (apply out_extent_small; assumption).
  assert (Hp : p d = Ok ((h d - r d + 2 * h_pad d) / h_stride d + 1))
    by (apply out_extent_small; assumption).
  split; [now split|].
  intros Ew Eh Epw Eph _. rewrite Hq, Hp, Ew, Eh, Epw, Eph.
  rewrite !Z.div_1_r. split; f_equal; lia.
Qed.

Lemma conv_output_extents_witness :
  let d := conv "conv1" 1 64 224 224 3 1 7 7 3 3 2 2 "x" "conv1_filter"
                "conv1_out" in
  q d = Ok 112 /\ p d = Ok 112.
Proof.
  intro d.
  refine (proj1 (conv_output_extents d _ _ _ _));
    cbn; try split; try lia; discriminate.
Defined.

(** C4: the convolution with n=1, c=3, m=8, h=w=32, r=s=3, stride 1,
    padding 1 and one group has p = q = 32, and [to_yaml] returns a
    document whose instance region is exactly
    {G:1, C:3, M:8, N:1, R:3, S:3, P:32, Q:32}. *)
Theorem conv_3x3_same_padding_instance
    (name ifmap_name filter_name ofmap_name : string) :
  let d := conv name 1 8 32 32 3 1 3 3 1 1 1 1
                ifmap_name filter_name ofmap_name in
  p d = Ok 32 /\ q d = Ok 32 /\
  exists doc,
    to_yaml d = Ok doc /\
    instance_of doc =
      Ok (YDict [("G", YInt 1); ("C", YInt 3); ("M", YInt 8); ("N", YInt 1);
                 ("R", YInt 3); ("S", YInt 3); ("P", YInt 32);
                 ("Q", YInt 32)]).
Proof.
  intro d. repeat split; try (vm_compute; reflexivity).
  eexists. split; vm_compute; reflexivity.
Qed.

(** Both translations return a document when the divisors are not zero
    and the numerators are within the binary64 integers. *)
Lemma conv_to_yaml_returns (d : t) :
  g d <> 0 -> w_stride d <> 0 -> h_stride d <> 0 ->
  Z.abs (w d - s d + 2 * w_pad d) < 2 ^ 53 ->
  Z.abs (h d - r d + 2 * h_pad d) < 2 ^ 53 ->
  exists doc shape instance,
    to_yaml d = Ok doc /\
    shape_of doc = Ok shape /\ instance_of doc = Ok instance.
Proof.
  intros Hg Hws Hhs Hw Hh. unfold to_yaml, floordiv.
  destruct (Z.eqb_spec (g d) 0) as [?|_]; [contradiction|].
  destruct (out_extent_succeeds _ _ _ _ Hh Hhs) as (pv & Hp).
  destruct (out_extent_succeeds _ _ _ _ Hw Hws) as (qv & Hq).
  unfold p, q. rewrite Hp, Hq. cbn [rbind].
  do 3 eexists. repeat split; reflexivity.
Qed.

(** C3: for every convolution description the legacy and the fused
    translation have the same outcome, the same document or the same
    exception; with positive fields and numerators within the binary64
    integers both return one document, with one shape region and one
    instance region. *)
Theorem conv_legacy_and_fused_identical (d : t) :
  to_yaml d = to_fused_yaml d /\
  (0 < g d -> 0 < w_stride d -> 0 < h_stride d ->
   Z.abs (w d - s d + 2 * w_pad d) < 2 ^ 53 ->
   Z.abs (h d - r d + 2 * h_pad d) < 2 ^ 53 ->
   exists doc shape instance,
     to_yaml d = Ok doc /\ to_fused_yaml d = Ok doc /\
     shape_of doc = Ok shape /\ instance_of doc = Ok instance).
Proof.
  assert (E : to_yaml d = to_fused_yaml d) by reflexivity.
  split; [exact E|].
  intros Hg Hws Hhs Hw Hh.
  destruct (conv_to_yaml_returns d) as (doc & sh & inst & Hd & Hs & Hi);
    try lia.
  exists doc, sh, inst. rewrite <- E. auto.
Qed.

Lemma conv_legacy_and_fused_identical_witness :
  let d := conv "conv1" 1 64 224 224 3 1 7 7 3 3 2 2 "x" "conv1_filter"
                "conv1_out" in
  exists doc shape instance,
    to_yaml d = Ok doc /\ to_fused_yaml d = Ok doc /\
    shape_of doc = Ok shape /\ instance_of doc = Ok instance.
Proof.
  intro d.
  refine (proj2 (conv_legacy_and_fused_identical d) _ _ _ _ _); cbn; lia.
Defined.

End Convolution.

(* ================================================================== *)
(** * The classifiers of converter.py *)
(* ================================================================== *)

Section Classifiers.

Import Converter.

Lemma slice_to_minus_2 (l : list Z) : slice_to l (-2) = leading_dims l.
Proof.
  unfold slice_to, leading_dims, len. cbn [Z.ltb Z.compare].
  f_equal. lia.
Qed.

(** C1: rank-2 operands (4,8) and (8,16) give m=4, n=16, k=8 and no extra
    dimensions.  For the rank-3 operands (2,4,8) and (2,8,16) the batched
    branch reads the same positions 0 and 1 as the rank-2 branch: it
    returns m=2, n=8, k=4 with extra_dims (2,), not m=4, n=16, k=8. *)
Theorem generate_matmul_func_reads_axes_0_and_1
    (output : Tensor) (name input1_name input2_name : string) :
  generate_matmul_func (mkTensor [4; 8]) (mkTensor [8; 16]) output
      name input1_name input2_name =
    Ok (MatmulFuncDescription.mk name 4 16 8 input1_name input2_name
          (name ++ "_out")%string (Some [])) /\
  generate_matmul_func (mkTensor [2; 4; 8]) (mkTensor [2; 8; 16]) output
      name input1_name input2_name =
    Ok (MatmulFuncDescription.mk name 2 8 4 input1_name input2_name
          (name ++ "_out")%string (Some [2])).
Proof. split; reflexivity. Qed.

(** C8: every pair of operand shapes that is neither two rank-2 shapes nor
    a first operand of rank above 2 with the leading dimensions of both
    operands equal is refused with NotImplementedError. *)
Theorem generate_matmul_func_refuses_other_shapes
    (input1 input2 output : Tensor) (name input1_name input2_name : string) :
  ~ (List.length (shape input1) = 2%nat /\
     List.length (shape input2) = 2%nat) ->
  ~ ((2 < List.length (shape input1))%nat /\
     leading_dims (shape input1) = leading_dims (shape input2)) ->
  generate_matmul_func input1 input2 output name input1_name input2_name =
    Raise NotImplementedError.
Proof.
  intros H2 Hb. unfold generate_matmul_func, len.
  destruct (Z.eqb_spec (Z.of_nat (List.length (shape input1))) 2) as [E1|E1];
    destruct (Z.eqb_spec (Z.of_nat (List.length (shape input2))) 2)
      as [E2|E2]; cbn [andb];
    try (exfalso; apply H2; lia).
  all: destruct (Z.ltb_spec 2 (Z.of_nat (List.length (shape input1))))
    as [L|L]; cbn [andb]; try reflexivity.
  all: destruct (list_eq_dec Z.eq_dec _ _) as [E|E]; try reflexivity.
  all: exfalso; apply Hb; split; [lia|].
  all: now rewrite <- !slice_to_minus_2.
Qed.

Lemma generate_matmul_func_refuses_other_shapes_witness :
  generate_matmul_func (mkTensor [2; 4; 8]) (mkTensor [3; 8; 16])
      (mkTensor [2; 4; 16]) "matmul" "q" "k" =
    Raise NotImplementedError.
Proof.
  apply generate_matmul_func_refuses_other_shapes; cbn.
  - intros [H _]. discriminate H.
  - intros [_ H]. discriminate H.
Defined.

Lemma index_last {A} (l : list A) (x y : A) : index (l ++ [x; y]) (-1) = Ok y.
Proof.
  unfold index, len. cbn [Z.ltb Z.compare].
  rewrite length_app. cbn [List.length].
  destruct (Z.ltb_spec (Z.of_nat (List.length l + 2) + -1) 0) as [?|_];
    [lia|].
  replace (Z.to_nat (Z.of_nat (List.length l + 2) + -1))
    with (List.length l + 1)%nat by lia.
  rewrite nth_error_app2 by lia.
  replace (List.length l + 1 - List.length l)%nat with 1%nat by lia.
  reflexivity.
Qed.

Lemma index_before_last {A} (l : list A) (x y : A) :
  index (l ++ [x; y]) (-2) = Ok x.
Proof.
  unfold index, len. cbn [Z.ltb Z.compare].
  rewrite length_app. cbn [List.length].
  destruct (Z.ltb_spec (Z.of_nat (List.length l + 2) + -2) 0) as [?|_];
    [lia|].
  replace (Z.to_nat (Z.of_nat (List.length l + 2) + -2))
    with (List.length l + 0)%nat by lia.
  rewrite nth_error_app2 by lia.
  replace (List.length l + 0 - List.length l)%nat with 0%nat by lia.
  reflexivity.
Qed.

Lemma index_in_range {A} (l : list A) (i : Z) :
  0 <= i < len l -> exists x, index l i = Ok x.
Proof.
  intros Hi. unfold index, len in *.
  assert (E0 : (i <? 0) = false) by (apply Z.ltb_ge; lia).
  rewrite !E0.
  destruct (nth_error l (Z.to_nat i)) eqn:E; [eexists; reflexivity|].
  apply nth_error_None in E. lia.
Qed.

(** C9: whenever the handler of adaptive average pooling constructs a
    description, from an input with spatial extents (in_h, in_w) and an
    output with spatial extents (out_h, out_w), the description has stride
    floor(in/out) and kernel in - (out-1)*stride on each axis and padding
    0; and it constructs one for every input of rank at least 4 and every
    output of rank at least 2 with non-zero spatial extents. *)
Theorem adaptive_avg_pool_stride_and_kernel
    (input output : Tensor) (name ifmap_name : string) :
  (forall d,
     generate_description_AdaptiveAvgPool2d input output name ifmap_name
       = Ok d ->
     exists in_h in_w out_h out_w,
       index (shape input) (-2) = Ok in_h /\
       index (shape input) (-1) = Ok in_w /\
       index (shape output) (-2) = Ok out_h /\
       index (shape output) (-1) = Ok out_w /\
       MaxPoolLayerDescription.w_stride d = in_w / out_w /\
       MaxPoolLayerDescription.h_stride d = in_h / out_h /\
       MaxPoolLayerDescription.s d = in_w - (out_w - 1) * (in_w / out_w) /\
       MaxPoolLayerDescription.r d = in_h - (out_h - 1) * (in_h / out_h) /\
       MaxPoolLayerDescription.w_pad d = 0 /\
       MaxPoolLayerDescription.h_pad d = 0) /\
  (forall lead lead' in_h in_w out_h out_w,
     shape input = lead ++ [in_h; in_w] ->
     shape output = lead' ++ [out_h; out_w] ->
     (2 <= List.length lead)%nat -> out_h <> 0 -> out_w <> 0 ->
     exists d,
       generate_description_AdaptiveAvgPool2d input output name ifmap_name
         = Ok d).
Proof.
  unfold generate_description_AdaptiveAvgPool2d. split.
  - intros d.
    destruct (index (shape input) (-1)) as [in_w|]; [|discriminate].
    destruct (index (shape output) (-1)) as [out_w|]; [|discriminate].
    cbn [rbind]. unfold floordiv.
    destruct (out_w =? 0); [discriminate|]. cbn [rbind].
    destruct (index (shape input) (-2)) as [in_h|]; [|discriminate].
    destruct (index (shape output) (-2)) as [out_h|]; [|discriminate].
    cbn [rbind].
    destruct (out_h =? 0); [discriminate|]. cbn [rbind].
    destruct (index (shape input) 3); [|discriminate].
    destruct (index (shape input) 2); [|discriminate].
    destruct (index (shape input) 1); [|discriminate].
    destruct (index (shape input) 0); [|discriminate].
    cbn [rbind]. intros [= <-].
    exists in_h, in_w, out_h, out_w. cbn. auto 12.
  - intros lead lead' in_h in_w out_h out_w -> -> Hlead Hh Hw.
    rewrite !index_last, !index_before_last. cbn [rbind].
    unfold floordiv.
    destruct (Z.eqb_spec out_w 0) as [?|_]; [contradiction|].
    destruct (Z.eqb_spec out_h 0) as [?|_]; [contradiction|].
    cbn [rbind].
    assert (Hlen : 3 < len (lead ++ [in_h; in_w]))
      by (unfold len; rewrite length_app; cbn [List.length]; lia).
    destruct (index_in_range (lead ++ [in_h; in_w]) 3 ltac:(lia))
      as (x3 & ->).
    destruct (index_in_range (lead ++ [in_h; in_w]) 2 ltac:(lia))
      as (x2 & ->).
    destruct (index_in_range (lead ++ [in_h; in_w]) 1 ltac:(lia))
      as (x1 & ->).
    destruct (index_in_range (lead ++ [in_h; in_w]) 0 ltac:(lia))
      as (x0 & ->).
    cbn [rbind]. eexists. reflexivity.
Qed.

Lemma adaptive_avg_pool_stride_and_kernel_witness :
  exists d,
    generate_description_AdaptiveAvgPool2d
      (mkTensor [1; 512; 7; 7]) (mkTensor [1; 512; 1; 1]) "avgpool" "x"
      = Ok d /\
    MaxPoolLayerDescription.w_stride d = 7 /\
    MaxPoolLayerDescription.h_stride d = 7 /\
    MaxPoolLayerDescription.s d = 7 /\
    MaxPoolLayerDescription.r d = 7 /\
    MaxPoolLayerDescription.w_pad d = 0 /\
    MaxPoolLayerDescription.h_pad d = 0.
Proof.
  destruct (adaptive_avg_pool_stride_and_kernel
              (mkTensor [1; 512; 7; 7]) (mkTensor [1; 512; 1; 1])
              "avgpool" "x") as [Hfields Hreturns].
  destruct (Hreturns [1; 512] [1; 512] 7 7 1 1 eq_refl eq_refl (le_n 2)
              ltac:(discriminate) ltac:(discriminate)) as (d & Hd).
  exists d. split; [exact Hd|].
  destruct (Hfields d Hd)
    as (in_h & in_w & out_h & out_w & E1 & E2 & E3 & E4 & H).
  injection E1 as <-. injection E2 as <-.
  injection E3 as <-. injection E4 as <-.
  exact H.
Defined.

End Classifiers.

(* ================================================================== *)
(** * Reshape descriptions *)
(* ================================================================== *)

Section Reshape.

Import ViewFuncDescription.

Lemma fold_left_mul (xs : list Z) (a : Z) :
  fold_left Z.mul xs a = a * element_count xs.
Proof.
  revert a. induction xs as [|x xs IH]; intros a;
    cbn [fold_left element_count fold_right].
  - lia.
  - rewrite IH. unfold element_count. lia.
Qed.

Lemma product_cons (x : Z) (xs : list Z) :
  product (x :: xs) = Ok (element_count (x :: xs)).
Proof.
  cbn [product]. rewrite fold_left_mul. reflexivity.
Qed.

Lemma product_nonempty (l : list Z) :
  l <> [] -> product l = Ok (element_count l).
Proof. destruct l; [congruence | intros _; apply product_cons]. Qed.

Lemma length_uppercase_prefix (n : Z) :
  0 <= n <= 26 -> List.length (uppercase_prefix n) = Z.to_nat n.
Proof.
  intros Hn. unfold uppercase_prefix, slice_to.
  destruct (Z.ltb_spec n 0) as [?|_]; [lia|].
  rewrite length_firstn.
  change (List.length (chars ascii_uppercase)) with 26%nat. lia.
Qed.

Lemma fold_left_on_reversed {A B} (f : A -> B -> A) (l : list B) (a : A) :
  fold_left f (rev l) a = fold_right (fun x acc => f acc x) a l.
Proof.
  rewrite <- (rev_involutive l) at 2.
  rewrite fold_left_rev_right. reflexivity.
Qed.

Lemma map_fst_combine {A B} (l : list A) (l' : list B) :
  List.length l = List.length l' -> map fst (combine l l') = l.
Proof.
  revert l'. induction l as [|a l IH]; intros [|b l'] H; cbn in *;
    try congruence.
  f_equal. apply IH. lia.
Qed.

Lemma map_snd_combine {A B} (l : list A) (l' : list B) :
  List.length l = List.length l' -> map snd (combine l l') = l'.
Proof.
  revert l'. induction l as [|a l IH]; intros [|b l'] H; cbn in *;
    try congruence.
  f_equal. apply IH. lia.
Qed.

(** The loop over the reversed output dimensions leaves the terms of the
    emitted_linearization, last dimension first, and the element count. *)
Lemma linearize_loop (l : list (string * Z)) :
  fold_left linearize_step (rev l) ([], 1) =
  (rev (map (fun ds => (fst ds ++ "*" ++ str (snd ds))%string)
            (combine (map fst l) (row_major_strides (map snd l)))),
   element_count (map snd l)).
Proof.
  rewrite fold_left_on_reversed.
  induction l as [|[d sz] l IH]; [reflexivity|].
  cbn [fold_right map fst snd row_major_strides combine rev].
  rewrite IH. unfold linearize_step. cbn [fst snd].
  f_equal. unfold element_count. cbn [fold_right]. lia.
Qed.

(** The loop over the reversed input shape leaves the input coordinates in
    reverse, and the element count. *)
Lemma ifmap_loop (L : string) (shape : list Z) :
  fold_left (ifmap_step L) (rev shape) ([], 1) =
  (rev (map (fun ss => emitted_coordinate L (fst ss) (snd ss))
            (combine (row_major_strides shape) shape)),
   element_count shape).
Proof.
  rewrite fold_left_on_reversed.
  induction shape as [|sz shape IH]; [reflexivity|].
  cbn [fold_right map fst snd row_major_strides combine rev].
  rewrite IH. unfold ifmap_step, emitted_coordinate. cbn [fst snd].
  f_equal. unfold element_count. cbn [fold_right]. lia.
Qed.

Lemma length_row_major_strides (shape : list Z) :
  List.length (row_major_strides shape) = List.length shape.
Proof. induction shape; cbn; congruence. Qed.

Lemma length_emitted_coordinates dims ifmap_shape ofmap_shape :
  List.length (emitted_coordinates dims ifmap_shape ofmap_shape)
  = List.length ifmap_shape.
Proof.
  unfold emitted_coordinates.
  rewrite length_map, length_combine, length_row_major_strides. lia.
Qed.

(** The document of the fused translation, when it is returned. *)
Lemma view_to_fused_yaml_document (d : t) :
  ifmap_shape d <> [] -> ofmap_shape d <> [] ->
  (List.length (ofmap_shape d) <= 26)%nat ->
  element_count (ifmap_shape d) = element_count (ofmap_shape d) ->
  let dims := uppercase_prefix (len (ofmap_shape d)) in
  to_fused_yaml d =
  Ok (YDict [
    ("shape", YDict [
       ("name", YStr (name d));
       ("dimensions", YList (map YStr dims));
       ("data-spaces", YList [
          YDict [("name", YStr (ifmap_name d));
                 ("projection",
                  YStr ("[ " ++ join ", "
                          (emitted_coordinates dims (ifmap_shape d)
                             (ofmap_shape d))
                        ++ " ]")%string)];
          YDict [("name", YStr (ofmap_name d));
                 ("projection",
                  YStr ("[ " ++ join ", " dims ++ " ]")%string);
                 ("read-write", YBool true)]])]);
    ("instance",
     YStr (join " and " (map bound (combine dims (ofmap_shape d)))))]).
Proof.
  intros Hi Ho H26 Hec dims. unfold to_fused_yaml.
  rewrite (product_nonempty _ Hi), (product_nonempty _ Ho). cbn [rbind].
  rewrite Hec, Z.eqb_refl. cbn [negb]. fold dims.
  assert (Hlen : List.length dims = List.length (ofmap_shape d)).
  { unfold dims. rewrite length_uppercase_prefix; unfold len; lia. }
  rewrite linearize_loop, ifmap_loop. cbn [fst].
  rewrite rev_involutive.
  rewrite (map_fst_combine _ _ Hlen), (map_snd_combine _ _ Hlen).
  reflexivity.
Qed.

(** C6: the reshape of a 0-dimensional tensor to shape (1,) has equal
    element counts, 1 and 1, and the fused translation returns no
    document: [reduce] without an initial value raises TypeError on the
    empty shape, before the assertion on the counts is reached. *)
Theorem view_of_scalar_fails_with_equal_counts :
  element_count (ifmap_shape scalar_view)
    = element_count (ofmap_shape scalar_view) /\
  to_fused_yaml scalar_view = Raise TypeError /\
  ~ view_failure_as_specified scalar_view.
Proof.
  split; [reflexivity|]. split; [reflexivity|].
  unfold view_failure_as_specified, scalar_view.
  intros [_ [H _]]. apply H; reflexivity.
Qed.

(** X19: for every reshape description whose two shapes have at least one
    axis, the legacy translation fails with NotImplementedError, and the
    fused translation fails, with AssertionError, exactly when the
    element counts differ; otherwise it returns a document. *)
Theorem view_fails_exactly_on_count_mismatch (d : t) :
  ifmap_shape d <> [] -> ofmap_shape d <> [] ->
  to_yaml d = Raise NotImplementedError /\
  (element_count (ifmap_shape d) <> element_count (ofmap_shape d) ->
   to_fused_yaml d = Raise AssertionError) /\
  (element_count (ifmap_shape d) = element_count (ofmap_shape d) ->
   exists doc, to_fused_yaml d = Ok doc) /\
  (succeeds (to_fused_yaml d) = false <->
   element_count (ifmap_shape d) <> element_count (ofmap_shape d)).
Proof.
  intros Hi Ho. split; [reflexivity|].
  unfold to_fused_yaml.
  rewrite (product_nonempty _ Hi), (product_nonempty _ Ho). cbn [rbind].
  destruct (Z.eqb_spec (element_count (ifmap_shape d))
                       (element_count (ofmap_shape d))) as [E|E];
    cbn [negb succeeds].
  - split; [contradiction|]. split; [eexists; reflexivity|].
    split; [discriminate | contradiction].
  - split; [reflexivity|]. split; [contradiction|].
    split; [intros _; exact E | reflexivity].
Qed.

Lemma view_fails_exactly_on_count_mismatch_witness :
  let d := mk "view" [2; 3; 4] [5; 4] "x" "view_out" in
  to_yaml d = Raise NotImplementedError /\
  to_fused_yaml d = Raise AssertionError.
Proof.
  intro d.
  destruct (view_fails_exactly_on_count_mismatch d) as (H1 & H2 & _);
    try discriminate.
  split; [exact H1 | apply H2; discriminate].
Defined.

(** No document is emitted for the reshape of a 0-dimensional tensor, and
    for an output of 27 axes only 26 dimensions are named: there are 26
    letters. *)
Lemma view_projection_fails_at_rank_0_and_27 :
  ~ view_projection_as_specified scalar_view /\
  ~ view_projection_as_specified wide_view.
Proof.
  split; unfold view_projection_as_specified, scalar_view, wide_view; intros H.
  - destruct H as (doc & dims & text & exprs & Hdoc & _); [reflexivity|].
    discriminate Hdoc.
  - destruct H as (doc & dims & text & exprs & _ & Hd & Hlen & _);
      [reflexivity|].
    subst dims. vm_compute in Hlen. discriminate Hlen.
Qed.

(** C7: for the reshape of (2,3,4) to (6,4) the fused translation names
    the dimensions A and B and emits three expressions over them, one per
    input axis.  The linearized index [B*1 + A*4] stands between
    ["floor("] and ["/stride)"] without parentheses, so the division
    applies to its last term only: the expression for input axis 0 reads
    as [floor(B*1 + (A*4)/12) % 2].  At the output point A=5, B=3, with
    linear index 23, it has the value 0, where
    [floor(23 / 12) mod 2 = 1]. *)
Theorem view_projection_divides_the_last_term_only :
  let text :=
    ("[ floor(B*1 + A*4/12)%2, floor(B*1 + A*4/4)%3, "
     ++ "floor(B*1 + A*4/1)%4 ]")%string in
  let linearized :=
    Projection.Add
      (Projection.Mul (Projection.Var "B") (Projection.Const 1))
      (Projection.Mul (Projection.Var "A") (Projection.Const 4)) in
  let emitted (stride size : Z) :=
    Projection.Mod
      (Projection.Floor
         (Projection.Add
            (Projection.Mul (Projection.Var "B") (Projection.Const 1))
            (Projection.Div
               (Projection.Mul (Projection.Var "A") (Projection.Const 4))
               (Projection.Const stride))))
      (Projection.Const size) in
  let specified (stride size : Z) :=
    Projection.Mod
      (Projection.Floor (Projection.Div linearized (Projection.Const stride)))
      (Projection.Const size) in
  let at_5_3 := valuation ["A"; "B"] [5; 3] in
  (exists doc,
     to_fused_yaml reshape_2x3x4 = Ok doc /\
     dimensions_of doc = Ok (YList [YStr "A"; YStr "B"]) /\
     input_projection_of doc = Ok (YStr text)) /\
  Projection.read text = Some [emitted 12 2; emitted 4 3; emitted 1 4] /\
  in_bounds [6; 4] [5; 3] /\
  linear_index [6; 4] [5; 3] = 23 /\
  coordinate 23 12 2 = 1 /\
  Projection.denotes at_5_3 (specified 12 2) 1 /\
  Projection.denotes at_5_3 (emitted 12 2) 0 /\
  ~ view_projection_as_specified reshape_2x3x4.
Proof.
  intros text linearized emitted specified at_5_3.
  split; [eexists; repeat split; reflexivity|].
  split; [vm_compute; reflexivity|].
  split; [repeat constructor; lia|].
  split; [reflexivity|]. split; [reflexivity|].
  split; [eexists; split; vm_compute; reflexivity|].
  split; [eexists; split; vm_compute; reflexivity|].
  unfold view_projection_as_specified, reshape_2x3x4. intros H.
  destruct (H eq_refl)
    as (doc & dims & text' & exprs & Hdoc & Hdims & _ & _ & Htext & Hread
        & _ & Hval).
  vm_compute in Hdoc. injection Hdoc as <-.
  vm_compute in Htext. injection Htext as <-.
  vm_compute in Hread. injection Hread as <-.
  subst dims.
  assert (Hin : in_bounds [6; 4] [5; 3]) by (repeat constructor; lia).
  specialize (Hval [5; 3] Hin).
  inversion Hval as [|e ss es sss (q & Hq & Heq) _ E1 E2].
  vm_compute in Hq. injection Hq as <-.
  vm_compute in Heq. discriminate Heq.
Qed.

(** X20: for every reshape description with equal element counts, at
    least one axis in each shape and at most 26 output axes, the fused
    translation returns a document whose dimensions are the first
    letters of the alphabet, one per output axis, and whose input
    projection lists one text per input axis: [floor(L/stride)%size] with
    [L] the terms [dim*stride] of the output dimensions, last dimension
    first, joined by [" + "] and not parenthesized, and [stride] and
    [size] the row-major stride and the size of the input axis. *)
Theorem view_projection_per_input_axis (d : t) :
  ifmap_shape d <> [] -> ofmap_shape d <> [] ->
  (List.length (ofmap_shape d) <= 26)%nat ->
  element_count (ifmap_shape d) = element_count (ofmap_shape d) ->
  let dims := uppercase_prefix (len (ofmap_shape d)) in
  exists doc,
    to_fused_yaml d = Ok doc /\
    List.length dims = List.length (ofmap_shape d) /\
    dimensions_of doc = Ok (YList (map YStr dims)) /\
    List.length (emitted_coordinates dims (ifmap_shape d) (ofmap_shape d))
      = List.length (ifmap_shape d) /\
    input_projection_of doc =
      Ok (YStr ("[ " ++ join ", "
                  (emitted_coordinates dims (ifmap_shape d) (ofmap_shape d))
                ++ " ]")%string).
Proof.
  intros Hi Ho H26 Hec dims.
  pose proof (view_to_fused_yaml_document d Hi Ho H26 Hec) as Hdoc.
  cbv zeta in Hdoc. fold dims in Hdoc.
  eexists. split; [exact Hdoc|].
  split; [unfold dims; rewrite length_uppercase_prefix; unfold len; lia|].
  split; [reflexivity|].
  split; [apply length_emitted_coordinates|]. reflexivity.
Qed.

Lemma view_projection_per_input_axis_witness :
  exists doc,
    to_fused_yaml reshape_2x3x4 = Ok doc /\
    dimensions_of doc = Ok (YList [YStr "A"; YStr "B"]) /\
    input_projection_of doc =
      Ok (YStr ("[ floor(B*1 + A*4/12)%2, floor(B*1 + A*4/4)%3, "
                ++ "floor(B*1 + A*4/1)%4 ]")).
Proof.
  destruct (view_projection_per_input_axis reshape_2x3x4)
    as (doc & Hdoc & _ & Hdims & _ & Hproj);
    try discriminate; try (cbn; lia); try reflexivity.
  exists doc. split; [exact Hdoc|]. split; [exact Hdims | exact Hproj].
Defined.

End Reshape.

(* ================================================================== *)
(** * Elementwise descriptions *)
(* ================================================================== *)

Section Elementwise.

Import BinaryElementwiseFuncDescription.

(** ** Dictionaries with distinct keys *)

Lemma dict_set_fresh (d : list (string * yaml)) (k : string) (v : yaml) :
  ~ In k (map fst d) -> dict_set d k v = d ++ [(k, v)].
Proof.
  induction d as [|[k' v'] d IH]; intros Hk; cbn in *; [reflexivity|].
  destruct (String.eqb_spec k' k) as [->|_]; [tauto|].
  rewrite IH; tauto.
Qed.

Lemma dict_of_from (kvs acc : list (string * yaml)) :
  NoDup (map fst (acc ++ kvs)) ->
  fold_left (fun d kv => dict_set d (fst kv) (snd kv)) kvs acc = acc ++ kvs.
Proof.
  revert acc. induction kvs as [|[k v] kvs IH]; intros acc Hnd.
  - cbn. now rewrite app_nil_r.
  - cbn [fold_left fst snd].
    assert (Hk : ~ In k (map fst acc)).
    { rewrite map_app in Hnd. cbn in Hnd.
      apply NoDup_remove_2 in Hnd. intros Hin. apply Hnd.
      apply in_or_app. now left. }
    rewrite (dict_set_fresh _ _ _ Hk).
    rewrite IH; rewrite <- app_assoc; [reflexivity | exact Hnd].
Qed.

Lemma dict_of_distinct (kvs : list (string * yaml)) :
  NoDup (map fst kvs) -> dict_of kvs = kvs.
Proof. intros H. unfold dict_of. now rewrite dict_of_from. Qed.

Lemma In_firstn {A} (n : nat) (l : list A) (x : A) :
  In x (firstn n l) -> In x l.
Proof.
  revert n. induction l as [|a l IH]; intros [|n]; cbn; try tauto.
  intros [->|H]; [now left | right; eauto].
Qed.

Lemma NoDup_firstn {A} (n : nat) (l : list A) : NoDup l -> NoDup (firstn n l).
Proof.
  revert n. induction l as [|a l IH]; intros [|n] H; cbn; try constructor.
  - inversion H; subst. intros Hin. apply In_firstn in Hin. contradiction.
  - inversion H; subst. now apply IH.
Qed.

Lemma NoDup_keys_combine {A B} (ks : list A) (vs : list B) :
  NoDup ks -> NoDup (map fst (combine ks vs)).
Proof.
  revert vs. induction ks as [|k ks IH]; intros [|v vs] H; cbn;
    try constructor.
  - inversion H; subst. intros Hin. apply in_map_iff in Hin.
    destruct Hin as ([k' v'] & E & Hin). cbn in E. subst k'.
    apply in_combine_l in Hin. contradiction.
  - inversion H; subst. now apply IH.
Qed.

Lemma NoDup_ascii_uppercase : NoDup (chars ascii_uppercase).
Proof.
  cbv [chars ascii_uppercase].
  repeat (constructor; [cbn; intuition discriminate|]). constructor.
Qed.

Lemma NoDup_uppercase_prefix (n : Z) : NoDup (uppercase_prefix n).
Proof. apply NoDup_firstn, NoDup_ascii_uppercase. Qed.

Lemma dict_get_combine (ks : list string) (vs : list yaml)
    (i : nat) (k : string) (v : yaml) :
  NoDup ks -> nth_error ks i = Some k -> nth_error vs i = Some v ->
  dict_get (combine ks vs) k = Some v.
Proof.
  revert vs i. induction ks as [|k0 ks IH]; intros [|v0 vs] [|i] Hnd Hk Hv;
    cbn in *; try discriminate.
  - injection Hk as ->. injection Hv as ->. now rewrite String.eqb_refl.
  - inversion Hnd; subst.
    destruct (String.eqb_spec k0 k) as [->|_].
    + exfalso. apply nth_error_In in Hk. contradiction.
    + eapply IH; eauto.
Qed.

(** ** The legacy translation, step by step *)

Lemma length_padded (ofmap_shape shape : list Z) :
  len shape <= len ofmap_shape ->
  len (padded ofmap_shape shape) = len ofmap_shape.
Proof.
  unfold padded, len. intros H.
  rewrite length_app, repeat_length. lia.
Qed.

Lemma normalized_padded (ofmap_shape shape : list Z) :
  len shape <= len ofmap_shape ->
  normalized ofmap_shape shape = padded ofmap_shape shape.
Proof.
  unfold normalized. intros H.
  destruct (Z.ltb_spec (len shape) (len ofmap_shape)) as [_|Hge];
    [reflexivity|].
  unfold padded. replace (len ofmap_shape - len shape) with 0 by lia.
  reflexivity.
Qed.

Lemma length_normalized (ofmap_shape shape : list Z) :
  (len (normalized ofmap_shape shape) =? len ofmap_shape)
  = (len shape <=? len ofmap_shape).
Proof.
  destruct (Z.leb_spec (len shape) (len ofmap_shape)) as [H|H].
  - rewrite normalized_padded, length_padded by assumption.
    apply Z.eqb_refl.
  - unfold normalized.
    destruct (Z.ltb_spec (len shape) (len ofmap_shape)) as [?|_]; [lia|].
    apply Z.eqb_neq. lia.
Qed.

Lemma pad_and_check_run (d : t) :
  pad_and_check d =
  (after_padding d,
   if (len (ifmap1_shape d) <=? len (ofmap_shape d))
      && (len (ifmap2_shape d) <=? len (ofmap_shape d))
   then Ok tt else Raise AssertionError).
Proof.
  destruct d as [nm s1 s2 so n1 n2 no].
  unfold pad_and_check, after_padding, bind, get, when, modify, assert, ret,
    raise.
  cbn [ifmap1_shape ifmap2_shape ofmap_shape name ifmap1_name ifmap2_name
       ofmap_name with_ifmap1_shape with_ifmap2_shape].
  rewrite <- (length_normalized so s1), <- (length_normalized so s2).
  unfold normalized.
  destruct (len s1 <? len so); cbn [ifmap1_shape ifmap2_shape ofmap_shape name
    ifmap1_name ifmap2_name ofmap_name with_ifmap1_shape with_ifmap2_shape];
  destruct (len s2 <? len so); cbn [ifmap1_shape ifmap2_shape ofmap_shape name
    ifmap1_name ifmap2_name ofmap_name with_ifmap1_shape with_ifmap2_shape];
  destruct (len _ =? len so); cbn [andb]; try reflexivity;
  destruct (len _ =? len so); reflexivity.
Qed.

Lemma binary_to_yaml_run (d : t) :
  to_yaml d =
  let d1 := after_padding d in
  if (len (ifmap1_shape d) <=? len (ofmap_shape d))
     && (len (ifmap2_shape d) <=? len (ofmap_shape d))
  then match product (ifmap1_shape d1) with
       | Ok prod =>
           let d2 := if prod =? 1
                     then with_name d1 (name d1 ++ "_exhaustive")%string
                     else d1 in
           (d2, Ok (config d2))
       | Raise e => (d1, Raise e)
       end
  else (d1, Raise AssertionError).
Proof.
  unfold to_yaml. unfold bind at 1. rewrite pad_and_check_run.
  destruct (_ && _); [|reflexivity].
  unfold bind, get, lift, when, modify, ret. cbv zeta.
  destruct (product _) as [prod|e]; [|reflexivity].
  destruct (prod =? 1); reflexivity.
Qed.

Lemma binary_to_fused_yaml_run (d : t) :
  to_fused_yaml d =
  let d1 := after_padding d in
  if (len (ifmap1_shape d) <=? len (ofmap_shape d))
     && (len (ifmap2_shape d) <=? len (ofmap_shape d))
  then (d1, Ok (config d1))
  else (d1, Raise AssertionError).
Proof.
  unfold to_fused_yaml. unfold bind at 1. rewrite pad_and_check_run.
  destruct (_ && _); reflexivity.
Qed.


Lemma element_count_padded (ofmap_shape shape : list Z) :
  element_count (padded ofmap_shape shape) = element_count shape.
Proof.
  unfold padded. induction (Z.to_nat _) as [|n IH]; [reflexivity|].
  cbn [repeat app]. unfold element_count in *. cbn [fold_right].
  rewrite IH. lia.
Qed.

Lemma product_ok (l : list Z) (prod : Z) :
  product l = Ok prod -> prod = element_count l /\ l <> [].
Proof.
  destruct l as [|x xs]; [discriminate|].
  rewrite product_cons. intros [= <-]. split; [reflexivity | discriminate].
Qed.

(** C10: whenever the legacy translation of an elementwise description
    returns a document, its instance bounds pair the dimension names, in
    order, with the extents of the left-padded first input shape, so the
    bound of a dimension is the extent the first input has there (1 where
    it is broadcast), whatever the output extent is; and the name carries
    the suffix exactly when the product of ifmap1_shape is 1.  A document
    is returned whenever the rank checks pass and the output has at least
    one axis. *)
Theorem binary_bounds_from_first_input (d : t) :
  let shape1 := padded (ofmap_shape d) (ifmap1_shape d) in
  let dims := uppercase_prefix (len (ofmap_shape d)) in
  (forall d' doc,
     to_yaml d = (d', Ok doc) ->
     instance_of doc = Ok (YDict (combine dims (map YInt shape1))) /\
     (forall i dim v,
        nth_error dims i = Some dim -> nth_error shape1 i = Some v ->
        (inst <- instance_of doc ;; getitem inst dim)%py = Ok (YInt v)) /\
     name_of doc =
       Ok (YStr (if element_count (ifmap1_shape d) =? 1
                 then (name d ++ "_exhaustive")%string else name d))) /\
  (len (ifmap1_shape d) <= len (ofmap_shape d) ->
   len (ifmap2_shape d) <= len (ofmap_shape d) ->
   ofmap_shape d <> [] ->
   exists d' doc, to_yaml d = (d', Ok doc)).
Proof.
  intros shape1 dims. rewrite binary_to_yaml_run. cbv zeta.
  destruct d as [nm s1 s2 so n1 n2 no].
  cbn [after_padding ifmap1_shape ifmap2_shape ofmap_shape name] in *.
  destruct (Z.leb_spec (len s1) (len so)) as [H1|H1]; cbn [andb].
  2:{ split; [intros d' doc [= _ ?]; discriminate | intros; lia]. }
  destruct (Z.leb_spec (len s2) (len so)) as [H2|H2].
  2:{ split; [intros d' doc [= _ ?]; discriminate | intros; lia]. }
  rewrite (normalized_padded so s1 H1). fold shape1.
  assert (Hnd : NoDup dims) by apply NoDup_uppercase_prefix.
  split.
  - destruct (product shape1) as [prod|e] eqn:Hprod;
      [|intros d' doc [= _ ?]; discriminate].
    apply product_ok in Hprod. destruct Hprod as [-> _].
    pose proof (element_count_padded so s1) as Hec. fold shape1 in Hec.
    rewrite <- Hec.
    intros d' doc [= <- <-].
    assert (Hinst : forall d2,
              ifmap1_shape d2 = shape1 -> ofmap_shape d2 = so ->
              instance_of (config d2)
              = Ok (YDict (combine dims (map YInt shape1)))).
    { intros d2 E1 E2. unfold config, instance_of. rewrite E1, E2.
      fold dims. cbn [getitem dict_get String.eqb Ascii.eqb Bool.eqb].
      cbn. rewrite dict_of_distinct by now apply NoDup_keys_combine.
      reflexivity. }
    destruct (element_count shape1 =? 1);
      (split; [apply Hinst; reflexivity|]);
      (split; [|reflexivity]);
      intros i dim v Hd Hv; rewrite Hinst by reflexivity; cbn [rbind getitem];
      erewrite dict_get_combine; eauto;
      rewrite nth_error_map, Hv; reflexivity.
  - intros _ _ Hne.
    assert (Hs1 : shape1 <> []).
    { intros E. apply (f_equal len) in E. unfold shape1 in E.
      rewrite length_padded in E by assumption.
      destruct so; [congruence | discriminate E]. }
    rewrite (product_nonempty _ Hs1). eauto.
Qed.

Lemma binary_bounds_from_first_input_witness :
  exists d' doc,
    to_yaml broadcast_add = (d', Ok doc) /\
    instance_of doc = Ok (YDict [("A", YInt 1); ("B", YInt 3)]) /\
    name_of doc = Ok (YStr "add").
Proof.
  destruct (binary_bounds_from_first_input broadcast_add) as [HA HB].
  destruct HB as (d' & doc & H); [cbn; lia | cbn; lia | discriminate|].
  exists d', doc. split; [exact H|].
  destruct (HA d' doc H) as (Hi & _ & Hn). split; [exact Hi | exact Hn].
Defined.

End Elementwise.

(* ================================================================== *)
(** * What a translation call changes *)
(* ================================================================== *)

Section Frame.

Variable load : string -> result yaml.

Lemma append_empty_r (s : string) : (s ++ "")%string = s.
Proof. induction s as [|c s IH]; cbn; congruence. Qed.

Lemma name_extended_refl (s : string) : name_extended s s.
Proof. exists ""%string. now rewrite append_empty_r. Qed.

Lemma name_extended_append (s suffix : string) :
  name_extended s (s ++ suffix)%string.
Proof. now exists suffix. Qed.

Lemma conv_transpose_to_yaml_frame (c : ConvTransposeLayerDescription.t) :
  frame (ConvTranspose c)
        (ConvTranspose (fst (ConvTransposeLayerDescription.to_yaml c))).
Proof.
  unfold ConvTransposeLayerDescription.to_yaml, bind, get, lift, modify, ret.
  destruct (floordiv _ _); cbn [fst frame].
  - destruct (floordiv _ _); cbn [fst].
    + eexists. split; [apply name_extended_append | reflexivity].
    + exists (ConvTransposeLayerDescription.name c).
      split; [apply name_extended_refl | now destruct c].
  - exists (ConvTransposeLayerDescription.name c).
    split; [apply name_extended_refl | now destruct c].
Qed.

Lemma conv_transpose_to_fused_yaml_frame (c : ConvTransposeLayerDescription.t) :
  frame (ConvTranspose c)
        (ConvTranspose (fst (ConvTransposeLayerDescription.to_fused_yaml c))).
Proof.
  unfold ConvTransposeLayerDescription.to_fused_yaml, bind, get, lift,
    modify, ret.
  destruct (floordiv _ _); cbn [fst frame].
  - destruct (floordiv _ _); cbn [fst].
    + eexists. split; [apply name_extended_append | reflexivity].
    + exists (ConvTransposeLayerDescription.name c).
      split; [apply name_extended_refl | now destruct c].
  - exists (ConvTransposeLayerDescription.name c).
    split; [apply name_extended_refl | now destruct c].
Qed.

Lemma binary_to_yaml_frame (c : BinaryElementwiseFuncDescription.t) :
  frame (BinaryElementwise c)
        (BinaryElementwise (fst (BinaryElementwiseFuncDescription.to_yaml c))).
Proof.
  rewrite binary_to_yaml_run. cbv zeta.
  destruct c as [nm s1 s2 so n1 n2 no].
  cbn [frame after_padding BinaryElementwiseFuncDescription.ifmap1_shape
       BinaryElementwiseFuncDescription.ifmap2_shape
       BinaryElementwiseFuncDescription.ofmap_shape].
  destruct (_ && _); cbn [fst].
  - destruct (product _) as [prod|e]; cbn [fst].
    + destruct (prod =? 1).
      * eexists. split; [apply name_extended_append | reflexivity].
      * exists nm. split; [apply name_extended_refl | reflexivity].
    + exists nm. split; [apply name_extended_refl | reflexivity].
  - exists nm. split; [apply name_extended_refl | reflexivity].
Qed.

Lemma binary_to_fused_yaml_frame (c : BinaryElementwiseFuncDescription.t) :
  frame (BinaryElementwise c)
        (BinaryElementwise
           (fst (BinaryElementwiseFuncDescription.to_fused_yaml c))).
Proof.
  rewrite binary_to_fused_yaml_run. cbv zeta.
  destruct c as [nm s1 s2 so n1 n2 no].
  cbn [frame after_padding BinaryElementwiseFuncDescription.ifmap1_shape
       BinaryElementwiseFuncDescription.ifmap2_shape
       BinaryElementwiseFuncDescription.ofmap_shape].
  destruct (_ && _); cbn [fst];
    exists nm; (split; [apply name_extended_refl | reflexivity]).
Qed.

(** A sequence of steps that do not assign to [self] leaves it as it is. *)
Lemma bind_lift_state {S A B} (r : result A) (k : A -> M S B) (s : S) :
  (forall a, fst (k a s) = s) -> fst (bind (lift r) k s) = s.
Proof.
  intros Hk. unfold bind, lift. destruct r; [apply Hk | reflexivity].
Qed.

Lemma matmul_to_yaml_state (c : MatmulFuncDescription.t) :
  fst (MatmulFuncDescription.to_yaml load c) =
  match LayerDescription.to_yaml load MatmulFuncDescription.problem_template
          (YStr (MatmulFuncDescription.name c)),
        MatmulFuncDescription.extra_dims c with
  | Ok _, None => MatmulFuncDescription.with_extra_dims c (Some [])
  | _, _ => c
  end.
Proof.
  unfold MatmulFuncDescription.to_yaml.
  unfold bind at 1. unfold get at 1.
  unfold bind at 1. unfold lift at 1.
  destruct (LayerDescription.to_yaml _ _ _) as [config|e]; [|reflexivity].
  unfold bind at 1.
  destruct (MatmulFuncDescription.extra_dims c) as [ed|] eqn:Hed.
  - unfold ret at 1. unfold bind at 1, get at 1.
    repeat (apply bind_lift_state; intros ?). reflexivity.
  - unfold bind at 1, modify at 1, ret at 1.
    unfold bind at 1, get at 1.
    repeat (apply bind_lift_state; intros ?). reflexivity.
Qed.

Lemma matmul_to_yaml_frame (c : MatmulFuncDescription.t) :
  frame (Matmul c) (Matmul (fst (MatmulFuncDescription.to_yaml load c))).
Proof.
  cbn [frame]. rewrite matmul_to_yaml_state.
  destruct (LayerDescription.to_yaml _ _ _); [|now left].
  destruct (MatmulFuncDescription.extra_dims c) eqn:E; [now left|].
  right. now split.
Qed.

(** C2, as stated, fails: the legacy translation of [broadcast_add] leaves
    ifmap1_shape (1,3) where (3,) was stored, and the translation of
    [plain_matmul] leaves the empty tuple in extra_dims where None was
    stored. *)
Lemma translation_assigns_shapes_and_extra_dims :
  BinaryElementwiseFuncDescription.ifmap1_shape
    (fst (BinaryElementwiseFuncDescription.to_yaml broadcast_add))
  <> BinaryElementwiseFuncDescription.ifmap1_shape broadcast_add /\
  MatmulFuncDescription.extra_dims
    (fst (MatmulFuncDescription.to_yaml sample_templates plain_matmul))
  <> MatmulFuncDescription.extra_dims plain_matmul.
Proof. split; vm_compute; discriminate. Qed.

(** C2 (amended): a translation call, legacy or fused, of any kind of
    description leaves every stored field as it was, except that the name
    may have a suffix appended, that the elementwise translations store
    the input shapes left-padded with 1 to the output rank when they are
    shorter, and that the matmul translation stores the empty tuple in
    extra_dims when it held None. *)
Theorem translate_frame (md : mode) (d : description) :
  frame d (fst (translate load md d)).
Proof.
  destruct md, d as [c|c|c|c|c|c|c|c]; unfold translate, on, pure_method, raise;
    try (cbn [fst frame]; reflexivity).
  - pose proof (conv_transpose_to_yaml_frame c) as H.
    destruct (ConvTransposeLayerDescription.to_yaml c); exact H.
  - pose proof (binary_to_yaml_frame c) as H.
    destruct (BinaryElementwiseFuncDescription.to_yaml c); exact H.
  - pose proof (matmul_to_yaml_frame c) as H.
    destruct (MatmulFuncDescription.to_yaml load c); exact H.
  - pose proof (conv_transpose_to_fused_yaml_frame c) as H.
    destruct (ConvTransposeLayerDescription.to_fused_yaml c); exact H.
  - pose proof (binary_to_fused_yaml_frame c) as H.
    destruct (BinaryElementwiseFuncDescription.to_fused_yaml c); exact H.
  - cbn [fst frame]. now left.
Qed.

End Frame.

(* ================================================================== *)
(** * Output extents of either sign *)
(* ================================================================== *)

Section Truncation.

Lemma int_of_float_opp (m e : Z) :
  int_of_float (mkfloat (- m) e) = - int_of_float (mkfloat m e).
Proof.
  unfold int_of_float. cbn [mant expo].
  destruct (Z.leb_spec 0 e); [lia|].
  apply Z.quot_opp_l. apply Z.pow_nonzero; lia.
Qed.

Lemma truediv_truncates (a b : Z) :
  Z.abs a < 2 ^ 53 -> b <> 0 ->
  exists x, truediv a b = Ok x /\ int_of_float x = Z.quot a b.
Proof.
  intros Ha Hb. unfold truediv.
  destruct (Z.eqb_spec b 0) as [?|_]; [contradiction|].
  destruct (Z.eqb_spec a 0) as [->|Hne].
  - eexists. split; [reflexivity|]. now rewrite Z.quot_0_l.
  - destruct (truediv_pos_small (Z.abs a) (Z.abs b) ltac:(lia) ltac:(lia))
      as ([mx ex] & Hx & Hi).
    rewrite Hx. cbn [rbind mant expo]. eexists. split; [reflexivity|].
    rewrite <- Z.quot_div_nonneg in Hi by lia.
    destruct (Z.abs_spec a) as [[Ha0 Ea]|[Ha0 Ea]];
      destruct (Z.abs_spec b) as [[Hb0 Eb]|[Hb0 Eb]];
      rewrite Ea, Eb in Hi.
    + rewrite (Z.sgn_pos a), (Z.sgn_pos b) by lia.
      replace (1 * 1 * mx) with mx by lia. exact Hi.
    + rewrite (Z.sgn_pos a), (Z.sgn_neg b) by lia.
      replace (1 * -1 * mx) with (- mx) by lia.
      rewrite int_of_float_opp, Hi, Z.quot_opp_r by lia. lia.
    + rewrite (Z.sgn_neg a), (Z.sgn_pos b) by lia.
      replace (-1 * 1 * mx) with (- mx) by lia.
      rewrite int_of_float_opp, Hi, Z.quot_opp_l by lia. lia.
    + rewrite (Z.sgn_neg a), (Z.sgn_neg b) by lia.
      replace (-1 * -1 * mx) with mx by lia.
      rewrite Hi. apply Z.quot_opp_opp. lia.
Qed.

Lemma out_extent_truncates (extent kernel pad stride : Z) :
  Z.abs (extent - kernel + 2 * pad) < 2 ^ 53 -> stride <> 0 ->
  out_extent extent kernel pad stride =
  Ok (Z.quot (extent - kernel + 2 * pad) stride + 1).
Proof.
  intros Hn Hs. unfold out_extent.
  destruct (truediv_truncates _ _ Hn Hs) as (x & -> & Hi). cbn [rbind].
  now rewrite Hi.
Qed.

(** X7: the output extents of a convolution and of a pooling description
    round towards zero, not down: with a stride that is not zero and a
    numerator [n] of either sign below 2^53 in magnitude, [p] and [q]
    return [n quot stride + 1].  A kernel larger than the padded input
    gives a numerator below zero, where this differs from the floor. *)
Theorem extents_round_towards_zero
    (c : ConvLayerDescription.t) (m : MaxPoolLayerDescription.t) :
  (ConvLayerDescription.w_stride c <> 0 ->
   Z.abs (ConvLayerDescription.w c - ConvLayerDescription.s c
          + 2 * ConvLayerDescription.w_pad c) < 2 ^ 53 ->
   ConvLayerDescription.q c =
     Ok (Z.quot (ConvLayerDescription.w c - ConvLayerDescription.s c
                 + 2 * ConvLayerDescription.w_pad c)
                (ConvLayerDescription.w_stride c) + 1)) /\
  (ConvLayerDescription.h_stride c <> 0 ->
   Z.abs (ConvLayerDescription.h c - ConvLayerDescription.r c
          + 2 * ConvLayerDescription.h_pad c) < 2 ^ 53 ->
   ConvLayerDescription.p c =
     Ok (Z.quot (ConvLayerDescription.h c - ConvLayerDescription.r c
                 + 2 * ConvLayerDescription.h_pad c)
                (ConvLayerDescription.h_stride c) + 1)) /\
  (MaxPoolLayerDescription.w_stride m <> 0 ->
   Z.abs (MaxPoolLayerDescription.w m - MaxPoolLayerDescription.s m
          + 2 * MaxPoolLayerDescription.w_pad m) < 2 ^ 53 ->
   MaxPoolLayerDescription.q m =
     Ok (Z.quot (MaxPoolLayerDescription.w m - MaxPoolLayerDescription.s m
                 + 2 * MaxPoolLayerDescription.w_pad m)
                (MaxPoolLayerDescription.w_stride m) + 1)) /\
  (MaxPoolLayerDescription.h_stride m <> 0 ->
   Z.abs (MaxPoolLayerDescription.h m - MaxPoolLayerDescription.r m
          + 2 * MaxPoolLayerDescription.h_pad m) < 2 ^ 53 ->
   MaxPoolLayerDescription.p m =
     Ok (Z.quot (MaxPoolLayerDescription.h m - MaxPoolLayerDescription.r m
                 + 2 * MaxPoolLayerDescription.h_pad m)
                (MaxPoolLayerDescription.h_stride m) + 1)).
Proof.
  repeat split; intros Hs Hn; apply out_extent_truncates; assumption.
Qed.

(** A 3 by 3 input under a 6 by 6 kernel with stride 2: the numerator is
    -3, and p = q = int(-1.5) + 1 = 0, where the floor gives -1. *)
Lemma extents_round_towards_zero_witness :
  let c := conv "conv" 1 8 3 3 3 1 6 6 0 0 2 2 "x" "f" "y" in
  ConvLayerDescription.q c = Ok 0 /\ ConvLayerDescription.p c = Ok 0 /\
  (ConvLayerDescription.w c - ConvLayerDescription.s c
   + 2 * ConvLayerDescription.w_pad c) / ConvLayerDescription.w_stride c + 1
  = -1.
Proof.
  intro c.
  destruct (extents_round_towards_zero c
              (MaxPoolLayerDescription.mk "pool" 3 3 1 1 6 6 0 0 2 2 "x" "y"))
    as (Hq & Hp & _).
  split; [apply Hq; cbn; lia|]. split; [apply Hp; cbn; lia|]. reflexivity.
Defined.

End Truncation.

(* ================================================================== *)
(** * Assignment and lookup in documents *)
(* ================================================================== *)

Section Documents.

Lemma rbind_ok {A B} (r : result A) (k : A -> result B) (b : B) :
  rbind r k = Ok b -> exists a, r = Ok a /\ k a = Ok b.
Proof. destruct r as [a|e]; [eauto | discriminate]. Qed.

Lemma dict_get_set_same (d : list (string * yaml)) (k : string) (v : yaml) :
  dict_get (dict_set d k v) k = Some v.
Proof.
  induction d as [|[k' v'] d IH]; cbn.
  - now rewrite String.eqb_refl.
  - destruct (String.eqb_spec k' k) as [->|Hne]; cbn.
    + now rewrite String.eqb_refl.
    + destruct (String.eqb_spec k' k); [contradiction | exact IH].
Qed.

Lemma dict_get_set_other (d : list (string * yaml)) (k k' : string)
    (v : yaml) :
  k <> k' -> dict_get (dict_set d k v) k' = dict_get d k'.
Proof.
  intros Hne. induction d as [|[k0 v0] d IH]; cbn.
  - destruct (String.eqb_spec k k'); [contradiction | reflexivity].
  - destruct (String.eqb_spec k0 k) as [->|Hne0]; cbn.
    + destruct (String.eqb_spec k k'); [contradiction | reflexivity].
    + now rewrite IH.
Qed.

Lemma getitem_setitem_same (y y' : yaml) (k : string) (v : yaml) :
  Yaml.setitem y k v = Ok y' -> getitem y' k = Ok v.
Proof.
  destruct y; try discriminate. intros [= <-]. cbn.
  now rewrite dict_get_set_same.
Qed.

Lemma getitem_setitem_other (y y' : yaml) (k k' : string) (v : yaml) :
  Yaml.setitem y k v = Ok y' -> k <> k' -> getitem y' k' = getitem y k'.
Proof.
  destruct y; try discriminate. intros [= <-] Hne. cbn.
  now rewrite dict_get_set_other.
Qed.

(** After [y[p1]...[pn][k] = v] the lookup [y[p1]...[pn][k]] gives [v]. *)
Lemma get_path_set_path_same (path : list string) :
  forall (y y' : yaml) (k : string) (v : yaml),
    set_path y path k v = Ok y' -> get_path y' (path ++ [k]) = Ok v.
Proof.
  induction path as [|p ps IH]; intros y y' k v H; cbn in *.
  - now rewrite (getitem_setitem_same _ _ _ _ H).
  - apply rbind_ok in H. destruct H as (sub & Hsub & H).
    apply rbind_ok in H. destruct H as (sub' & Hset & H).
    rewrite (getitem_setitem_same _ _ _ _ H). cbn. eauto.
Qed.

(** A lookup along a path that leaves the assigned path at some key sees
    what it saw before the assignment. *)
Lemma get_path_set_path_other (path : list string) :
  forall (y y' : yaml) (k : string) (v : yaml) (q : list string),
    set_path y path k v = Ok y' ->
    diverge (path ++ [k]) q = true ->
    get_path y' q = get_path y q.
Proof.
  induction path as [|p ps IH]; intros y y' k v q H Hd; cbn in *.
  - destruct q as [|b q]; [discriminate|].
    destruct (String.eqb_spec k b) as [->|Hne];
      [destruct q; discriminate|].
    cbn. now rewrite (getitem_setitem_other _ _ _ _ _ H Hne).
  - destruct q as [|b q]; [discriminate|].
    apply rbind_ok in H. destruct H as (sub & Hsub & H).
    apply rbind_ok in H. destruct H as (sub' & Hset & H).
    destruct (String.eqb_spec p b) as [->|Hne]; cbn.
    + rewrite (getitem_setitem_same _ _ _ _ H), Hsub. cbn. eauto.
    + now rewrite (getitem_setitem_other _ _ _ _ _ H Hne).
Qed.

(** An assignment below a dictionary succeeds and leaves a dictionary. *)
Lemma set_path_into_dict (path : list string) :
  forall (y : yaml) (d : list (string * yaml)) (k : string) (v : yaml),
    get_path y path = Ok (YDict d) ->
    exists y', set_path y path k v = Ok y' /\
               get_path y' path = Ok (YDict (dict_set d k v)).
Proof.
  induction path as [|p ps IH]; intros y d k v H; cbn in *.
  - injection H as ->. eexists. split; reflexivity.
  - apply rbind_ok in H. destruct H as (sub & Hsub & H).
    destruct (IH sub d k v H) as (sub' & Hset & Hget).
    rewrite Hsub. cbn. rewrite Hset. cbn.
    destruct y; try discriminate. cbn.
    eexists. split; [reflexivity|]. cbn. rewrite dict_get_set_same. cbn.
    exact Hget.
Qed.

Lemma diverge_last (path : list string) (k k' : string) :
  k <> k' -> diverge (path ++ [k]) (path ++ [k']) = true.
Proof.
  intros Hne. induction path as [|p ps IH]; cbn.
  - destruct (String.eqb_spec k k'); [contradiction | reflexivity].
  - now rewrite String.eqb_refl.
Qed.

End Documents.

(* ================================================================== *)
(** * More on the classifiers *)
(* ================================================================== *)

Section MoreClassifiers.

Import Converter.

Ltac inv_bind H x E :=
  apply rbind_ok in H; destruct H as (x & E & H).

Lemma index_ok_iff {A} (l : list A) (i : Z) :
  0 <= i -> (succeeds (index l i) = true <-> i < len l).
Proof.
  intros Hi. unfold index, len.
  assert (E0 : (i <? 0) = false) by (apply Z.ltb_ge; lia).
  rewrite !E0.
  destruct (nth_error l (Z.to_nat i)) eqn:E; cbn.
  - split; [intros _|reflexivity].
    assert (Z.to_nat i < List.length l)%nat
      by (apply nth_error_Some; congruence).
    lia.
  - split; [discriminate|]. apply nth_error_None in E. lia.
Qed.

Lemma index_nth_error {A} (l : list A) (i : nat) (x : A) :
  index l (Z.of_nat i) = Ok x <-> nth_error l i = Some x.
Proof.
  unfold index.
  assert (E0 : (Z.of_nat i <? 0) = false) by (apply Z.ltb_ge; lia).
  rewrite !E0, Nat2Z.id.
  destruct (nth_error l i); split; congruence.
Qed.

(** X1: the classifier of matrix products returns a description exactly for
    two rank-2 operands and for a first operand of rank above 2 whose
    leading dimensions equal those of the second; it then never fails on
    an index, and the description holds positions 0 and 1 of the
    operands, the output name [name_out] and the leading dimensions of
    the first operand. *)
Theorem generate_matmul_func_returns
    (input1 input2 output : Tensor) (name input1_name input2_name : string) :
  (List.length (shape input1) = 2%nat /\
   List.length (shape input2) = 2%nat) \/
  ((2 < List.length (shape input1))%nat /\
   leading_dims (shape input1) = leading_dims (shape input2)) ->
  exists m n k,
    nth_error (shape input1) 0 = Some m /\
    nth_error (shape input2) 1 = Some n /\
    nth_error (shape input1) 1 = Some k /\
    generate_matmul_func input1 input2 output name input1_name input2_name
    = Ok (MatmulFuncDescription.mk name m n k input1_name input2_name
            (name ++ "_out")%string (Some (leading_dims (shape input1)))).
Proof.
  intros H. unfold generate_matmul_func, len.
  destruct input1 as [s1], input2 as [s2]. cbn [shape] in *.
  destruct H as [[H1 H2]|[H1 H2]].
  - rewrite H1, H2. cbn [Z.of_nat Z.eqb Pos.eqb Pos.of_succ_nat Pos.succ andb].
    destruct s1 as [|m [|k [|? ?]]]; try discriminate.
    destruct s2 as [|k' [|n [|? ?]]]; try discriminate.
    exists m, n, k. repeat split; reflexivity.
  - assert (Hlen2 : List.length s2 = List.length s1).
    { apply (f_equal (@List.length Z)) in H2. unfold leading_dims in H2.
      rewrite !length_firstn in H2. lia. }
    destruct (Z.eqb_spec (Z.of_nat (List.length s1)) 2) as [?|_]; [lia|].
    cbn [andb].
    destruct (Z.ltb_spec 2 (Z.of_nat (List.length s1))) as [_|?]; [|lia].
    rewrite !slice_to_minus_2.
    destruct (list_eq_dec Z.eq_dec _ _) as [_|?]; [|contradiction].
    cbn [andb].
    destruct s1 as [|m [|k [|? ?]]]; cbn in H1; try lia.
    destruct s2 as [|b [|n [|? ?]]]; cbn in Hlen2; try lia.
    exists m, n, k. repeat split; reflexivity.
Qed.

Lemma generate_matmul_func_returns_witness :
  exists m n k,
    nth_error [2; 3; 4; 8] 0 = Some m /\
    nth_error [2; 3; 8; 16] 1 = Some n /\
    nth_error [2; 3; 4; 8] 1 = Some k /\
    generate_matmul_func (mkTensor [2; 3; 4; 8]) (mkTensor [2; 3; 8; 16])
      (mkTensor [2; 3; 4; 16]) "scores" "q" "k"
    = Ok (MatmulFuncDescription.mk "scores" m n k "q" "k" "scores_out"
            (Some [2; 3])).
Proof.
  apply (generate_matmul_func_returns (mkTensor [2; 3; 4; 8])
           (mkTensor [2; 3; 8; 16]) (mkTensor [2; 3; 4; 16])).
  right. split; [cbn; lia | reflexivity].
Defined.

(** X2: a linear layer is described as a convolution whose translation has
    spatial and kernel extents 1: for every layer and every input with a
    batch axis the instance region is
    {G:1, C:in_features, M:out_features, N:batch, R:1, S:1, P:1, Q:1}. *)
Theorem linear_layer_instance
    (module : Linear.t) (batch : Z) (rest : list Z) (output : Tensor)
    (name ifmap_name : string) :
  exists d doc,
    generate_description_Linear module (mkTensor (batch :: rest)) output
      name ifmap_name = Ok d /\
    ConvLayerDescription.to_yaml d = Ok doc /\
    instance_of doc =
      Ok (YDict [("G", YInt 1); ("C", YInt (Linear.in_features module));
                 ("M", YInt (Linear.out_features module));
                 ("N", YInt batch); ("R", YInt 1); ("S", YInt 1);
                 ("P", YInt 1); ("Q", YInt 1)]).
Proof.
  eexists. eexists. split; [reflexivity|].
  unfold ConvLayerDescription.to_yaml, ConvLayerDescription.p,
    ConvLayerDescription.q.
  cbn [ConvLayerDescription.c ConvLayerDescription.g ConvLayerDescription.m
       ConvLayerDescription.w ConvLayerDescription.h ConvLayerDescription.s
       ConvLayerDescription.r ConvLayerDescription.w_pad
       ConvLayerDescription.h_pad ConvLayerDescription.w_stride
       ConvLayerDescription.h_stride ConvLayerDescription.n
       ConvLayerDescription.name].
  unfold floordiv. change (1 =? 0) with false. cbv iota. cbn [rbind].
  rewrite !Z.div_1_r.
  change (out_extent 1 1 0 1) with (@Ok Z 1). cbn [rbind].
  split; reflexivity.
Qed.

Lemma conv_p_mk name g m w h c n s r w_pad h_pad w_stride h_stride
    ifmap_name filter_name ofmap_name :
  ConvLayerDescription.p
    (ConvLayerDescription.mk name g m w h c n s r w_pad h_pad w_stride
       h_stride ifmap_name filter_name ofmap_name)
  = out_extent h r h_pad h_stride.
Proof. reflexivity. Qed.

Lemma conv_q_mk name g m w h c n s r w_pad h_pad w_stride h_stride
    ifmap_name filter_name ofmap_name :
  ConvLayerDescription.q
    (ConvLayerDescription.mk name g m w h c n s r w_pad h_pad w_stride
       h_stride ifmap_name filter_name ofmap_name)
  = out_extent w s w_pad w_stride.
Proof. reflexivity. Qed.

(** X3: the convolution that stands for a transposed convolution has the
    input extents of the transposed convolution as its output extents:
    its numerators are [(in - 1) * stride], so [p] and [q] return the
    input height and width whenever the strides are not zero and the
    numerators are binary64 integers. *)
Theorem conv_transpose_handler_inverts_extents
    (module : ConvTranspose2d.t) (input output : Tensor)
    (name ifmap_name : string)
    (d : ConvLayerDescription.t) :
  generate_description_ConvTranspose2d module input output name ifmap_name
    = Ok d ->
  exists in_h in_w stride_h stride_w,
    index (shape input) 2 = Ok in_h /\
    index (shape input) 3 = Ok in_w /\
    index (ConvTranspose2d.stride module) 0 = Ok stride_h /\
    index (ConvTranspose2d.stride module) 1 = Ok stride_w /\
    (stride_h <> 0 -> Z.abs ((in_h - 1) * stride_h) < 2 ^ 53 ->
     ConvLayerDescription.p d = Ok in_h) /\
    (stride_w <> 0 -> Z.abs ((in_w - 1) * stride_w) < 2 ^ 53 ->
     ConvLayerDescription.q d = Ok in_w).
Proof.
  unfold generate_description_ConvTranspose2d. intros H.
  inv_bind H in_h Eh. inv_bind H stride_h Esh.
  inv_bind H pad_h Eph. inv_bind H kernel_h Ekh.
  inv_bind H in_w Ew. inv_bind H stride_w Esw.
  inv_bind H pad_w Epw. inv_bind H kernel_w Ekw.
  inv_bind H m Em. inv_bind H c Ec. inv_bind H n En.
  inv_bind H s Es. inv_bind H r Er.
  inv_bind H w_pad Ewp. inv_bind H h_pad Ehp.
  inv_bind H w_stride Ews. inv_bind H h_stride Ehs.
  match type of H with
  | Ok ?t = Ok _ => assert (Hd : d = t) by congruence; clear H; subst d
  end.
  assert (s = kernel_w) by congruence. assert (r = kernel_h) by congruence.
  assert (w_pad = pad_w) by congruence. assert (h_pad = pad_h) by congruence.
  assert (w_stride = stride_w) by congruence.
  assert (h_stride = stride_h) by congruence.
  subst s r w_pad h_pad w_stride h_stride.
  exists in_h, in_w, stride_h, stride_w.
  repeat split; try assumption.
  - intros Hs Hb. rewrite conv_p_mk.
    assert (En' : (in_h - 1) * stride_h - 2 * pad_h + 1 * (kernel_h - 1)
                  + 0 + 1 - kernel_h + 2 * pad_h = (in_h - 1) * stride_h)
      by ring.
    rewrite out_extent_truncates by (rewrite ?En'; assumption).
    rewrite En', Z.quot_mul by assumption. f_equal. ring.
  - intros Hs Hb. rewrite conv_q_mk.
    assert (En' : (in_w - 1) * stride_w - 2 * pad_w + 1 * (kernel_w - 1)
                  + 0 + 1 - kernel_w + 2 * pad_w = (in_w - 1) * stride_w)
      by ring.
    rewrite out_extent_truncates by (rewrite ?En'; assumption).
    rewrite En', Z.quot_mul by assumption. f_equal. ring.
Qed.

Lemma conv_transpose_handler_inverts_extents_witness :
  let module := ConvTranspose2d.mk 1 [4; 4] [1; 1] [2; 2] in
  exists d,
    generate_description_ConvTranspose2d module (mkTensor [1; 16; 8; 8])
      (mkTensor [1; 8; 16; 16]) "up" "x" = Ok d /\
    ConvLayerDescription.h d = 16 /\
    ConvLayerDescription.p d = Ok 8 /\ ConvLayerDescription.q d = Ok 8.
Proof.
  intro module. eexists. split; [reflexivity|]. split; [reflexivity|].
  destruct (conv_transpose_handler_inverts_extents module
              (mkTensor [1; 16; 8; 8]) (mkTensor [1; 8; 16; 16]) "up" "x"
              _ eq_refl)
    as (in_h & in_w & sh & sw & E1 & E2 & E3 & E4 & Hp & Hq).
  injection E1 as <-. injection E2 as <-.
  injection E3 as <-. injection E4 as <-.
  split; [apply Hp | apply Hq]; cbn; lia.
Defined.

Lemma index_raises_index_error {A} (l : list A) (i : Z) :
  succeeds (index l i) = false -> index l i = Raise IndexError.
Proof.
  unfold index. destruct (_ <? 0); [reflexivity|].
  destruct (nth_error l _); [discriminate | reflexivity].
Qed.

(** X4: the handler of max pooling returns a description exactly when the
    input has at least 4 axes and every attribute given as a tuple has at
    least 2 components; otherwise it raises IndexError.  An attribute
    given as an [int] stands for the pair of that integer twice. *)
Theorem maxpool2d_handler_returns
    (module : MaxPool2d.t) (input output : Tensor)
    (name ifmap_name : string) :
  (succeeds (generate_description_MaxPool2d module input output
               name ifmap_name) = true <->
   4 <= len (shape input) /\
   2 <= len (as_pair (MaxPool2d.kernel_size module)) /\
   2 <= len (as_pair (MaxPool2d.stride module)) /\
   2 <= len (as_pair (MaxPool2d.padding module))) /\
  (~ (4 <= len (shape input) /\
      2 <= len (as_pair (MaxPool2d.kernel_size module)) /\
      2 <= len (as_pair (MaxPool2d.stride module)) /\
      2 <= len (as_pair (MaxPool2d.padding module))) ->
   generate_description_MaxPool2d module input output name ifmap_name
   = Raise IndexError) /\
  (forall kernel stride padding n c h w rest,
     MaxPool2d.kernel_size module = IntArg kernel ->
     MaxPool2d.stride module = IntArg stride ->
     MaxPool2d.padding module = IntArg padding ->
     shape input = n :: c :: h :: w :: rest ->
     generate_description_MaxPool2d module input output name ifmap_name
     = Ok (MaxPoolLayerDescription.mk name w h c n kernel kernel
             padding padding stride stride ifmap_name
             (name ++ "_out")%string)).
Proof.
  assert (Hiff :
    succeeds (generate_description_MaxPool2d module input output
                name ifmap_name) = true <->
    4 <= len (shape input) /\
    2 <= len (as_pair (MaxPool2d.kernel_size module)) /\
    2 <= len (as_pair (MaxPool2d.stride module)) /\
    2 <= len (as_pair (MaxPool2d.padding module))).
  { unfold generate_description_MaxPool2d.
    set (ks := as_pair (MaxPool2d.kernel_size module)).
    set (st := as_pair (MaxPool2d.stride module)).
    set (pd := as_pair (MaxPool2d.padding module)).
    split.
    + intros H.
      destruct (index (shape input) 3) eqn:E3; [|discriminate].
      assert (H3 : 3 < len (shape input))
        by (apply index_ok_iff; [lia | now rewrite E3]).
      cbn [rbind] in H.
      destruct (index (shape input) 2); [|discriminate].
      destruct (index (shape input) 1); [|discriminate]. cbn [rbind] in H.
      destruct (index ks 1) eqn:Ek; [|discriminate].
      assert (1 < len ks) by (apply index_ok_iff; [lia | now rewrite Ek]).
      destruct (index ks 0); [|discriminate]. cbn [rbind] in H.
      destruct (index st 1) eqn:Es; [|discriminate].
      assert (1 < len st) by (apply index_ok_iff; [lia | now rewrite Es]).
      destruct (index st 0); [|discriminate]. cbn [rbind] in H.
      destruct (index pd 1) eqn:Ep; [|discriminate].
      assert (1 < len pd) by (apply index_ok_iff; [lia | now rewrite Ep]).
      lia.
    + intros (Hi & Hk & Hs & Hp).
      destruct (index_in_range (shape input) 3 ltac:(lia)) as (? & ->).
      destruct (index_in_range (shape input) 2 ltac:(lia)) as (? & ->).
      destruct (index_in_range (shape input) 1 ltac:(lia)) as (? & ->).
      destruct (index_in_range ks 1 ltac:(lia)) as (? & ->).
      destruct (index_in_range ks 0 ltac:(lia)) as (? & ->).
      destruct (index_in_range st 1 ltac:(lia)) as (? & ->).
      destruct (index_in_range st 0 ltac:(lia)) as (? & ->).
      destruct (index_in_range pd 1 ltac:(lia)) as (? & ->).
      destruct (index_in_range pd 0 ltac:(lia)) as (? & ->).
      destruct (index_in_range (shape input) 0 ltac:(lia)) as (? & ->).
      reflexivity. }
  split; [exact Hiff|]. split.
  - intros Hnot.
    assert (Hfail : succeeds (generate_description_MaxPool2d module input
                                output name ifmap_name) = false).
    { destruct (succeeds _) eqn:E; [|reflexivity].
      exfalso. apply Hnot, Hiff. reflexivity. }
    clear Hnot Hiff. revert Hfail. unfold generate_description_MaxPool2d.
    cbv zeta.
    repeat match goal with
    | |- succeeds (rbind (index ?l ?i) _) = false -> _ =>
        let E := fresh "E" in
        destruct (index l i) eqn:E;
        [ cbn [rbind]
        | intros _; cbn [rbind];
          pose proof (index_raises_index_error l i) as X;
          rewrite E in X; specialize (X eq_refl); congruence ]
    end.
    discriminate.
  - intros kernel stride padding n c h w rest Ek Es Ep Ei.
    unfold generate_description_MaxPool2d. rewrite Ek, Es, Ep, Ei.
    reflexivity.
Qed.

Lemma maxpool2d_handler_returns_witness :
  generate_description_MaxPool2d
    (MaxPool2d.mk (IntArg 3) (IntArg 2) (IntArg 1))
    (mkTensor [1; 64; 112; 112]) (mkTensor [1; 64; 56; 56]) "pool" "x"
  = Ok (MaxPoolLayerDescription.mk "pool" 112 112 64 1 3 3 1 1 2 2 "x"
          "pool_out") /\
  generate_description_MaxPool2d
    (MaxPool2d.mk (TupleArg [3]) (IntArg 2) (IntArg 1))
    (mkTensor [1; 64; 112; 112]) (mkTensor [1; 64; 56; 56]) "pool" "x"
  = Raise IndexError.
Proof.
  split.
  - exact (proj2 (proj2 (maxpool2d_handler_returns
                  (MaxPool2d.mk (IntArg 3) (IntArg 2) (IntArg 1))
                  (mkTensor [1; 64; 112; 112]) (mkTensor [1; 64; 56; 56])
                  "pool" "x"))
             3 2 1 1 64 112 112 [] eq_refl eq_refl eq_refl eq_refl).
  - apply (proj1 (proj2 (maxpool2d_handler_returns
                  (MaxPool2d.mk (TupleArg [3]) (IntArg 2) (IntArg 1))
                  (mkTensor [1; 64; 112; 112]) (mkTensor [1; 64; 56; 56])
                  "pool" "x"))).
    cbn. lia.
Defined.

(** X6: the pooling description that stands for an adaptive average pooling
    of a 4-dimensional input has the output extents of the layer as its
    derived extents: its numerators are [(out - 1) * stride], so [p] and
    [q] return [out_h] and [out_w] whenever the strides [in // out] are
    not zero and the numerators are binary64 integers. *)
Theorem adaptive_avg_pool_extents_round_trip
    (n c in_h in_w out_h out_w : Z) (lead : list Z)
    (name ifmap_name : string) :
  out_h <> 0 -> out_w <> 0 ->
  in_h / out_h <> 0 -> in_w / out_w <> 0 ->
  Z.abs ((out_h - 1) * (in_h / out_h)) < 2 ^ 53 ->
  Z.abs ((out_w - 1) * (in_w / out_w)) < 2 ^ 53 ->
  exists d,
    generate_description_AdaptiveAvgPool2d (mkTensor [n; c; in_h; in_w])
      (mkTensor (lead ++ [out_h; out_w])) name ifmap_name = Ok d /\
    MaxPoolLayerDescription.p d = Ok out_h /\
    MaxPoolLayerDescription.q d = Ok out_w.
Proof.
  intros Hh Hw Hsh Hsw Hbh Hbw.
  unfold generate_description_AdaptiveAvgPool2d. cbn [shape].
  rewrite !index_last, !index_before_last.
  change (index [n; c; in_h; in_w] (-1)) with (@Ok Z in_w).
  change (index [n; c; in_h; in_w] (-2)) with (@Ok Z in_h).
  change (index [n; c; in_h; in_w] 3) with (@Ok Z in_w).
  change (index [n; c; in_h; in_w] 2) with (@Ok Z in_h).
  change (index [n; c; in_h; in_w] 1) with (@Ok Z c).
  change (index [n; c; in_h; in_w] 0) with (@Ok Z n).
  cbn [rbind]. unfold floordiv.
  destruct (Z.eqb_spec out_w 0) as [?|_]; [contradiction|].
  destruct (Z.eqb_spec out_h 0) as [?|_]; [contradiction|].
  cbn [rbind]. eexists. split; [reflexivity|].
  unfold MaxPoolLayerDescription.p, MaxPoolLayerDescription.q.
  cbn [MaxPoolLayerDescription.h MaxPoolLayerDescription.r
       MaxPoolLayerDescription.h_pad MaxPoolLayerDescription.h_stride
       MaxPoolLayerDescription.w MaxPoolLayerDescription.s
       MaxPoolLayerDescription.w_pad MaxPoolLayerDescription.w_stride].
  assert (Eh : in_h - (in_h - (out_h - 1) * (in_h / out_h)) + 2 * 0
               = (out_h - 1) * (in_h / out_h)) by ring.
  assert (Ew : in_w - (in_w - (out_w - 1) * (in_w / out_w)) + 2 * 0
               = (out_w - 1) * (in_w / out_w)) by ring.
  split.
  - rewrite out_extent_truncates by (rewrite ?Eh; assumption).
    rewrite Eh, Z.quot_mul by assumption. f_equal. ring.
  - rewrite out_extent_truncates by (rewrite ?Ew; assumption).
    rewrite Ew, Z.quot_mul by assumption. f_equal. ring.
Qed.

Lemma adaptive_avg_pool_extents_round_trip_witness :
  exists d,
    generate_description_AdaptiveAvgPool2d (mkTensor [1; 512; 14; 14])
      (mkTensor [1; 512; 3; 3]) "avgpool" "x" = Ok d /\
    MaxPoolLayerDescription.s d = 6 /\
    MaxPoolLayerDescription.p d = Ok 3 /\
    MaxPoolLayerDescription.q d = Ok 3.
Proof.
  destruct (adaptive_avg_pool_extents_round_trip 1 512 14 14 3 3 [1; 512]
              "avgpool" "x") as (d & Hd & Hp & Hq);
    try discriminate; try (cbn; lia).
  exists d. split; [exact Hd|]. split; [|split; assumption].
  cbn in Hd. injection Hd as <-. reflexivity.
Defined.

End MoreClassifiers.

(* ================================================================== *)
(** * Translations that start from a template *)
(* ================================================================== *)

Section TemplateTranslations.

Ltac inv_bind H x E :=
  apply rbind_ok in H; destruct H as (x & E & H).

(** Reading a key back through a chain of assignments. *)
Ltac read_back :=
  repeat match goal with
    | H : set_path ?c ?path ?k ?v = Ok ?c' |- get_path ?c' ?q = _ =>
        first [ exact (get_path_set_path_same path c c' k v H)
              | rewrite (get_path_set_path_other path c c' k v q H eq_refl) ]
    end.

(** Reading a bound none of the assignments names. *)
Ltac read_through dim Hnot :=
  repeat match goal with
    | H : set_path ?c ?path ?k ?v = Ok ?c' |- get_path ?c' ?q = _ =>
        rewrite (get_path_set_path_other path c c' k v q H)
          by first [ reflexivity
                   | apply (diverge_last ["problem"; "instance"] k dim);
                     intros E; apply Hnot; cbn; tauto ]
    end.

(** One more assignment into the instance region. *)
Ltac assign_bound Hinst k v :=
  match type of Hinst with
  | get_path ?c _ = Ok (YDict ?d) =>
      let c' := fresh "c" in
      let Hset := fresh "Hset" in
      let Hget := fresh "Hget" in
      destruct (set_path_into_dict ["problem"; "instance"] c d k v Hinst)
        as (c' & Hset & Hget);
      rewrite Hset; cbn [rbind]; clear Hinst; rename Hget into Hinst
  end.

(** What the base class returns, against the template. *)
Lemma layer_to_yaml_sets_the_name_aux (load : string -> result yaml)
    (problem_template : string) (name doc : yaml) :
  LayerDescription.to_yaml load problem_template name = Ok doc ->
  exists t,
    load (template_path problem_template) = Ok t /\
    problem_name doc = Ok name /\
    forall q, diverge ["problem"; "shape"; "name"] q = true ->
              get_path doc q = get_path t q.
Proof.
  unfold LayerDescription.to_yaml, LayerDescription.get_workload,
    template_path, problem_name.
  intros H. inv_bind H t Ht. exists t. split; [exact Ht|].
  split; [read_back|]. intros q Hq.
  exact (get_path_set_path_other _ _ _ _ _ q H Hq).
Qed.

(** The base class returns a document for a template with a shape
    region, and the shape region of the document is a dictionary. *)
Lemma layer_to_yaml_returns_aux (load : string -> result yaml)
    (problem_template : string) (name t : yaml)
    (shape : list (string * yaml)) :
  load (template_path problem_template) = Ok t ->
  get_path t ["problem"; "shape"] = Ok (YDict shape) ->
  exists doc,
    LayerDescription.to_yaml load problem_template name = Ok doc /\
    get_path doc ["problem"; "shape"]
      = Ok (YDict (dict_set shape "name" name)).
Proof.
  unfold LayerDescription.to_yaml, LayerDescription.get_workload,
    template_path.
  intros -> Hs. cbn [rbind].
  destruct (set_path_into_dict _ _ _ "name" name Hs) as (doc & -> & Hg).
  eauto.
Qed.

(** X14: the translation of the base class fails as the loading of the
    template fails; it returns a document whenever the template has a
    shape region, and the document is the template with the name of the
    description in that region: every lookup that does not go through
    the name sees the template. *)
Theorem layer_to_yaml_sets_the_name (load : string -> result yaml)
    (problem_template : string) (name : yaml) :
  (forall e,
     load (template_path problem_template) = Raise e ->
     LayerDescription.to_yaml load problem_template name = Raise e) /\
  (forall t shape,
     load (template_path problem_template) = Ok t ->
     get_path t ["problem"; "shape"] = Ok (YDict shape) ->
     exists doc,
       LayerDescription.to_yaml load problem_template name = Ok doc) /\
  (forall doc,
     LayerDescription.to_yaml load problem_template name = Ok doc ->
     exists t,
       load (template_path problem_template) = Ok t /\
       problem_name doc = Ok name /\
       forall q, diverge ["problem"; "shape"; "name"] q = true ->
                 get_path doc q = get_path t q).
Proof.
  unfold LayerDescription.to_yaml, LayerDescription.get_workload,
    template_path, problem_name.
  split; [|split].
  - intros e ->. reflexivity.
  - intros t shape Ht Hs.
    destruct (layer_to_yaml_returns_aux load problem_template name t shape)
      as (doc & Hd & _); try assumption.
    exists doc. exact Hd.
  - intros doc H.
    apply (layer_to_yaml_sets_the_name_aux load problem_template name doc).
    unfold LayerDescription.to_yaml, LayerDescription.get_workload,
      template_path. exact H.
Qed.

Lemma layer_to_yaml_sets_the_name_witness :
  exists doc,
    LayerDescription.to_yaml bare_templates "pool" (YStr "pool1") = Ok doc /\
    problem_name doc = Ok (YStr "pool1") /\
    instance_bound doc "Z" = Ok (YInt 0).
Proof.
  destruct (layer_to_yaml_sets_the_name bare_templates "pool" (YStr "pool1"))
    as (_ & Hret & Hdoc).
  destruct (Hret bare_template _ eq_refl eq_refl) as (doc & Hd).
  exists doc. split; [exact Hd|].
  destruct (Hdoc doc Hd) as (t & Ht & Hn & Hq). split; [exact Hn|].
  unfold instance_bound. rewrite Hq by reflexivity.
  injection Ht as <-. reflexivity.
Defined.

(** The template after the base class has put the name in. *)
Lemma layer_to_yaml_keeps_instance (load : string -> result yaml)
    (problem_template : string) (name c0 t : yaml)
    (inst : list (string * yaml)) :
  load (template_path problem_template) = Ok t ->
  LayerDescription.to_yaml load problem_template name = Ok c0 ->
  get_path t ["problem"; "instance"] = Ok (YDict inst) ->
  get_path c0 ["problem"; "instance"] = Ok (YDict inst).
Proof.
  intros Ht H Hi.
  destruct (layer_to_yaml_sets_the_name_aux load problem_template name c0 H)
    as (t' & Ht' & _ & Hq).
  rewrite Hq by reflexivity. congruence.
Qed.

(** X15: the translation of a pooling description returns a document
    whenever the template has a shape and an instance region and [p] and
    [q] return; the document carries the name, gives R, S, P, Q, C, N,
    Wstride and Hstride the kernel, the derived extents, the channels,
    the batch and the strides of the description, and leaves every other
    bound of the template as it is. *)
Theorem maxpool_to_yaml_bounds (load : string -> result yaml)
    (self : MaxPoolLayerDescription.t) :
  (forall t shape inst pv qv,
     load (template_path "pool") = Ok t ->
     get_path t ["problem"; "shape"] = Ok (YDict shape) ->
     get_path t ["problem"; "instance"] = Ok (YDict inst) ->
     MaxPoolLayerDescription.p self = Ok pv ->
     MaxPoolLayerDescription.q self = Ok qv ->
     exists doc, MaxPoolLayerDescription.to_yaml load self = Ok doc) /\
  (forall doc,
     MaxPoolLayerDescription.to_yaml load self = Ok doc ->
     exists t pv qv,
       load (template_path "pool") = Ok t /\
       MaxPoolLayerDescription.p self = Ok pv /\
       MaxPoolLayerDescription.q self = Ok qv /\
       problem_name doc = Ok (YStr (MaxPoolLayerDescription.name self)) /\
       instance_bound doc "R" = Ok (YInt (MaxPoolLayerDescription.r self)) /\
       instance_bound doc "S" = Ok (YInt (MaxPoolLayerDescription.s self)) /\
       instance_bound doc "P" = Ok (YInt pv) /\
       instance_bound doc "Q" = Ok (YInt qv) /\
       instance_bound doc "C" = Ok (YInt (MaxPoolLayerDescription.c self)) /\
       instance_bound doc "N" = Ok (YInt (MaxPoolLayerDescription.n self)) /\
       instance_bound doc "Wstride"
         = Ok (YInt (MaxPoolLayerDescription.w_stride self)) /\
       instance_bound doc "Hstride"
         = Ok (YInt (MaxPoolLayerDescription.h_stride self)) /\
       forall dim,
         ~ In dim ["R"; "S"; "P"; "Q"; "C"; "N"; "Wstride"; "Hstride"] ->
         instance_bound doc dim = instance_bound t dim).
Proof.
  unfold MaxPoolLayerDescription.to_yaml, instance_bound, problem_name.
  split.
  - intros t shape inst pv qv Ht Hs Hi Hp Hq.
    destruct (layer_to_yaml_returns_aux load "pool"
                (YStr (MaxPoolLayerDescription.name self)) t shape Ht Hs)
      as (c0 & H0 & _).
    pose proof (layer_to_yaml_keeps_instance load _ _ _ _ _ Ht H0 Hi)
      as Hinst.
    unfold MaxPoolLayerDescription.problem_template. rewrite H0.
    cbn [rbind].
    assign_bound Hinst "R" (YInt (MaxPoolLayerDescription.r self)).
    assign_bound Hinst "S" (YInt (MaxPoolLayerDescription.s self)).
    rewrite Hp. cbn [rbind]. assign_bound Hinst "P" (YInt pv).
    rewrite Hq. cbn [rbind]. assign_bound Hinst "Q" (YInt qv).
    assign_bound Hinst "C" (YInt (MaxPoolLayerDescription.c self)).
    assign_bound Hinst "N" (YInt (MaxPoolLayerDescription.n self)).
    assign_bound Hinst "Wstride"
      (YInt (MaxPoolLayerDescription.w_stride self)).
    destruct (set_path_into_dict ["problem"; "instance"] _ _ "Hstride"
                (YInt (MaxPoolLayerDescription.h_stride self)) Hinst)
      as (doc & Hlast & _).
    eauto.
  - intros doc H.
    inv_bind H c0 H0. inv_bind H c1 H1. inv_bind H c2 H2.
    inv_bind H pv Hp. inv_bind H c3 H3. inv_bind H qv Hq.
    inv_bind H c4 H4. inv_bind H c5 H5. inv_bind H c6 H6.
    inv_bind H c7 H7.
    destruct (layer_to_yaml_sets_the_name_aux load _ _ _ H0)
      as (t & Ht & Hname & Hframe).
    exists t, pv, qv. unfold problem_name in Hname.
    repeat (split; [first [assumption | read_back; assumption
                          | read_back]|]).
    intros dim Hnot. read_through dim Hnot. apply Hframe. reflexivity.
Qed.

Lemma maxpool_to_yaml_bounds_witness :
  let self := MaxPoolLayerDescription.mk "pool1" 112 112 64 1 3 3 1 1 2 2
                "x" "pool1_out" in
  exists doc,
    MaxPoolLayerDescription.to_yaml bare_templates self = Ok doc /\
    instance_bound doc "P" = Ok (YInt 56) /\
    instance_bound doc "Wstride" = Ok (YInt 2) /\
    instance_bound doc "Z" = Ok (YInt 0).
Proof.
  intro self.
  destruct (maxpool_to_yaml_bounds bare_templates self) as (Hret & Hdoc).
  destruct (Hret bare_template _ _ 56 56 eq_refl eq_refl eq_refl
              eq_refl eq_refl) as (doc & Hd).
  exists doc. split; [exact Hd|].
  destruct (Hdoc doc Hd)
    as (t & pv & qv & Ht & Hp & Hq & _ & _ & _ & HP & _ & _ & _ & HW & _
        & Hother).
  injection Ht as <-.
  assert (pv = 56) by (vm_compute in Hp; congruence). subst pv.
  split; [exact HP|]. split; [exact HW|].
  rewrite Hother; [reflexivity|].
  cbn. intuition discriminate.
Defined.

(** X16: the translation of a matrix product described as a convolution gives
    R, Q, C and the strides the bound 1, S the contraction size [k], P
    the rows [m], M the columns [n] and N the batch size, carries the
    name (None when the description has none), and leaves every other
    bound of the template as it is; it returns a document whenever the
    template has a shape and an instance region. *)
Theorem matrix_multiply_to_yaml_bounds (load : string -> result yaml)
    (self : MatrixMatrixMultiplyLayerDescription.t) :
  (forall t shape inst,
     load (template_path "convolution") = Ok t ->
     get_path t ["problem"; "shape"] = Ok (YDict shape) ->
     get_path t ["problem"; "instance"] = Ok (YDict inst) ->
     exists doc,
       MatrixMatrixMultiplyLayerDescription.to_yaml load self = Ok doc) /\
  (forall doc,
     MatrixMatrixMultiplyLayerDescription.to_yaml load self = Ok doc ->
     exists t,
       load (template_path "convolution") = Ok t /\
       problem_name doc
         = Ok (MatrixMatrixMultiplyLayerDescription.name_value self) /\
       instance_bound doc "R" = Ok (YInt 1) /\
       instance_bound doc "S"
         = Ok (YInt (MatrixMatrixMultiplyLayerDescription.k self)) /\
       instance_bound doc "P"
         = Ok (YInt (MatrixMatrixMultiplyLayerDescription.m self)) /\
       instance_bound doc "Q" = Ok (YInt 1) /\
       instance_bound doc "C" = Ok (YInt 1) /\
       instance_bound doc "M"
         = Ok (YInt (MatrixMatrixMultiplyLayerDescription.n self)) /\
       instance_bound doc "N"
         = Ok (YInt (MatrixMatrixMultiplyLayerDescription.batch_size self)) /\
       instance_bound doc "Wstride" = Ok (YInt 1) /\
       instance_bound doc "Hstride" = Ok (YInt 1) /\
       forall dim,
         ~ In dim ["R"; "S"; "P"; "Q"; "C"; "M"; "N"; "Wstride"; "Hstride"] ->
         instance_bound doc dim = instance_bound t dim).
Proof.
  unfold MatrixMatrixMultiplyLayerDescription.to_yaml, instance_bound,
    problem_name.
  split.
  - intros t shape inst Ht Hs Hi.
    destruct (layer_to_yaml_returns_aux load "convolution"
                (MatrixMatrixMultiplyLayerDescription.name_value self)
                t shape Ht Hs) as (c0 & H0 & Hshape).
    pose proof (layer_to_yaml_keeps_instance load _ _ _ _ _ Ht H0 Hi)
      as Hinst.
    revert Hshape. generalize (dict_set shape "name"
      (MatrixMatrixMultiplyLayerDescription.name_value self)).
    intros sh Hshape.
    unfold MatrixMatrixMultiplyLayerDescription.problem_template.
    rewrite H0. cbn [rbind].
    assert (Hkeep : forall c c' k v,
               set_path c ["problem"; "instance"] k v = Ok c' ->
               get_path c ["problem"; "shape"] = Ok (YDict sh) ->
               get_path c' ["problem"; "shape"] = Ok (YDict sh)).
    { intros c c' k v Hset Hg.
      rewrite (get_path_set_path_other _ _ _ _ _ ["problem"; "shape"] Hset
                 eq_refl). exact Hg. }
    repeat match type of Hinst with
           | get_path ?c _ = Ok (YDict ?d) =>
               match goal with
               | |- context [set_path c ["problem"; "instance"] ?k ?v] =>
                   let c' := fresh "c" in
                   let Hset := fresh "Hset" in
                   let Hget := fresh "Hget" in
                   destruct (set_path_into_dict ["problem"; "instance"]
                               c d k v Hinst) as (c' & Hset & Hget);
                   rewrite Hset; cbn [rbind];
                   pose proof (Hkeep _ _ _ _ Hset Hshape) as Hshape';
                   clear Hinst Hshape;
                   rename Hget into Hinst; rename Hshape' into Hshape
               end
           end.
    destruct (set_path_into_dict ["problem"; "shape"] _ _ "name"
                (MatrixMatrixMultiplyLayerDescription.name_value self)
                Hshape) as (doc & Hlast & _).
    eauto.
  - intros doc H.
    inv_bind H c0 H0. inv_bind H c1 H1. inv_bind H c2 H2.
    inv_bind H c3 H3. inv_bind H c4 H4. inv_bind H c5 H5.
    inv_bind H c6 H6. inv_bind H c7 H7. inv_bind H c8 H8.
    inv_bind H c9 H9.
    destruct (layer_to_yaml_sets_the_name_aux load _ _ _ H0)
      as (t & Ht & Hname & Hframe).
    exists t. unfold problem_name in Hname.
    repeat (split; [first [assumption | read_back]|]).
    intros dim Hnot. read_through dim Hnot. apply Hframe. reflexivity.
Qed.

Lemma matrix_multiply_to_yaml_bounds_witness :
  let self := MatrixMatrixMultiplyLayerDescription.mk None 128 64 768 8 in
  exists doc,
    MatrixMatrixMultiplyLayerDescription.to_yaml bare_templates self
      = Ok doc /\
    problem_name doc = Ok YNone /\
    instance_bound doc "S" = Ok (YInt 768) /\
    instance_bound doc "N" = Ok (YInt 8).
Proof.
  intro self.
  destruct (matrix_multiply_to_yaml_bounds bare_templates self)
    as (Hret & Hdoc).
  destruct (Hret bare_template _ _ eq_refl eq_refl eq_refl) as (doc & Hd).
  exists doc. split; [exact Hd|].
  destruct (Hdoc doc Hd)
    as (t & _ & Hn & _ & HS & _ & _ & _ & _ & HN & _).
  auto.
Defined.

(** A loop over a sequence of the document changes nothing outside it. *)
Lemma for_each_at_other (y y' : yaml) (path : list string) (last : string)
    (body : yaml -> result yaml) (q : list string) :
  for_each_at y path last body = Ok y' ->
  diverge (path ++ [last]) q = true ->
  get_path y' q = get_path y q.
Proof.
  unfold for_each_at. intros H Hd.
  inv_bind H parent Hp. inv_bind H sq Hs. inv_bind H items Hi.
  inv_bind H items' Hm.
  destruct sq; try (injection H as <-; reflexivity).
  exact (get_path_set_path_other _ _ _ _ _ q H Hd).
Qed.

Lemma slice_to_minus_1 {A} (l : list A) (x : A) :
  slice_to (l ++ [x]) (-1) = l.
Proof.
  unfold slice_to, len. cbn [Z.ltb Z.compare].
  rewrite length_app. cbn [List.length].
  replace (Z.to_nat (Z.max 0 (Z.of_nat (List.length l + 1) + -1)))
    with (List.length l + 0)%nat by lia.
  rewrite firstn_app_2. cbn. apply app_nil_r.
Qed.

Lemma index_minus_1 {A} (l : list A) (x : A) :
  index (l ++ [x]) (-1) = Ok x.
Proof.
  unfold index, len. cbn [Z.ltb Z.compare].
  rewrite length_app. cbn [List.length].
  destruct (Z.ltb_spec (Z.of_nat (List.length l + 1) + -1) 0) as [?|_];
    [lia|].
  replace (Z.to_nat (Z.of_nat (List.length l + 1) + -1))
    with (List.length l + 0)%nat by lia.
  rewrite nth_error_app2 by lia.
  replace (List.length l + 0 - List.length l)%nat with 0%nat by lia.
  reflexivity.
Qed.

Lemma firstn_succ_nth {A} (l : list A) (k : nat) (x : A) :
  nth_error l k = Some x -> firstn (S k) l = firstn k l ++ [x].
Proof.
  revert k. induction l as [|a l IH]; intros [|k] H; cbn in *;
    try discriminate.
  - now injection H as ->.
  - f_equal. now apply IH.
Qed.

Lemma uppercase_prefix_succ (n : Z) :
  0 <= n < 26 ->
  exists x, uppercase_prefix (n + 1) = uppercase_prefix n ++ [x].
Proof.
  intros Hn. unfold uppercase_prefix, slice_to.
  destruct (Z.ltb_spec (n + 1) 0) as [?|_]; [lia|].
  destruct (Z.ltb_spec n 0) as [?|_]; [lia|].
  replace (Z.to_nat (n + 1)) with (S (Z.to_nat n)) by lia.
  destruct (nth_error (chars ascii_uppercase) (Z.to_nat n)) as [x|] eqn:E.
  - exists x. now apply firstn_succ_nth.
  - apply nth_error_None in E.
    change (List.length (chars ascii_uppercase)) with 26%nat in E. lia.
Qed.

Lemma combine_snoc {A B} (l : list A) (m : list B) (x : A) (y : B) :
  List.length l = List.length m ->
  combine (l ++ [x]) (m ++ [y]) = combine l m ++ [(x, y)].
Proof.
  revert m. induction l as [|a l IH]; intros [|b m] H; cbn in *;
    try discriminate; [reflexivity|].
  f_equal. apply IH. lia.
Qed.

(** X17: whenever the translation of a softmax description with at most 25
    input axes returns a document, [softmax_dim] is an index of the
    output shape, counted from the end when negative, and the instance
    region of the document is a new dictionary: the first letters bound
    to the input extents, in order, and the next letter bound to the
    output extent along [softmax_dim]; the bounds of the template are
    gone, the name is that of the description. *)
Theorem softmax_to_yaml_instance (load : string -> result yaml)
    (self : SoftmaxFuncDescription.t) (doc : yaml) :
  SoftmaxFuncDescription.to_yaml load self = Ok doc ->
  len (SoftmaxFuncDescription.ifmap_shape self) <= 25 ->
  exists size,
    index (SoftmaxFuncDescription.ofmap_shape self)
          (SoftmaxFuncDescription.softmax_dim self) = Ok size /\
    get_path doc ["problem"; "instance"] =
      Ok (YDict
            (combine
               (uppercase_prefix
                  (len (SoftmaxFuncDescription.ifmap_shape self) + 1))
               (map YInt
                    (SoftmaxFuncDescription.ifmap_shape self ++ [size])))) /\
    problem_name doc = Ok (YStr (SoftmaxFuncDescription.name self)).
Proof.
  unfold SoftmaxFuncDescription.to_yaml, problem_name. intros H Hn.
  set (ishape := SoftmaxFuncDescription.ifmap_shape self) in *.
  assert (Hn0 : 0 <= len ishape) by (unfold len; lia).
  destruct (uppercase_prefix_succ (len ishape) ltac:(lia)) as (x & Hdims).
  rewrite Hdims in H |- *. rewrite slice_to_minus_1, index_minus_1 in H.
  inv_bind H c0 H0. inv_bind H c1 H1. inv_bind H size Hsize.
  cbn [rbind] in H.
  exists size. split; [exact Hsize|].
  destruct (layer_to_yaml_sets_the_name_aux load _ _ _ H0)
    as (t & _ & Hname & _).
  split.
  - change ["problem"; "instance"] with (["problem"] ++ ["instance"]).
    rewrite (get_path_set_path_same ["problem"] _ _ _ _ H). do 2 f_equal.
    assert (Hnd : NoDup (uppercase_prefix (len ishape) ++ [x]))
      by (rewrite <- Hdims; apply NoDup_uppercase_prefix).
    assert (Hlen : List.length (uppercase_prefix (len ishape))
                   = List.length (map YInt ishape)).
    { rewrite length_map, length_uppercase_prefix by lia.
      unfold len. lia. }
    rewrite dict_of_distinct
      by (apply NoDup_keys_combine; eapply NoDup_app_remove_r; exact Hnd).
    rewrite dict_set_fresh.
    + rewrite map_app. cbn [map]. now rewrite combine_snoc.
    + rewrite map_fst_combine by exact Hlen.
      apply NoDup_remove_2 in Hnd. rewrite app_nil_r in Hnd. exact Hnd.
  - rewrite (get_path_set_path_other ["problem"] _ _ _ _
               ["problem"; "shape"; "name"] H eq_refl).
    rewrite (for_each_at_other _ _ _ _ _ ["problem"; "shape"; "name"] H1
               eq_refl).
    exact Hname.
Qed.

Lemma softmax_to_yaml_instance_witness :
  let self := SoftmaxFuncDescription.mk "softmax" [8; 12; 128; 128]
                [8; 12; 128; 128] "scores" "probs" (-1) in
  exists doc,
    SoftmaxFuncDescription.to_yaml bare_templates self = Ok doc /\
    get_path doc ["problem"; "instance"] =
      Ok (YDict [("A", YInt 8); ("B", YInt 12); ("C", YInt 128);
                 ("D", YInt 128); ("E", YInt 128)]).
Proof.
  intro self. eexists. split; [reflexivity|].
  destruct (softmax_to_yaml_instance bare_templates self _ eq_refl)
    as (size & Hsize & Hinst & _); [cbn; lia|].
  injection Hsize as <-. exact Hinst.
Defined.

End TemplateTranslations.

(* ================================================================== *)
(** * The translation of a matrix product *)
(* ================================================================== *)

Section MatmulTranslation.

Ltac inv_bind H x E :=
  apply rbind_ok in H; destruct H as (x & E & H).

(** The loop that binds the extra dimensions. *)
Lemma bind_extra_dims (kvs : list (string * Z)) :
  forall c0 c',
    foldM (fun cfg ds =>
             set_path cfg ["problem"; "instance"] (fst ds) (YInt (snd ds)))
          c0 kvs = Ok c' ->
    (forall q,
       (forall k, In k (map fst kvs) ->
                  diverge (["problem"; "instance"] ++ [k]) q = true) ->
       get_path c' q = get_path c0 q) /\
    (NoDup (map fst kvs) ->
     forall k v, In (k, v) kvs -> instance_bound c' k = Ok (YInt v)).
Proof.
  unfold instance_bound.
  induction kvs as [|[k0 v0] kvs IH]; intros c0 c' H; cbn [foldM] in H.
  - injection H as <-. split; [reflexivity | intros _ k v []].
  - inv_bind H c1 H1. cbn [fst snd] in H1.
    destruct (IH c1 c' H) as [IHother IHin]. split.
    + intros q Hq. rewrite IHother by (intros k Hk; apply Hq; now right).
      apply (get_path_set_path_other _ _ _ _ _ q H1).
      apply Hq. now left.
    + intros Hnd k v [[= -> ->]|Hin].
      * inversion Hnd as [|? ? Hnotin Hnd']; subst.
        rewrite IHother.
        -- exact (get_path_set_path_same _ _ _ _ _ H1).
        -- intros k' Hk'.
           apply (diverge_last ["problem"; "instance"] k' k).
           intros ->. contradiction.
      * inversion Hnd; subst. eauto.
Qed.

(** What the translation returns, as one chain over the template. *)
Lemma matmul_to_yaml_result (load : string -> result yaml)
    (d : MatmulFuncDescription.t) :
  let inst := ["problem"; "instance"] in
  let ed := match MatmulFuncDescription.extra_dims d with
            | Some e => e
            | None => []
            end in
  let dims := uppercase_prefix (len ed) in
  snd (MatmulFuncDescription.to_yaml load d) =
  (config <- LayerDescription.to_yaml load "matmul"
               (YStr (MatmulFuncDescription.name d)) ;;
   config <- for_each_at config ["problem"; "shape"] "data-spaces"
               (MatmulFuncDescription.rename_and_extend d dims) ;;
   config <- set_path config inst "K" (YInt (MatmulFuncDescription.k d)) ;;
   config <- set_path config inst "M" (YInt (MatmulFuncDescription.m d)) ;;
   config <- set_path config inst "N" (YInt (MatmulFuncDescription.n d)) ;;
   config <- set_path config ["problem"; "shape"] "name"
               (YStr (MatmulFuncDescription.name d)) ;;
   foldM (fun cfg ds => set_path cfg inst (fst ds) (YInt (snd ds)))
         config (combine dims ed))%py.
Proof.
  cbv zeta. unfold MatmulFuncDescription.to_yaml,
    MatmulFuncDescription.problem_template, bind, get, lift, modify, ret.
  destruct (LayerDescription.to_yaml _ _ _) as [c0|e]; [|reflexivity].
  cbn [rbind].
  destruct d as [nm m n k n1 n2 no [ed|]];
    cbn [MatmulFuncDescription.extra_dims MatmulFuncDescription.name
         MatmulFuncDescription.k MatmulFuncDescription.m
         MatmulFuncDescription.n MatmulFuncDescription.with_extra_dims].
  - destruct (for_each_at _ _ _ _); [|reflexivity]. cbn [rbind].
    repeat (destruct (set_path _ _ _ _); [|reflexivity]; cbn [rbind]).
    reflexivity.
  - change (uppercase_prefix (len [])) with (@nil string).
    destruct (for_each_at _ _ _ _); [|reflexivity]. cbn [rbind].
    repeat (destruct (set_path _ _ _ _); [|reflexivity]; cbn [rbind]).
    reflexivity.
Qed.

Lemma In_firstn_le {A} (n m : nat) (l : list A) (x : A) :
  (n <= m)%nat -> In x (firstn n l) -> In x (firstn m l).
Proof.
  revert n m. induction l as [|a l IH]; intros [|n] [|m] H; cbn;
    try tauto; try lia.
  intros [->|Hin]; [now left | right; apply (IH n m); [lia | exact Hin]].
Qed.

Lemma nth_error_combine_In {A B} (l : list A) (m : list B) (i : nat)
    (x : A) (y : B) :
  nth_error l i = Some x -> nth_error m i = Some y -> In (x, y) (combine l m).
Proof.
  revert m i. induction l as [|a l IH]; intros [|b m] [|i] Hx Hy;
    cbn in *; try discriminate.
  - injection Hx as ->. injection Hy as ->. now left.
  - right. eauto.
Qed.

(** The first ten names are not K, M or N. *)
Lemma early_names_are_free (n : Z) (k : string) :
  0 <= n <= 10 -> In k (uppercase_prefix n) ->
  k <> "K" /\ k <> "M" /\ k <> "N".
Proof.
  intros Hn Hin. unfold uppercase_prefix, slice_to in Hin.
  destruct (Z.ltb_spec n 0) as [?|_]; [lia|].
  apply (In_firstn_le _ 10) in Hin; [|lia].
  cbn in Hin.
  repeat (destruct Hin as [<-|Hin];
          [repeat split; discriminate|]).
  contradiction.
Qed.

(** X18: whenever the translation of a matrix product returns a document, the
    document carries the name, and every extra dimension is bound, under
    its letter, to its extent.  With at most 10 extra dimensions K, M
    and N are bound to the sizes [k], [m] and [n]; the 11th extra
    dimension has the letter K itself, and its extent then replaces the
    contraction size. *)
Theorem matmul_to_yaml_bounds (load : string -> result yaml)
    (d d' : MatmulFuncDescription.t) (doc : yaml) :
  MatmulFuncDescription.to_yaml load d = (d', Ok doc) ->
  let ed := match MatmulFuncDescription.extra_dims d with
            | Some e => e
            | None => []
            end in
  problem_name doc = Ok (YStr (MatmulFuncDescription.name d)) /\
  (forall i dim v,
     nth_error (uppercase_prefix (len ed)) i = Some dim ->
     nth_error ed i = Some v ->
     instance_bound doc dim = Ok (YInt v)) /\
  (len ed <= 10 ->
   instance_bound doc "K" = Ok (YInt (MatmulFuncDescription.k d)) /\
   instance_bound doc "M" = Ok (YInt (MatmulFuncDescription.m d)) /\
   instance_bound doc "N" = Ok (YInt (MatmulFuncDescription.n d))) /\
  (forall v, nth_error ed 10 = Some v ->
             instance_bound doc "K" = Ok (YInt v)).
Proof.
  intros Hrun ed.
  pose proof (matmul_to_yaml_result load d) as H. cbv zeta in H.
  rewrite Hrun in H. cbn [snd] in H. symmetry in H. fold ed in H.
  inv_bind H c0 H0. inv_bind H c1 H1. inv_bind H c2 HK.
  inv_bind H c3 HM. inv_bind H c4 HN. inv_bind H c5 Hname.
  destruct (bind_extra_dims _ _ _ H) as [Hother Hin].
  assert (Hnd : NoDup (map fst (combine (uppercase_prefix (len ed)) ed)))
    by apply NoDup_keys_combine, NoDup_uppercase_prefix.
  assert (Hpos : forall i dim v,
             nth_error (uppercase_prefix (len ed)) i = Some dim ->
             nth_error ed i = Some v ->
             instance_bound doc dim = Ok (YInt v)).
  { intros i dim v Hd Hv. apply (Hin Hnd).
    eapply nth_error_combine_In; eassumption. }
  split; [|split; [exact Hpos|split]].
  - unfold problem_name. rewrite Hother.
    + exact (get_path_set_path_same _ _ _ _ _ Hname).
    + intros k _. reflexivity.
  - intros Hlen.
    assert (Hfree : forall k,
               In k (map fst (combine (uppercase_prefix (len ed)) ed)) ->
               k <> "K" /\ k <> "M" /\ k <> "N").
    { intros k Hk.
      apply (early_names_are_free (len ed)); [unfold len in *; lia|].
      apply in_map_iff in Hk. destruct Hk as ([k' v'] & <- & Hk).
      now apply in_combine_l in Hk. }
    unfold instance_bound.
    repeat split.
    + rewrite Hother
        by (intros k Hk;
            apply (diverge_last ["problem"; "instance"] k "K");
            apply (Hfree k Hk)).
      rewrite (get_path_set_path_other _ _ _ _ _
                 ["problem"; "instance"; "K"] Hname eq_refl).
      rewrite (get_path_set_path_other _ _ _ _ _
                 ["problem"; "instance"; "K"] HN eq_refl).
      rewrite (get_path_set_path_other _ _ _ _ _
                 ["problem"; "instance"; "K"] HM eq_refl).
      exact (get_path_set_path_same _ _ _ _ _ HK).
    + rewrite Hother
        by (intros k Hk;
            apply (diverge_last ["problem"; "instance"] k "M");
            apply (Hfree k Hk)).
      rewrite (get_path_set_path_other _ _ _ _ _
                 ["problem"; "instance"; "M"] Hname eq_refl).
      rewrite (get_path_set_path_other _ _ _ _ _
                 ["problem"; "instance"; "M"] HN eq_refl).
      exact (get_path_set_path_same _ _ _ _ _ HM).
    + rewrite Hother
        by (intros k Hk;
            apply (diverge_last ["problem"; "instance"] k "N");
            apply (Hfree k Hk)).
      rewrite (get_path_set_path_other _ _ _ _ _
                 ["problem"; "instance"; "N"] Hname eq_refl).
      exact (get_path_set_path_same _ _ _ _ _ HN).
  - intros v Hv. apply (Hpos 10%nat); [|exact Hv].
    assert (Hlen : (10 < List.length ed)%nat)
      by (apply nth_error_Some; congruence).
    unfold uppercase_prefix, slice_to, len.
    destruct (Z.ltb_spec (Z.of_nat (List.length ed)) 0) as [?|_]; [lia|].
    rewrite nth_error_firstn, Nat2Z.id.
    destruct (Nat.ltb_spec 10 (List.length ed)) as [_|?]; [|lia].
    reflexivity.
Qed.

Lemma matmul_to_yaml_bounds_witness :
  let d := MatmulFuncDescription.mk "scores" 128 128 64 "q" "k"
             "scores_out" (Some [8; 12]) in
  exists d' doc,
    MatmulFuncDescription.to_yaml sample_templates d = (d', Ok doc) /\
    instance_bound doc "A" = Ok (YInt 8) /\
    instance_bound doc "B" = Ok (YInt 12) /\
    instance_bound doc "K" = Ok (YInt 64).
Proof.
  intro d. eexists. eexists. split; [reflexivity|].
  destruct (matmul_to_yaml_bounds sample_templates d _ _ eq_refl)
    as (_ & Hpos & HKMN & _).
  split; [exact (Hpos 0%nat "A" 8 eq_refl eq_refl)|].
  split; [exact (Hpos 1%nat "B" 12 eq_refl eq_refl)|].
  apply HKMN. cbn. lia.
Defined.

End MatmulTranslation.

(* ================================================================== *)
(** * Translations that build the document themselves *)
(* ================================================================== *)

Section DirectTranslations.

Lemma truediv_raises (a b : Z) (e : exn) :
  truediv a b = Raise e -> e = ZeroDivisionError \/ e = OverflowError.
Proof.
  unfold truediv, truediv_pos.
  destruct (b =? 0); [intros [= <-]; now left|].
  destruct (a =? 0); [discriminate|].
  match goal with |- context [if ?c then Raise _ else _] => destruct c end;
    cbn [rbind]; [intros [= <-]; now right | discriminate].
Qed.

Lemma out_extent_raises (extent kernel pad stride : Z) (e : exn) :
  out_extent extent kernel pad stride = Raise e ->
  e = ZeroDivisionError \/ e = OverflowError.
Proof.
  unfold out_extent.
  destruct (truediv _ _) eqn:E; cbn [rbind]; [discriminate|].
  intros [= <-]. eapply truediv_raises; eassumption.
Qed.

Lemma out_extent_zero_stride (extent kernel pad : Z) :
  out_extent extent kernel pad 0 = Raise ZeroDivisionError.
Proof. reflexivity. Qed.

(** X8: the translation of a convolution raises nothing but
    ZeroDivisionError and OverflowError.  It raises ZeroDivisionError
    whenever [g] or [h_stride] is 0; with numerators below 2^53 in
    magnitude it never raises OverflowError, and raises
    ZeroDivisionError exactly when [g] or one of the strides is 0. *)
Theorem conv_to_yaml_failures (d : ConvLayerDescription.t) :
  let (_, g, m, w, h, c, n, s, r, w_pad, h_pad, w_stride, h_stride, _, _, _)
    := d in
  (forall e, ConvLayerDescription.to_yaml d = Raise e ->
             e = ZeroDivisionError \/ e = OverflowError) /\
  (g = 0 \/ h_stride = 0 ->
   ConvLayerDescription.to_yaml d = Raise ZeroDivisionError) /\
  (Z.abs (h - r + 2 * h_pad) < 2 ^ 53 ->
   Z.abs (w - s + 2 * w_pad) < 2 ^ 53 ->
   ConvLayerDescription.to_yaml d <> Raise OverflowError /\
   (ConvLayerDescription.to_yaml d = Raise ZeroDivisionError <->
    g = 0 \/ h_stride = 0 \/ w_stride = 0)).
Proof.
  destruct d as [nm g m w h c n s r w_pad h_pad w_stride h_stride n1 n2 n3].
  unfold ConvLayerDescription.to_yaml, ConvLayerDescription.p,
    ConvLayerDescription.q, floordiv.
  cbn [ConvLayerDescription.g ConvLayerDescription.c ConvLayerDescription.m
       ConvLayerDescription.h ConvLayerDescription.r
       ConvLayerDescription.h_pad ConvLayerDescription.h_stride
       ConvLayerDescription.w ConvLayerDescription.s
       ConvLayerDescription.w_pad ConvLayerDescription.w_stride].
  destruct (Z.eqb_spec g 0) as [Hg|Hg]; cbn [rbind].
  - split; [intros e [= <-]; now left|].
    split; [reflexivity|]. intros _ _.
    split; [discriminate|]. split; [now left | reflexivity].
  - destruct (Z.eq_dec h_stride 0) as [->|Hh].
    + rewrite out_extent_zero_stride. cbn [rbind].
      split; [intros e [= <-]; now left|].
      split; [reflexivity|]. intros _ _.
      split; [discriminate|]. split; [now (right; left) | reflexivity].
    + split; [|split].
      * intros e.
        destruct (out_extent h r h_pad h_stride) eqn:Ep; cbn [rbind];
          [|intros [= <-]; eapply out_extent_raises; eassumption].
        destruct (out_extent w s w_pad w_stride) eqn:Eq; cbn [rbind];
          [discriminate|].
        intros [= <-]. eapply out_extent_raises; eassumption.
      * intros [?|?]; contradiction.
      * intros Hhn Hwn.
        rewrite (out_extent_truncates h r h_pad h_stride Hhn Hh).
        cbn [rbind].
        destruct (Z.eq_dec w_stride 0) as [->|Hw].
        -- rewrite out_extent_zero_stride. cbn [rbind].
           split; [discriminate|]. split; [now (right; right) | reflexivity].
        -- rewrite (out_extent_truncates w s w_pad w_stride Hwn Hw).
           cbn [rbind]. split; [discriminate|].
           split; [discriminate | intros [?|[?|?]]; contradiction].
Qed.

Lemma conv_to_yaml_failures_witness :
  ConvLayerDescription.to_yaml
    (conv "conv" 1 8 32 32 3 1 3 3 1 1 0 1 "x" "f" "y")
  = Raise ZeroDivisionError.
Proof.
  pose proof (conv_to_yaml_failures
                (conv "conv" 1 8 32 32 3 1 3 3 1 1 0 1 "x" "f" "y")) as H.
  cbv beta iota delta [conv] in H.
  destruct H as (_ & _ & H).
  destruct H as (_ & H); [cbn; lia | cbn; lia |].
  apply H. right. right. reflexivity.
Defined.

(** X9: a transposed-convolution description whose [g] is 0 is left as it
    is by a failed translation.  Otherwise the translation returns a
    document and appends [_transpose] to the stored name; the document
    carries the new name and binds P and Q to the stored [h] and [w], C
    and M to the channels per group; a second call appends the suffix a
    second time. *)
Theorem conv_transpose_to_yaml_renames (d : ConvTransposeLayerDescription.t) :
  let (name, g, m, w, h, c, n, s, r, _, _, _, _, _, _, _) := d in
  (g = 0 ->
   ConvTransposeLayerDescription.to_yaml d = (d, Raise ZeroDivisionError)) /\
  (g <> 0 ->
   exists doc,
     ConvTransposeLayerDescription.to_yaml d =
       (ConvTransposeLayerDescription.with_name d
          (name ++ "_transpose")%string, Ok doc) /\
     name_of doc = Ok (YStr (name ++ "_transpose")%string) /\
     instance_of doc =
       Ok (YDict [("G", YInt g); ("C", YInt (c / g)); ("M", YInt (m / g));
                  ("N", YInt n); ("R", YInt r); ("S", YInt s);
                  ("P", YInt h); ("Q", YInt w)]) /\
     exists doc',
       ConvTransposeLayerDescription.to_yaml
         (ConvTransposeLayerDescription.with_name d
            (name ++ "_transpose")%string) =
         (ConvTransposeLayerDescription.with_name d
            ((name ++ "_transpose") ++ "_transpose")%string, Ok doc') /\
       name_of doc'
         = Ok (YStr ((name ++ "_transpose") ++ "_transpose")%string)).
Proof.
  destruct d as [nm g m w h c n s r wp hp ws hs n1 n2 n3].
  unfold ConvTransposeLayerDescription.to_yaml, bind, get, lift, modify, ret,
    floordiv.
  cbn [ConvTransposeLayerDescription.g ConvTransposeLayerDescription.c
       ConvTransposeLayerDescription.m ConvTransposeLayerDescription.with_name
       ConvTransposeLayerDescription.name].
  destruct (Z.eqb_spec g 0) as [Hg|Hg].
  - split; [reflexivity | contradiction].
  - split; [contradiction|]. intros _.
    eexists. split; [reflexivity|]. split; [reflexivity|].
    split; [reflexivity|].
    eexists. split; reflexivity.
Qed.

Lemma conv_transpose_to_yaml_renames_witness :
  let d := ConvTransposeLayerDescription.mk "up" 1 8 16 16 16 1 4 4 1 1 2 2
             "x" "up_filter" "up_out" in
  exists doc,
    ConvTransposeLayerDescription.to_yaml d =
      (ConvTransposeLayerDescription.with_name d "up_transpose", Ok doc) /\
    name_of doc = Ok (YStr "up_transpose").
Proof.
  intro d.
  pose proof (conv_transpose_to_yaml_renames d) as H.
  cbv beta iota delta [d] in H. destruct H as (_ & H).
  destruct H as (doc & Hd & Hn & _); [discriminate|].
  exists doc. split; [exact Hd | exact Hn].
Defined.

(** ** Elementwise descriptions *)

Lemma element_count_positive (l : list Z) :
  Forall (fun x => 0 < x) l -> 0 < element_count l.
Proof.
  induction 1 as [|x l Hx _ IH]; cbn; [lia|].
  fold (element_count l). nia.
Qed.

Lemma element_count_one (l : list Z) :
  Forall (fun x => 0 < x) l ->
  (element_count l =? 1) = forallb (Z.eqb 1) l.
Proof.
  induction 1 as [|x l Hx Hl IH]; [reflexivity|].
  cbn [element_count fold_right forallb]. fold (element_count l).
  pose proof (element_count_positive l Hl) as Hpos.
  rewrite <- IH.
  destruct (Z.eqb_spec 1 x) as [<-|Hne]; cbn [andb].
  - now rewrite Z.mul_1_l.
  - apply Z.eqb_neq. nia.
Qed.

(** X10: with positive extents the legacy translation of an elementwise
    description appends [_exhaustive] to the name exactly when every
    extent of the first input is 1, in the stored name and in the
    document alike. *)
Theorem binary_suffix_when_all_extents_are_one
    (d d' : BinaryElementwiseFuncDescription.t) (doc : yaml) :
  Forall (fun x => 0 < x) (BinaryElementwiseFuncDescription.ifmap1_shape d) ->
  BinaryElementwiseFuncDescription.to_yaml d = (d', Ok doc) ->
  let name' :=
    if forallb (Z.eqb 1) (BinaryElementwiseFuncDescription.ifmap1_shape d)
    then (BinaryElementwiseFuncDescription.name d ++ "_exhaustive")%string
    else BinaryElementwiseFuncDescription.name d in
  BinaryElementwiseFuncDescription.name d' = name' /\
  name_of doc = Ok (YStr name').
Proof.
  intros Hpos H. cbv zeta.
  rewrite <- (element_count_one _ Hpos).
  rewrite binary_to_yaml_run in H. cbv zeta in H.
  destruct d as [nm s1 s2 so n1 n2 no].
  cbn [after_padding BinaryElementwiseFuncDescription.ifmap1_shape
       BinaryElementwiseFuncDescription.ifmap2_shape
       BinaryElementwiseFuncDescription.ofmap_shape
       BinaryElementwiseFuncDescription.name] in *.
  destruct (Z.leb_spec (len s1) (len so)) as [H1|H1]; cbn [andb] in H;
    [|discriminate].
  destruct (_ <=? _); [|discriminate].
  rewrite (normalized_padded so s1 H1) in H.
  destruct (product _) as [prod|e] eqn:Hprod; [|discriminate].
  apply product_ok in Hprod. destruct Hprod as [-> _].
  rewrite element_count_padded in H.
  destruct (element_count s1 =? 1); injection H as <- <-;
    split; reflexivity.
Qed.

Lemma binary_suffix_when_all_extents_are_one_witness :
  let d := BinaryElementwiseFuncDescription.mk "scale" [1] [1; 1] [1; 1]
             "gamma" "x" "scale_out" in
  exists d' doc,
    BinaryElementwiseFuncDescription.to_yaml d = (d', Ok doc) /\
    BinaryElementwiseFuncDescription.name d' = "scale_exhaustive" /\
    name_of doc = Ok (YStr "scale_exhaustive").
Proof.
  intro d. eexists. eexists. split; [reflexivity|].
  apply (binary_suffix_when_all_extents_are_one d _ _);
    [repeat constructor | reflexivity].
Defined.

Lemma normalized_idempotent (so s : list Z) :
  normalized so (normalized so s) = normalized so s.
Proof.
  unfold normalized at 1.
  destruct (Z.ltb_spec (len (normalized so s)) (len so)) as [Hlt|_];
    [|reflexivity].
  pose proof (length_normalized so s) as E.
  destruct (Z.leb_spec (len s) (len so)) as [Hle|Hgt].
  - apply Z.eqb_eq in E. lia.
  - unfold normalized in Hlt.
    destruct (Z.ltb_spec (len s) (len so)); lia.
Qed.

Lemma length_normalized_le (so s : list Z) :
  (len (normalized so s) <=? len so) = (len s <=? len so).
Proof.
  pose proof (length_normalized so s) as E.
  destruct (Z.leb_spec (len s) (len so)) as [Hle|Hgt].
  - apply Z.eqb_eq in E. apply Z.leb_le. lia.
  - apply Z.leb_gt. unfold normalized.
    destruct (Z.ltb_spec (len s) (len so)); lia.
Qed.

Lemma binary_to_fused_yaml_state (d : BinaryElementwiseFuncDescription.t) :
  fst (BinaryElementwiseFuncDescription.to_fused_yaml d) = after_padding d.
Proof.
  rewrite binary_to_fused_yaml_run. cbv zeta. now destruct (_ && _).
Qed.

(** X11: the fused translation of an elementwise description returns a
    document exactly when both inputs have at most the rank of the
    output, and fails with AssertionError otherwise; it never changes the
    name.  Applied to the description it left, it leaves the same
    description and returns the same outcome; and after a returned
    document the stored shapes of both inputs have the rank of the
    output. *)
Theorem binary_fused_is_idempotent
    (d : BinaryElementwiseFuncDescription.t) :
  let (name, ifmap1_shape, ifmap2_shape, ofmap_shape, _, _, _) := d in
  let d1 := fst (BinaryElementwiseFuncDescription.to_fused_yaml d) in
  let r := snd (BinaryElementwiseFuncDescription.to_fused_yaml d) in
  (succeeds r = true <->
   len ifmap1_shape <= len ofmap_shape /\
   len ifmap2_shape <= len ofmap_shape) /\
  (succeeds r = false -> r = Raise AssertionError) /\
  BinaryElementwiseFuncDescription.name d1 = name /\
  BinaryElementwiseFuncDescription.to_fused_yaml d1 = (d1, r) /\
  (succeeds r = true ->
   len (BinaryElementwiseFuncDescription.ifmap1_shape d1) = len ofmap_shape /\
   len (BinaryElementwiseFuncDescription.ifmap2_shape d1) = len ofmap_shape).
Proof.
  rewrite binary_to_fused_yaml_state.
  destruct d as [nm s1 s2 so n1 n2 no]. cbv zeta.
  rewrite !binary_to_fused_yaml_run. cbv zeta.
  cbn [after_padding BinaryElementwiseFuncDescription.ifmap1_shape
       BinaryElementwiseFuncDescription.ifmap2_shape
       BinaryElementwiseFuncDescription.ofmap_shape].
  rewrite !normalized_idempotent, !length_normalized_le.
  pose proof (length_normalized so s1) as E1.
  pose proof (length_normalized so s2) as E2.
  destruct (Z.leb_spec (len s1) (len so)) as [H1|H1];
    destruct (Z.leb_spec (len s2) (len so)) as [H2|H2];
    cbn [andb fst snd succeeds BinaryElementwiseFuncDescription.name
         BinaryElementwiseFuncDescription.ifmap1_shape
         BinaryElementwiseFuncDescription.ifmap2_shape] in *.
  all: repeat split; try reflexivity; try discriminate; try lia;
    try (intros [? ?]; lia).
Qed.

Lemma binary_fused_is_idempotent_witness :
  let d1 := fst (BinaryElementwiseFuncDescription.to_fused_yaml
                   broadcast_add) in
  BinaryElementwiseFuncDescription.ifmap1_shape d1 = [1; 3] /\
  BinaryElementwiseFuncDescription.to_fused_yaml d1
  = (d1, snd (BinaryElementwiseFuncDescription.to_fused_yaml broadcast_add)).
Proof.
  intro d1. split; [reflexivity|].
  pose proof (binary_fused_is_idempotent broadcast_add) as H.
  cbv beta iota zeta delta [broadcast_add] in H.
  destruct H as (_ & _ & _ & H & _). exact H.
Defined.

(** X12: a second legacy translation of an elementwise description finds the
    shapes padded and leaves them; it returns the same document when the
    product of the first input shape is not 1, and otherwise appends
    [_exhaustive] to the name a second time. *)
Theorem binary_legacy_twice
    (d d1 : BinaryElementwiseFuncDescription.t) (doc : yaml) :
  BinaryElementwiseFuncDescription.to_yaml d = (d1, Ok doc) ->
  (element_count (BinaryElementwiseFuncDescription.ifmap1_shape d) <> 1 ->
   BinaryElementwiseFuncDescription.to_yaml d1 = (d1, Ok doc)) /\
  (element_count (BinaryElementwiseFuncDescription.ifmap1_shape d) = 1 ->
   exists d2 doc2,
     BinaryElementwiseFuncDescription.to_yaml d1 = (d2, Ok doc2) /\
     BinaryElementwiseFuncDescription.name d2
       = ((BinaryElementwiseFuncDescription.name d ++ "_exhaustive")
          ++ "_exhaustive")%string /\
     name_of doc2
       = Ok (YStr ((BinaryElementwiseFuncDescription.name d ++ "_exhaustive")
                   ++ "_exhaustive")%string) /\
     instance_of doc2 = instance_of doc).
Proof.
  intros H. rewrite binary_to_yaml_run in H. cbv zeta in H.
  destruct d as [nm s1 s2 so n1 n2 no].
  cbn [after_padding BinaryElementwiseFuncDescription.ifmap1_shape
       BinaryElementwiseFuncDescription.ifmap2_shape
       BinaryElementwiseFuncDescription.ofmap_shape
       BinaryElementwiseFuncDescription.name] in *.
  destruct (Z.leb_spec (len s1) (len so)) as [H1|H1]; cbn [andb] in H;
    [|discriminate].
  destruct (Z.leb_spec (len s2) (len so)) as [H2|H2]; [|discriminate].
  destruct (product _) as [prod|e] eqn:Hprod; [|discriminate].
  pose proof Hprod as Hprod'.
  apply product_ok in Hprod'. destruct Hprod' as [-> _].
  rewrite (normalized_padded so s1 H1), element_count_padded in H.
  assert (Hrun : forall nm',
            BinaryElementwiseFuncDescription.to_yaml
              (BinaryElementwiseFuncDescription.mk nm' (normalized so s1)
                 (normalized so s2) so n1 n2 no) =
            let d' := BinaryElementwiseFuncDescription.mk nm'
                        (normalized so s1) (normalized so s2) so n1 n2 no in
            let d2 := if element_count s1 =? 1
                      then BinaryElementwiseFuncDescription.with_name d'
                             (nm' ++ "_exhaustive")%string
                      else d' in
            (d2, Ok (BinaryElementwiseFuncDescription.config d2))).
  { intros nm'. rewrite binary_to_yaml_run. cbv zeta.
    cbn [after_padding BinaryElementwiseFuncDescription.ifmap1_shape
         BinaryElementwiseFuncDescription.ifmap2_shape
         BinaryElementwiseFuncDescription.ofmap_shape
         BinaryElementwiseFuncDescription.name].
    rewrite !normalized_idempotent, !length_normalized_le.
    destruct (Z.leb_spec (len s1) (len so)) as [_|?]; [|lia].
    destruct (Z.leb_spec (len s2) (len so)) as [_|?]; [|lia].
    cbn [andb]. rewrite Hprod.
    rewrite (normalized_padded so s1 H1), element_count_padded.
    reflexivity. }
  rewrite (normalized_padded so s1 H1) in Hrun.
  destruct (Z.eqb_spec (element_count s1) 1) as [E|E];
    injection H as <- <-; (split; [intros Hne|intros Heq]).
  - contradiction.
  - unfold BinaryElementwiseFuncDescription.with_name at 1.
    cbn [BinaryElementwiseFuncDescription.name
         BinaryElementwiseFuncDescription.ifmap1_shape
         BinaryElementwiseFuncDescription.ifmap2_shape
         BinaryElementwiseFuncDescription.ofmap_shape
         BinaryElementwiseFuncDescription.ifmap1_name
         BinaryElementwiseFuncDescription.ifmap2_name
         BinaryElementwiseFuncDescription.ofmap_name].
    rewrite Hrun. cbv zeta.
    eexists. eexists. split; [reflexivity|].
    repeat split; reflexivity.
  - rewrite Hrun. reflexivity.
  - contradiction.
Qed.

Lemma binary_legacy_twice_witness :
  let d := BinaryElementwiseFuncDescription.mk "scale" [1] [1; 1] [1; 1]
             "gamma" "x" "scale_out" in
  exists d2 doc2,
    BinaryElementwiseFuncDescription.to_yaml
      (fst (BinaryElementwiseFuncDescription.to_yaml d)) = (d2, Ok doc2) /\
    name_of doc2 = Ok (YStr "scale_exhaustive_exhaustive").
Proof.
  intro d.
  destruct (binary_legacy_twice d _ _ eq_refl) as (_ & H).
  destruct (H eq_refl) as (d2 & doc2 & Hd & _ & Hn & _).
  exists d2, doc2. split; [exact Hd | exact Hn].
Defined.

(** X13: the legacy translation of an elementwise description needs an output
    of rank at least 1 where the fused one does not: for scalar operands
    the legacy translation raises TypeError and the fused one returns a
    document.  Whenever both return, the documents have the same
    dimensions and the same instance bounds, and are the same document
    unless the product of the first input shape is 1. *)
Theorem binary_legacy_against_fused
    (d : BinaryElementwiseFuncDescription.t) :
  let (name, ifmap1_shape, ifmap2_shape, ofmap_shape, _, _, _) := d in
  (ifmap1_shape = [] -> ifmap2_shape = [] -> ofmap_shape = [] ->
   BinaryElementwiseFuncDescription.to_yaml d = (d, Raise TypeError) /\
   exists doc,
     BinaryElementwiseFuncDescription.to_fused_yaml d = (d, Ok doc)) /\
  (forall d1 doc1,
     BinaryElementwiseFuncDescription.to_yaml d = (d1, Ok doc1) ->
     exists doc,
       BinaryElementwiseFuncDescription.to_fused_yaml d
         = (after_padding d, Ok doc) /\
       dimensions_of doc1 = dimensions_of doc /\
       instance_of doc1 = instance_of doc /\
       (element_count ifmap1_shape <> 1 ->
        doc1 = doc /\ d1 = after_padding d)).
Proof.
  destruct d as [nm s1 s2 so n1 n2 no]. split.
  - intros -> -> ->. split; [reflexivity | eexists; reflexivity].
  - intros d1 doc1 H.
    rewrite binary_to_yaml_run in H. rewrite binary_to_fused_yaml_run.
    cbv zeta in *.
    cbn [after_padding BinaryElementwiseFuncDescription.ifmap1_shape
         BinaryElementwiseFuncDescription.ifmap2_shape
         BinaryElementwiseFuncDescription.ofmap_shape
         BinaryElementwiseFuncDescription.name] in *.
    destruct (Z.leb_spec (len s1) (len so)) as [H1|H1]; cbn [andb] in *;
      [|discriminate].
    destruct (_ <=? _); [|discriminate].
    destruct (product _) as [prod|e] eqn:Hprod; [|discriminate].
    apply product_ok in Hprod. destruct Hprod as [-> _].
    rewrite (normalized_padded so s1 H1) in *.
    rewrite element_count_padded in H.
    eexists. split; [reflexivity|].
    destruct (Z.eqb_spec (element_count s1) 1) as [E|E];
      injection H as <- <-.
    + split; [reflexivity|]. split; [reflexivity|].
      intros Hne. contradiction.
    + split; [reflexivity|]. split; [reflexivity|].
      intros _. split; reflexivity.
Qed.

Lemma binary_legacy_against_fused_witness :
  exists doc,
    BinaryElementwiseFuncDescription.to_fused_yaml broadcast_add
      = (after_padding broadcast_add, Ok doc) /\
    instance_of doc = Ok (YDict [("A", YInt 1); ("B", YInt 3)]).
Proof.
  pose proof (binary_legacy_against_fused broadcast_add) as H.
  cbv beta iota delta [broadcast_add] in H. destruct H as (_ & H).
  destruct (H _ _ eq_refl) as (doc & Hd & _ & Hi & _).
  exists doc. split; [exact Hd|]. rewrite <- Hi. reflexivity.
Defined.

End DirectTranslations.
